(** * The Gitee platform client and the local git initialiser

    A shallow embedding of [git-provider]'s [Gitee] class (list
    repositories and branches, resolve a ref, webhook CRUD, the paginated
    list fetch) and of [git]'s [initConfig], with the properties the
    specification states about them.

    JavaScript values are a small JSON-like datatype; the objects the client
    mutates in place (the caller's [params]) live in a store indexed by
    references, so that aliasing is visible; [axios] is a backend function
    from the number of requests issued so far and the current request to a
    reply. *)

From Stdlib Require Import ZArith String Ascii List Lia.
From stdpp Require Import gmap strings list pretty.

Set Warnings "-register-all".
Local Open Scope string_scope.
Local Open Scope list_scope.
Local Open Scope stdpp_scope.

(** ** JavaScript values *)

(** Numbers are the integers (no fractions, no infinities) and [NaN];
    functions and symbols do not occur in the payloads the client handles. *)
Inductive json : Type :=
| JUndefined
| JNull
| JNaN
| JBool (b : bool)
| JNum (n : Z)
| JStr (s : string)
| JArr (xs : list json)
| JObj (kvs : gmap string json).

(** A plain object: its own enumerable properties. *)
Abbreviation obj := (gmap string json).

Definition is_undefined (v : json) : bool :=
  match v with JUndefined => true | _ => false end.

Definition is_nullish (v : json) : bool :=
  match v with JUndefined | JNull => true | _ => false end.

(** [o[k]] on a plain object, own properties only. *)
Definition obj_get (o : obj) (k : string) : json := default JUndefined (o !! k).

(** ** Strings *)

(** [String.prototype.replace] with a string pattern and a replacement
    without [$] patterns: the first occurrence only. *)
Fixpoint replace_first (pat rep s : string) : string :=
  if String.prefix pat s
  then rep +:+ String.substring (String.length pat) (String.length s - String.length pat) s
  else match s with
       | EmptyString => EmptyString
       | String c s' => String c (replace_first pat rep s')
       end.

(** [Array.prototype.join(",")] over already converted elements. *)
Fixpoint join_comma (parts : list string) : string :=
  match parts with
  | [] => ""
  | [p] => p
  | p :: ps => p +:+ "," +:+ join_comma ps
  end.

(** ECMAScript [ToString], as applied by a template literal [`${v}`]. A number
    of the model is an integer and prints in decimal, as JavaScript prints the
    integers below 10^21 in magnitude. *)
Fixpoint js_ToString (v : json) : string :=
  match v with
  | JUndefined => "undefined"
  | JNull => "null"
  | JNaN => "NaN"
  | JBool true => "true"
  | JBool false => "false"
  | JNum n => pretty n
  | JStr s => s
  | JArr xs =>
      join_comma (List.map (fun x => if is_nullish x then "" else js_ToString x) xs)
  | JObj _ => "[object Object]"
  end.

(** lodash [baseToString] and [_.toString]. *)
Fixpoint baseToString (v : json) : string :=
  match v with
  | JStr s => s
  | JArr xs => join_comma (List.map baseToString xs)
  | _ => js_ToString v
  end.

Definition lodash_toString (v : json) : string :=
  if is_nullish v then "" else baseToString v.

(** [_.startsWith(string, target)] at position 0. *)
Definition lodash_startsWith (v : json) (target : string) : bool :=
  String.prefix target (lodash_toString v).

(** [_.replace(string, pattern, replacement)] with a string pattern. *)
Definition lodash_replace (v : json) (pattern replacement : string) : string :=
  replace_first pattern replacement (lodash_toString v).

(** ** lodash on collections *)

(** [Number.MAX_SAFE_INTEGER], the bound of lodash [isLength]. *)
Definition MAX_SAFE_INTEGER : Z := 9007199254740991.

(** [_.size]: 0 for null and undefined; the length of an array, of a string
    (in characters of the model, which are those of JavaScript for an ASCII
    string) and of an array-like object, one whose [length] is an integer
    from 0 to [MAX_SAFE_INTEGER]; the number of own keys of any other object;
    0 for the other primitives. *)
Definition lodash_size (v : json) : nat :=
  match v with
  | JArr xs => List.length xs
  | JStr s => String.length s
  | JObj kvs =>
      match kvs !! "length" with
      | Some (JNum n) =>
          if decide (0 <= n <= MAX_SAFE_INTEGER)%Z then Z.to_nat n else size kvs
      | _ => size kvs
      end
  | _ => 0
  end.

(** [_.concat(rows, data)]: an array argument is spread one level, any other
    value (also [undefined]) is appended as one element. *)
Definition spread (data : json) : list json :=
  match data with
  | JArr xs => xs
  | _ => [data]
  end.

Definition lodash_concat (rows : list json) (data : json) : list json :=
  rows ++ spread data.

(** [_.isEmpty]: nullish values, numbers and booleans are empty; a string or
    array is empty when its length is 0, an object when it has no own key. *)
Definition lodash_isEmpty (v : json) : bool :=
  match v with
  | JStr s => Nat.eqb (String.length s) 0
  | JArr xs => Nat.eqb (List.length xs) 0
  | JObj kvs => bool_decide (kvs = ∅)
  | _ => true
  end.

(** [_.defaults(object, source)] on the properties: a key of [source] is
    assigned when the destination has no own defined value for it. *)
Definition defaults_value (dst src : option json) : option json :=
  match dst, src with
  | Some v, Some s => if is_undefined v then Some s else Some v
  | Some v, None => Some v
  | None, s => s
  end.

Definition lodash_defaults (object source : obj) : obj :=
  merge defaults_value object source.

(** [_.omit(object, keys)]: a new object without the listed keys. *)
Definition lodash_omit (object : obj) (keys : list string) : obj :=
  List.fold_left (fun o k => delete k o) keys object.

(** [object[key]] as [baseGet] reads it: defined on objects only for the keys
    the client uses (none of them is [length], an index or a prototype
    member). *)
Definition js_index (v : json) (key : string) : json :=
  match v with
  | JObj kvs => obj_get kvs key
  | _ => JUndefined
  end.

(** lodash [baseGet] along a path that is already an array of keys. *)
Fixpoint baseGet_from (object : json) (path : list string) : json :=
  match path with
  | [] => object
  | key :: rest =>
      if is_nullish object then JUndefined else baseGet_from (js_index object key) rest
  end.

Definition baseGet (object : json) (path : list string) : json :=
  match path with
  | [] => JUndefined
  | _ => baseGet_from object path
  end.

(** Dot-separated segments of a property path (the client's paths have no
    bracket syntax). *)
Fixpoint split_dots (acc s : string) : list string :=
  match s with
  | EmptyString => [acc]
  | String c s' =>
      if Ascii.eqb c "."%char then acc :: split_dots "" s'
      else split_dots (acc +:+ String c "") s'
  end.

Definition has_dot (s : string) : bool :=
  match split_dots "" s with
  | [_] => false
  | _ => true
  end.

(** lodash [castPath]: a name without a dot is one key; a dotted name is one
    key when the object has it as a property, and its segments otherwise. *)
Definition castPath (path : string) (object : json) : list string :=
  if has_dot path then
    match object with
    | JObj kvs => if bool_decide (is_Some (kvs !! path)) then [path] else split_dots "" path
    | _ => split_dots "" path
    end
  else [path].

(** [_.get(object, path, defaultValue)]. *)
Definition lodash_get_or (object : json) (path : string) (defaultValue : json) : json :=
  let result := if is_nullish object then JUndefined else baseGet object (castPath path object) in
  if is_undefined result then defaultValue else result.

(** [_.get(object, path)]. *)
Definition lodash_get (object : json) (path : string) : json :=
  lodash_get_or object path JUndefined.

(** [value + 1] for the page counter. On numbers it is the sum of integers,
    which is the sum of JavaScript below [MAX_SAFE_INTEGER]. *)
Definition js_add_one (v : json) : json :=
  match v with
  | JNum n => JNum (n + 1)
  | JNull => JNum 1
  | JBool b => JNum (if b then 2 else 1)
  | JUndefined | JNaN => JNaN
  | JStr _ | JArr _ | JObj _ => JStr (js_ToString v +:+ "1")
  end.

(** [n === v] for a number [n]. *)
Definition js_strict_eq_num (n : Z) (v : json) : bool :=
  match v with
  | JNum m => Z.eqb n m
  | _ => false
  end.

(** ** The store, the transport and the client's computations *)

(** References to the objects that are mutated in place. *)
Abbreviation loc := positive.

(** What [axios] is called with: [{ method, url, params }], the query
    parameters as they are when the call is made. *)
Record request : Type := {
  method : string;
  url : string;
  params : gmap string json;
}.

(** The promise [axios] returns settles with a response object or rejects. *)
Inductive reply : Type :=
| Resolve (result : json)
| Reject (reason : json).

Definition exchange : Type := request * reply.

(** The backend behind [axios]: the reply to a request, given how many
    requests were issued before it. *)
Definition transport : Type := nat -> request -> reply.

Record world : Type := {
  heap : gmap loc (gmap string json);
  log : list exchange;
}.

Inductive error : Type :=
| Error (message : string)
| ValidationError (missing : string)
| TypeError
| AxiosError (reason : json).

(** A computation ends with a value, with an exception, or is cut by the
    bound put on the number of loop iterations. *)
Inductive outcome (A : Type) : Type :=
| Ret (a : A) (w : world)
| Throw (e : error) (w : world)
| OutOfFuel.

Arguments Ret {A} a w.
Arguments Throw {A} e w.
Arguments OutOfFuel {A}.

Definition M (A : Type) : Type := world -> outcome A.

Definition ret {A} (a : A) : M A := fun w => Ret a w.

Definition throw {A} (e : error) : M A := fun w => Throw e w.

Definition bind {A B} (c : M A) (k : A -> M B) : M B :=
  fun w =>
    match c w with
    | Ret a w' => k a w'
    | Throw e w' => Throw e w'
    | OutOfFuel => OutOfFuel
    end.

Notation "'let*' x ':=' c 'in' k" := (bind c (fun x => k))
  (at level 10, x name, c at level 100, k at level 200).
Notation "c ';;' k" := (bind c (fun _ => k))
  (at level 100, k at level 200, right associativity).

(** An object literal: a fresh object in the store. *)
Definition alloc (o : gmap string json) : M loc :=
  fun w =>
    let l := fresh (dom (heap w)) in
    Ret l {| heap := <[l := o]> (heap w); log := log w |}.

(** The properties of the object behind a reference. A reference that
    designates no object stands for an argument that is not an object:
    reading a property of it is a [TypeError]. *)
Definition load (l : loc) : M (gmap string json) :=
  fun w =>
    match heap w !! l with
    | Some o => Ret o w
    | None => Throw TypeError w
    end.

Definition store (l : loc) (o : gmap string json) : M unit :=
  fun w => Ret tt {| heap := <[l := o]> (heap w); log := log w |}.

(** [v.key] and [const { key } = v]: a [TypeError] on null and undefined. *)
Definition js_member (v : json) (key : string) : M json :=
  if is_nullish v then throw TypeError else ret (js_index v key).

(** [_.defaults(dst, src)] mutates [dst] and returns it. *)
Definition lodash_defaults_at (dst : loc) (src : gmap string json) : M loc :=
  let* o := load dst in
  store dst (lodash_defaults o src) ;;
  ret dst.

(** [_.map(rows, f)] for a callback that may throw. *)
Fixpoint lodash_map {A} (f : json -> M A) (rows : list json) : M (list A) :=
  match rows with
  | [] => ret []
  | row :: rest =>
      let* x := f row in
      let* xs := lodash_map f rest in
      ret (x :: xs)
  end.

(** ** The Gitee client *)

Definition V5 : string := "https://gitee.com/api/v5".

(** [private PARAMS]: only ever read, as the source of [_.defaults]. *)
Definition PARAMS : gmap string json :=
  {[ "per_page" := JNum 100; "page" := JNum 1; "sort" := JStr "updated" ]}.

Record Gitee : Type := {
  config : json;
  access_token : json;
}.

Inductive completion (A : Type) : Type :=
| Normal (a : A)
| Abrupt (e : error).

Arguments Normal {A} a.
Arguments Abrupt {A} e.

(** Modelled from the spec: the constructor of [Base] (./base is not among
    the sources). The base client "holds shared configuration"; the only
    construction error the specification names is the missing access token,
    which [Gitee] raises itself. *)
Definition Base_constructor (config : json) : completion json := Normal config.

Definition Gitee_constructor (config : json) : completion Gitee :=
  match Base_constructor config with
  | Abrupt e => Abrupt e
  | Normal base =>
      let access_token := lodash_get config "access_token" in
      if lodash_isEmpty access_token
      then Abrupt (Error "Access token is required")
      else Normal {| config := base; access_token := access_token |}
  end.

(** Modelled from the spec: the validation helpers of [Base] (./base is not
    among the sources). Each "checks required parameters (e.g., owner, repo,
    hook_id) are present and correctly typed, raising on omission": the first
    required key that [params] does not have is reported. The specification
    gives no parameter a type, so of the two checks the model has the one of
    presence: a key that is there passes, whatever its value. The required
    keys of an operation are those its signature in the specification names
    and its body destructures. *)
Definition validate_required (required : list string) (params : loc) : M unit :=
  let* o := load params in
  match List.find (fun k => negb (bool_decide (is_Some (o !! k)))) required with
  | Some k => throw (ValidationError k)
  | None => ret tt
  end.

Definition validateListBranchsParams := validate_required ["owner"; "repo"].
Definition validateGetRefCommitParams := validate_required ["owner"; "repo"; "ref"].
Definition validateListWebhookParams := validate_required ["owner"; "repo"].
Definition validateCreateWebhookParams := validate_required ["owner"; "repo"].
Definition validateUpdateWebhookParams := validate_required ["owner"; "repo"; "hook_id"].
Definition validateGetWebhookParams := validate_required ["owner"; "repo"; "hook_id"].
Definition validateDeleteWebhookParams := validate_required ["owner"; "repo"; "hook_id"].

(** The output shapes of [../types/output]; each field carries the name of
    its shape before the name of the JavaScript key ([id], [name], [url],
    [commit_sha], [sha], [message], [source]). *)
Record IRepoOutput : Type := {
  repo_id : json;
  repo_name : json;
  repo_url : json;
  repo_source : json;
}.

Record IBranchOutput : Type := {
  branch_name : json;
  branch_commit_sha : json;
  branch_source : json;
}.

Record ICommitOutput : Type := {
  commit_sha : json;
  commit_message : json;
  commit_source : json;
}.

Record IGetWebhookOutput : Type := {
  webhook_id : json;
  webhook_url : json;
  webhook_source : json;
}.

Record ICreateWebhookOutput : Type := {
  created_id : json;
  created_source : json;
}.

Section Client.

Variable backend : transport.
Variable this : Gitee.

(** [axios({ method, url, params })]. *)
Definition axios (req : request) : M json :=
  fun w =>
    let r := backend (List.length (log w)) req in
    let w' := {| heap := heap w; log := log w ++ [(req, r)] |} in
    match r with
    | Resolve result => Ret result w'
    | Reject reason => Throw (AxiosError reason) w'
    end.

Definition requestV5 (path method : string) (params : loc) : M json :=
  let* p := lodash_defaults_at params {[ "access_token" := access_token this ]} in
  let* o := load p in
  axios {| method := method; url := V5 +:+ path; params := o |}.

(** The [do ... while] of [requestList], at most [fuel] iterations. *)
Fixpoint requestList_loop (fuel : nat) (url : string) (params : loc) (rows : list json)
  : M (list json) :=
  match fuel with
  | O => fun _ => OutOfFuel
  | S fuel' =>
      let* result := requestV5 url "GET" params in
      let* data := js_member result "data" in
      let rows := lodash_concat rows data in
      let rowLength := lodash_size data in
      let* o := load params in
      store params (<["page" := js_add_one (obj_get o "page")]> o) ;;
      let* o' := load params in
      if js_strict_eq_num (Z.of_nat rowLength) (obj_get o' "per_page")
      then requestList_loop fuel' url params rows
      else ret rows
  end.

Definition requestList (fuel : nat) (url : string) (params : loc) : M (list json) :=
  requestList_loop fuel url params [].

Definition listRepos (fuel : nat) : M (list IRepoOutput) :=
  let* literal := alloc {[ "affiliation" := JStr "owner" ]} in
  let* p := lodash_defaults_at literal PARAMS in
  let* rows := requestList fuel "/user/repos" p in
  lodash_map (fun row =>
    let* id := js_member row "id" in
    let* name := js_member row "name" in
    let* html_url := js_member row "html_url" in
    ret {| repo_id := id; repo_name := name; repo_url := html_url; repo_source := row |})
    rows.

Definition listBranchs (fuel : nat) (params : loc) : M (list IBranchOutput) :=
  validateListBranchsParams params ;;
  let* o := load params in
  let owner := obj_get o "owner" in
  let repo := obj_get o "repo" in
  let* p := lodash_defaults_at params PARAMS in
  let* rows :=
    requestList fuel ("/repos/" +:+ js_ToString owner +:+ "/" +:+ js_ToString repo +:+ "/branches") p in
  lodash_map (fun row =>
    let* name := js_member row "name" in
    ret {| branch_name := name;
           branch_commit_sha := lodash_get row "commit.sha";
           branch_source := row |})
    rows.

Definition getRefCommit (params : loc) : M ICommitOutput :=
  validateGetRefCommitParams params ;;
  let* o := load params in
  let owner := obj_get o "owner" in
  let repo := obj_get o "repo" in
  let ref := obj_get o "ref" in
  if lodash_startsWith ref "refs/tags/" then
    let tag := lodash_replace ref "refs/tags/" "" in
    let* literal := alloc ∅ in
    let* result :=
      requestV5 ("/repos/" +:+ js_ToString owner +:+ "/" +:+ js_ToString repo
                 +:+ "/releases/tags/" +:+ tag) "GET" literal in
    let source := lodash_get_or result "data" (JObj ∅) in
    ret {| commit_sha := lodash_get source "target_commitish";
           commit_message := lodash_get source "tag_name";
           commit_source := source |}
  else
    let branch :=
      if lodash_startsWith ref "refs/heads/"
      then JStr (lodash_replace ref "refs/heads/" "")
      else ref in
    let* literal := alloc ∅ in
    let* result :=
      requestV5 ("/repos/" +:+ js_ToString owner +:+ "/" +:+ js_ToString repo
                 +:+ "/branches/" +:+ js_ToString branch) "GET" literal in
    let source := lodash_get_or result "data" (JObj ∅) in
    ret {| commit_sha := lodash_get source "commit.sha";
           commit_message := lodash_get source "commit.commit.message";
           commit_source := source |}.

Definition listWebhook (fuel : nat) (params : loc) : M (list IGetWebhookOutput) :=
  validateListWebhookParams params ;;
  let* o := load params in
  let owner := obj_get o "owner" in
  let repo := obj_get o "repo" in
  let* p := lodash_defaults_at params PARAMS in
  let* rows :=
    requestList fuel ("/repos/" +:+ js_ToString owner +:+ "/" +:+ js_ToString repo +:+ "/hooks") p in
  lodash_map (fun row =>
    ret {| webhook_id := lodash_get row "id";
           webhook_url := lodash_get row "url";
           webhook_source := row |})
    rows.

Definition createWebhook (params : loc) : M ICreateWebhookOutput :=
  validateCreateWebhookParams params ;;
  let* o := load params in
  let owner := obj_get o "owner" in
  let repo := obj_get o "repo" in
  let* result :=
    requestV5 ("/repos/" +:+ js_ToString owner +:+ "/" +:+ js_ToString repo +:+ "/hooks")
              "POST" params in
  let source := lodash_get_or result "data" (JObj ∅) in
  ret {| created_id := lodash_get source "id"; created_source := source |}.

Definition updateWebhook (params : loc) : M unit :=
  validateUpdateWebhookParams params ;;
  let* o := load params in
  let owner := obj_get o "owner" in
  let repo := obj_get o "repo" in
  let hook_id := obj_get o "hook_id" in
  let* p := alloc (lodash_omit o ["owner"; "repo"; "hook_id"]) in
  requestV5 ("/repos/" +:+ js_ToString owner +:+ "/" +:+ js_ToString repo
             +:+ "/hooks/" +:+ js_ToString hook_id) "PATCH" p ;;
  ret tt.

Definition getWebhook (params : loc) : M IGetWebhookOutput :=
  validateGetWebhookParams params ;;
  let* o := load params in
  let owner := obj_get o "owner" in
  let repo := obj_get o "repo" in
  let hook_id := obj_get o "hook_id" in
  let* result :=
    requestV5 ("/repos/" +:+ js_ToString owner +:+ "/" +:+ js_ToString repo
               +:+ "/hooks/" +:+ js_ToString hook_id) "GET" params in
  let source := lodash_get_or result "data" (JObj ∅) in
  ret {| webhook_id := lodash_get result "id";
         webhook_url := lodash_get result "url";
         webhook_source := source |}.

Definition deleteWebhook (params : loc) : M unit :=
  validateDeleteWebhookParams params ;;
  let* o := load params in
  let owner := obj_get o "owner" in
  let repo := obj_get o "repo" in
  let hook_id := obj_get o "hook_id" in
  let* literal := alloc ∅ in
  requestV5 ("/repos/" +:+ js_ToString owner +:+ "/" +:+ js_ToString repo
             +:+ "/hooks/" +:+ js_ToString hook_id) "DELETE" literal ;;
  ret tt.

End Client.

(** ** A paginated fetch in closed form *)

(** The source [requestV5] merges into the query parameters. *)
Definition token_source (this : Gitee) : gmap string json :=
  {[ "access_token" := access_token this ]}.

(** The query parameters [o] with [page] incremented [j] times from [pg]. *)
Definition at_page (o : gmap string json) (pg : json) (j : nat) : gmap string json :=
  <["page" := Nat.iter j js_add_one pg]> o.

Section Pages.

Variable backend : transport.
Variable path : string.

(** The [i]-th request of a fetch whose parameters, access token merged,
    are [o] with [page] at [pg] when it starts. *)
Definition page_request (o : gmap string json) (pg : json) (i : nat) : request :=
  {| method := "GET"; url := V5 +:+ path;
     params := at_page o pg i |}.

(** ... and the reply to it, [issued] requests having been made before the
    fetch. *)
Definition page_reply (issued : nat) (o : gmap string json) (pg : json) (i : nat) : reply :=
  backend (issued + i) (page_request o pg i).

Definition page_exchange (issued : nat) (o : gmap string json) (pg : json) (i : nat) : exchange :=
  (page_request o pg i, page_reply issued o pg i).

End Pages.

(** The body of a response, as [const { data } = result] reads it. *)
Definition reply_data (r : reply) : option json :=
  match r with
  | Resolve result => if is_nullish result then None else Some (js_index result "data")
  | Reject _ => None
  end.

(** The rows a reply adds to the accumulator. *)
Definition reply_rows (r : reply) : list json :=
  match reply_data r with
  | Some data => spread data
  | None => []
  end.

(** The loop goes on after a reply: its body has as many rows as asked. *)
Definition full_page (per_page : json) (r : reply) : bool :=
  match reply_data r with
  | Some data => js_strict_eq_num (Z.of_nat (lodash_size data)) per_page
  | None => false
  end.

(** The value of [page] in the query parameters of a request. *)
Definition requested_page (e : exchange) : json := obj_get (params (fst e)) "page".

Section Fetch.

Variable backend : transport.
Variable this : Gitee.
Variable path : string.
Variable p : loc.

(** The exchanges of the first [n] iterations and the rows they bring. *)
Definition fetched_log (issued : nat) (o : gmap string json) (pg : json) (n : nat)
  : list exchange :=
  List.map (page_exchange backend path issued o pg) (seq 0 n).

Definition fetched_rows (issued : nat) (o : gmap string json) (pg : json) (n : nat)
  : list json :=
  List.flat_map (fun i => reply_rows (page_reply backend path issued o pg i)) (seq 0 n).

(** How a fetch ends when iteration [n] is its last: it began in world [w]
    with accumulator [rows], parameters [o] (access token merged) and
    [page] at [pg]. *)
Definition fetch_outcome (rows : list json) (w : world) (o : gmap string json) (pg : json)
    (n : nat) : outcome (list json) :=
  let issued := List.length (log w) in
  let r := page_reply backend path issued o pg n in
  let exchanges := log w ++ fetched_log issued o pg (S n) in
  match reply_data r with
  | Some _ =>
      Ret (rows ++ fetched_rows issued o pg (S n))
          {| heap := <[p := at_page o pg (S n)]> (heap w);
             log := exchanges |}
  | None =>
      Throw match r with Reject reason => AxiosError reason | Resolve _ => TypeError end
            {| heap := <[p := at_page o pg n]> (heap w);
               log := exchanges |}
  end.

(** Iteration [n] is the first whose reply is not a full page. *)
Definition stops_at (issued : nat) (o : gmap string json) (pg : json) (n : nat) : Prop :=
  (forall i, (i < n)%nat ->
     full_page (obj_get o "per_page") (page_reply backend path issued o pg i) = true)
  /\ full_page (obj_get o "per_page") (page_reply backend path issued o pg n) = false.

(** The state of the loop when iteration [j] begins, for a fetch that
    began in world [w0] after [issued] requests with parameters [o1] (access
    token merged) and [page] at [pg]: the object behind [p] is [o], the log
    holds the first [j] exchanges. *)
Definition entering (issued : nat) (o1 : gmap string json) (pg : json)
    (w0 : world) (o : gmap string json) (j : nat) (w : world) : Prop :=
  heap w = <[p := o]> (heap w0)
  /\ lodash_defaults o (token_source this) = at_page o1 pg j
  /\ obj_get o "page" = Nat.iter j js_add_one pg
  /\ obj_get o "per_page" = obj_get o1 "per_page"
  /\ log w = log w0 ++ fetched_log issued o1 pg j
  /\ List.length (log w0) = issued.

End Fetch.

(** ** Backends *)

(** A response object as axios builds it around a body. *)
Definition response (data : json) : json :=
  JObj {[ "status" := JNum 200; "data" := data ]}.

(** A backend that answers its [i]-th request with the [i]-th page of a
    given sequence, whatever is asked. *)
Definition serve_pages (pages : nat -> list json) : transport :=
  fun i _ => Resolve (response (JArr (pages i))).

(** A backend holding [rows]: asked for page [k] (from 1) of [n] rows, it
    returns the rows from [(k - 1) * n] up to [k * n], as many as it has. *)
Definition serve_rows (rows : list json) : transport :=
  fun _ req =>
    match obj_get (params req) "page", obj_get (params req) "per_page" with
    | JNum k, JNum n =>
        Resolve (response (JArr (take (Z.to_nat n) (drop (Z.to_nat ((k - 1) * n)) rows))))
    | _, _ => Reject (JStr "Bad Request")
    end.

(** The body of the reply in an exchange is an empty array. *)
Definition empty_page (e : exchange) : Prop := reply_data (snd e) = Some (JArr []).

(** Sample data: rows, a client, a store with the caller's [params]. *)
Definition sample_row (i : nat) : json :=
  JObj {[ "name" := JStr ("b" +:+ pretty i);
          "commit" := JObj {[ "sha" := JStr ("c" +:+ pretty i) ]} ]}.

Definition sample_rows (n : nat) : list json := List.map sample_row (seq 0 n).

Definition sample_client : Gitee :=
  {| config := JObj {[ "access_token" := JStr "t0ken" ]}; access_token := JStr "t0ken" |}.

Definition sample_params : gmap string json :=
  {[ "owner" := JStr "octo"; "repo" := JStr "demo" ]}.

Definition sample_world (o : gmap string json) : world :=
  {| heap := {[ 1%positive := o ]}; log := [] |}.

(** The backend answers the [n + 1] requests that follow the first [issued]
    ones with the arrays [pages 0], ..., [pages n], whatever is asked. *)
Definition serves (backend : transport) (issued : nat) (pages : nat -> list json) (n : nat)
  : Prop :=
  forall i req, (i <= n)%nat -> reply_data (backend (issued + i) req) = Some (JArr (pages i)).

(** ** What a list operation leaves in the caller's object

    [o] is the object behind [p] before the call, [w] the world before and
    [w'] the world in which the call has ended, with a value or with an
    exception raised after the validation. At least one request was sent; the
    object is still behind [p]; the defaults it lacked have been written into
    it and the access token too, and that before the first request: every
    request of the call carried the object as it is now, [page] apart; when
    the caller gave no [page] the pages requested are 1, 2, ...; [page] is one
    more than in the last request when that request brought a response with a
    body, and as in the last request when it failed; no other key has
    changed. *)
Definition params_left_behind (this : Gitee) (p : loc) (o : gmap string json)
    (w w' : world) : Prop :=
  exists o' earlier last,
    heap w' !! p = Some o'
    /\ log w' = log w ++ earlier ++ [last]
    /\ (o !! "per_page" = None -> o' !! "per_page" = Some (JNum 100))
    /\ (o !! "sort" = None -> o' !! "sort" = Some (JStr "updated"))
    /\ (o !! "access_token" = None -> o' !! "access_token" = Some (access_token this))
    /\ (forall e k, In e (earlier ++ [last]) -> k <> "page" ->
          params (fst e) !! k = o' !! k)
    /\ (o !! "page" = None ->
        List.map requested_page (earlier ++ [last])
        = List.map (fun i => JNum (1 + Z.of_nat i))
            (seq 0 (List.length (earlier ++ [last]))))
    /\ o' !! "page" = Some match reply_data (snd last) with
                           | Some _ => js_add_one (requested_page last)
                           | None => requested_page last
                           end
    /\ (forall k, ~ In k ["per_page"; "page"; "sort"; "access_token"] -> o' !! k = o !! k).

(** ** One request

    How an operation ends that sends one request with query parameters [q]
    kept in the object behind [l], and builds its result from the response
    with [k]: [h] is the store when the request is sent. *)
Definition single_request {A} (backend : transport) (h : gmap loc (gmap string json))
    (w : world) (req : request) (k : json -> A) : outcome A :=
  let r := backend (List.length (log w)) req in
  let w' := {| heap := h; log := log w ++ [(req, r)] |} in
  match r with
  | Resolve result => Ret (k result) w'
  | Reject reason => Throw (AxiosError reason) w'
  end.

(** A backend that answers every request with the same body. *)
Definition serve_body (body : json) : transport := fun _ _ => Resolve (response body).

(** The body of a response, or [{}] when it has none: what the operations
    that send one request keep as [source]. *)
Definition body_or_empty (result : json) : json :=
  if is_undefined (js_index result "data") then JObj ∅ else js_index result "data".

Definition tag_params : gmap string json :=
  {[ "owner" := JStr "octo"; "repo" := JStr "demo"; "ref" := JStr "refs/tags/v1.0" ]}.

Definition tag_body : json :=
  JObj {[ "tag_name" := JStr "v1.0"; "target_commitish" := JStr "9fceb02" ]}.

Definition hook_params : gmap string json :=
  {[ "owner" := JStr "octo"; "repo" := JStr "demo"; "hook_id" := JNum 1202839 ]}.

Definition hook_body : json :=
  JObj {[ "id" := JNum 1202839; "url" := JStr "https://example.com/hook" ]}.

(** ** Validation failures *)

(** The object lacks one of the keys. *)
Definition lacks (o : gmap string json) (keys : list string) : Prop :=
  exists k, In k keys /\ o !! k = None.

(** What a caller gets from a call: an exception thrown at it while the call
    is made, or a promise, with the way the promise settles. *)
Inductive call (A : Type) : Type :=
| Threw (e : error) (w : world)
| Promise (settled : outcome A).

Arguments Threw {A} e w.
Arguments Promise {A} settled.

(** Every method of the client is declared [async]. A call of an [async]
    method returns a promise whatever its body does: an exception of the
    body, also one raised before its first [await], rejects the promise and
    is not thrown at the caller. *)
Definition async {A} (body : M A) (w : world) : call A := Promise (body w).

Definition throws_synchronously {A} (c : call A) : Prop := exists e w, c = Threw e w.

(** The call made in world [w] returned a promise that is rejected with a
    validation error, the world being as it was: nothing was sent and
    nothing was written. *)
Definition rejected {A} (c : world -> call A) (w : world) : Prop :=
  exists k, c w = Promise (Throw (ValidationError k) w).

(** The operation [op] is guarded by [validate]: whatever the validator
    throws, in whatever world, is what the promise of the call is rejected
    with, and the world is still the one of the call. *)
Definition guarded_by {A} (validate : loc -> M unit) (op : loc -> M A) : Prop :=
  forall p w e w', validate p w = Throw e w' ->
    w' = w /\ async (op p) w = Promise (Throw e w).

(** The value a computation returned, if it returned. *)
Definition returned {A} (c : outcome A) : option A :=
  match c with
  | Ret a _ => Some a
  | _ => None
  end.

(** ** The local git initialiser *)

(** [IInitConfig]: the identity and an optional directory. *)
Record IInitConfig : Type := {
  userName : string;
  userEmail : string;
  execDir : option string;
}.

(** What [initConfig] acts on: the directories that exist, those that hold a
    repository, and the local configuration of each repository. *)
Record disk : Type := {
  directories : gset string;
  repositories : gset string;
  gitconfig : gmap (string * string) string;
}.

(** [fs.ensureDirSync(dir)]: the directory exists afterwards. *)
Definition ensureDirSync (dir : string) (d : disk) : disk :=
  {| directories := {[ dir ]} ∪ directories d;
     repositories := repositories d;
     gitconfig := gitconfig d |}.

(** The keys [git init] writes into the local configuration of the
    repository it creates (on Linux, with the templates git ships). *)
Definition git_init_config : list (string * string) :=
  [("core.repositoryformatversion", "0"); ("core.filemode", "true");
   ("core.bare", "false"); ("core.logallrefupdates", "true")].

(** [simpleGit(dir).init()]: a directory that holds no repository gets one,
    with the configuration above; in a directory that holds one, [git init]
    does not overwrite what is there. *)
Definition git_init (dir : string) (d : disk) : disk :=
  {| directories := directories d;
     repositories := {[ dir ]} ∪ repositories d;
     gitconfig :=
       if decide (dir ∈ repositories d) then gitconfig d
       else foldr (fun kv => <[(dir, kv.1) := kv.2]>) (gitconfig d) git_init_config |}.

(** [simpleGit(dir).addConfig(key, value)]: sets the key in the local
    configuration of the repository in [dir]. *)
Definition git_addConfig (dir key value : string) (d : disk) : disk :=
  {| directories := directories d;
     repositories := repositories d;
     gitconfig := <[(dir, key) := value]> (gitconfig d) |}.

Section InitConfig.

(** [os.tmpdir()], [process.cwd()], [path.isAbsolute] and [path.join]. *)
Variable os_tmpdir : string.
Variable process_cwd : string.
Variable path_isAbsolute : string -> bool.
Variable path_join : string -> string -> string.

(** [config.execDir || os.tmpdir()]: an absent or empty [execDir] is falsy. *)
Definition execDir_or_tmpdir (config : IInitConfig) : string :=
  match execDir config with
  | Some dir => if String.eqb dir "" then os_tmpdir else dir
  | None => os_tmpdir
  end.

Definition initConfig (config : IInitConfig) (d : disk) : disk :=
  let execDir := execDir_or_tmpdir config in
  let configExecDir :=
    if path_isAbsolute execDir then execDir else path_join process_cwd execDir in
  let d := ensureDirSync configExecDir d in
  let d := git_init configExecDir d in
  let d := git_addConfig configExecDir "user.name" (userName config) d in
  git_addConfig configExecDir "user.email" (userEmail config) d.

End InitConfig.

(** POSIX [path.isAbsolute], and [path.join] on two segments that need no
    normalisation. *)
Definition posix_isAbsolute (s : string) : bool := String.prefix "/" s.

Definition posix_join (a b : string) : string := a +:+ "/" +:+ b.

(** ** Outcomes *)

(** The world a computation ends in, when it ends. *)
Definition final_world {A} (c : outcome A) : option world :=
  match c with
  | Ret _ w => Some w
  | Throw _ w => Some w
  | OutOfFuel => None
  end.

(** The exception a computation ends with, if it throws. *)
Definition thrown {A} (c : outcome A) : option error :=
  match c with
  | Throw e _ => Some e
  | _ => None
  end.

(** A call ended with the rejection [reason] of its [n + 1]-th request: that
    many requests were sent since [w], no value was returned, and the object
    behind [p] is left with [page] at the page whose request failed. *)
Definition aborted_at {A} (c : outcome A) (w : world) (p : loc) (reason : json) (n : nat)
  : Prop :=
  exists w' exchanges o',
    c = Throw (AxiosError reason) w'
    /\ log w' = log w ++ exchanges
    /\ List.length exchanges = S n
    /\ heap w' !! p = Some o'
    /\ o' !! "page" = Some (JNum (Z.of_nat n + 1)).

(** A backend that serves the first [n] pages of a sequence and rejects every
    later request with [reason]. *)
Definition failing_after (n : nat) (pages : nat -> list json) (reason : json) : transport :=
  fun i _ => if (i <? n)%nat then Resolve (response (JArr (pages i))) else Reject reason.

(** The body the branches endpoint returns for a branch: the head commit
    with its [sha] and, one level down, its [message]. *)
Definition branch_body (sha message : json) : gmap string json :=
  {[ "name" := JStr "main";
     "commit" := JObj {[ "sha" := sha;
                         "commit" := JObj {[ "message" := message ]} ]} ]}.

(** ** Facts about the lodash helpers *)

Lemma lookup_lodash_defaults (o src : gmap string json) (k : string) :
  lodash_defaults o src !! k = defaults_value (o !! k) (src !! k).
Proof.
  unfold lodash_defaults. rewrite lookup_merge.
  destruct (o !! k), (src !! k); reflexivity.
Qed.

Lemma lodash_defaults_idem (o src : gmap string json) :
  lodash_defaults (lodash_defaults o src) src = lodash_defaults o src.
Proof.
  apply map_eq; intros k. rewrite !lookup_lodash_defaults.
  destruct (o !! k) as [v|], (src !! k) as [s|]; simpl; try reflexivity.
  - destruct (is_undefined v) eqn:Hv; simpl; [|by rewrite Hv].
    by destruct (is_undefined s).
  - by destruct (is_undefined s).
Qed.

Lemma lodash_defaults_insert_ne (o src : gmap string json) (k : string) (v : json) :
  src !! k = None ->
  lodash_defaults (<[k := v]> o) src = <[k := v]> (lodash_defaults o src).
Proof.
  intros Hk. apply map_eq; intros j. rewrite lookup_lodash_defaults.
  destruct (decide (k = j)) as [->|Hne].
  - rewrite !lookup_insert_eq, Hk. reflexivity.
  - rewrite !lookup_insert_ne by done. by rewrite lookup_lodash_defaults.
Qed.

Lemma obj_get_defaults_other (o src : gmap string json) (k : string) :
  src !! k = None -> obj_get (lodash_defaults o src) k = obj_get o k.
Proof.
  intros Hk. unfold obj_get. rewrite lookup_lodash_defaults, Hk.
  by destruct (o !! k).
Qed.

Lemma obj_get_insert_eq (o : gmap string json) (k : string) (v : json) :
  obj_get (<[k := v]> o) k = v.
Proof. unfold obj_get. by rewrite lookup_insert_eq. Qed.

Lemma obj_get_insert_ne (o : gmap string json) (k j : string) (v : json) :
  k <> j -> obj_get (<[k := v]> o) j = obj_get o j.
Proof. intros. unfold obj_get. by rewrite lookup_insert_ne. Qed.

(** ** One iteration of the pagination loop *)

(** Reads of the store after writes to it. *)
Ltac run_store :=
  repeat (cbv beta iota; cbn [heap log]; try rewrite lookup_insert_eq).

Section LoopStep.

Variable backend : transport.
Variable this : Gitee.
Variable path : string.
Variable p : loc.

Lemma requestList_loop_step (fuel : nat) (rows : list json) (w : world)
    (o : gmap string json) :
  heap w !! p = Some o ->
  let o1 := lodash_defaults o (token_source this) in
  let req := {| method := "GET"; url := V5 +:+ path; params := o1 |} in
  let r := backend (List.length (log w)) req in
  requestList_loop backend this (S fuel) path p rows w =
    match reply_data r with
    | Some data =>
        let w' := {| heap := <[p := <["page" := js_add_one (obj_get o "page")]> o1]> (heap w);
                     log := log w ++ [(req, r)] |} in
        if js_strict_eq_num (Z.of_nat (lodash_size data)) (obj_get o "per_page")
        then requestList_loop backend this fuel path p (lodash_concat rows data) w'
        else Ret (lodash_concat rows data) w'
    | None =>
        let w' := {| heap := <[p := o1]> (heap w); log := log w ++ [(req, r)] |} in
        Throw match r with Reject reason => AxiosError reason | Resolve _ => TypeError end w'
    end.
Proof.
  intros Hp o1 req r.
  cbn [requestList_loop].
  unfold requestV5, lodash_defaults_at, bind, load, store, ret, axios.
  cbn [heap log]. rewrite Hp. run_store.
  fold (token_source this). fold o1. fold req.
  subst r. destruct (backend (List.length (log w)) req) as [result|reason];
    cbn [reply_data]; [|reflexivity].
  unfold js_member, throw, ret. destruct (is_nullish result); [reflexivity|].
  run_store. rewrite insert_insert_eq.
  rewrite obj_get_insert_ne by done.
  subst o1. rewrite !obj_get_defaults_other by reflexivity.
  by destruct (js_strict_eq_num _ _).
Qed.

End LoopStep.

(** ** The pagination loop, iterated *)

Lemma seq_snoc (start len : nat) : seq start (S len) = seq start len ++ [(start + len)%nat].
Proof. by rewrite seq_S. Qed.

Section LoopRun.

Variable backend : transport.
Variable this : Gitee.
Variable path : string.
Variable p : loc.

(** The parameters at the first request, the value of [page] they start at, and the
    number of requests issued before. *)
Variable o1 : gmap string json.
Variable pg : json.
Variable issued : nat.
Hypothesis merged : lodash_defaults o1 (token_source this) = o1.

Lemma at_page_merged (j : nat) :
  lodash_defaults (at_page o1 pg j) (token_source this) = at_page o1 pg j.
Proof. unfold at_page. rewrite lodash_defaults_insert_ne by reflexivity. by rewrite merged. Qed.

Lemma entering_length w0 o j w :
  entering backend this path p issued o1 pg w0 o j w -> List.length (log w) = (issued + j)%nat.
Proof.
  intros (_ & _ & _ & _ & Hlog & Hlen). rewrite Hlog, length_app. unfold fetched_log.
  rewrite length_map, length_seq. lia.
Qed.

(** One iteration from such a state. *)
Lemma requestList_loop_at (fuel : nat) (rows0 : list json) (w0 w : world)
    (o : gmap string json) (j : nat) :
  entering backend this path p issued o1 pg w0 o j w ->
  let r := page_reply backend path issued o1 pg j in
  let rows := rows0 ++ fetched_rows backend path issued o1 pg j in
  requestList_loop backend this (S fuel) path p rows w =
    if full_page (obj_get o1 "per_page") r
    then requestList_loop backend this fuel path p
           (rows0 ++ fetched_rows backend path issued o1 pg (S j))
           {| heap := <[p := at_page o1 pg (S j)]> (heap w0);
              log := log w0 ++ fetched_log backend path issued o1 pg (S j) |}
    else
      match reply_data r with
      | Some _ =>
          Ret (rows0 ++ fetched_rows backend path issued o1 pg (S j))
              {| heap := <[p := at_page o1 pg (S j)]> (heap w0);
                 log := log w0 ++ fetched_log backend path issued o1 pg (S j) |}
      | None =>
          Throw match r with Reject reason => AxiosError reason | Resolve _ => TypeError end
                {| heap := <[p := at_page o1 pg j]> (heap w0);
                   log := log w0 ++ fetched_log backend path issued o1 pg (S j) |}
      end.
Proof.
  intros Hent r rows.
  pose proof (entering_length _ _ _ _ Hent) as Hlen.
  destruct Hent as (Hheap & Hmerge & Hpage & Hper & Hlog & Hlen0).
  assert (Hp : heap w !! p = Some o) by (rewrite Hheap; apply lookup_insert_eq).
  rewrite (requestList_loop_step backend this path p fuel rows w o Hp).
  cbv zeta. rewrite Hmerge, Hlen, Hpage, Hper, Hheap, Hlog, !insert_insert_eq.
  change {| method := "GET"; url := V5 +:+ path; params := at_page o1 pg j |}
    with (page_request path o1 pg j).
  change (backend (issued + j) (page_request path o1 pg j))
    with (page_reply backend path issued o1 pg j).
  fold r.
  assert (Hlog' : (log w0 ++ fetched_log backend path issued o1 pg j)
                    ++ [(page_request path o1 pg j, r)]
                  = log w0 ++ fetched_log backend path issued o1 pg (S j)).
  { unfold fetched_log. rewrite seq_snoc, map_app, app_assoc. reflexivity. }
  rewrite Hlog'.
  assert (Hnext : <["page" := js_add_one (Nat.iter j js_add_one pg)]> (at_page o1 pg j)
                  = at_page o1 pg (S j)).
  { unfold at_page. by rewrite insert_insert_eq. }
  unfold full_page. destruct (reply_data r) as [data|] eqn:Hdata; [|reflexivity].
  assert (Hrows : lodash_concat rows data
                  = rows0 ++ fetched_rows backend path issued o1 pg (S j)).
  { unfold lodash_concat, rows, fetched_rows.
    rewrite seq_snoc, flat_map_app, <- app_assoc. cbn [List.flat_map].
    rewrite app_nil_r. change (0 + j)%nat with j. fold r.
    unfold reply_rows. by rewrite Hdata. }
  rewrite Hrows, Hnext. reflexivity.
Qed.

Lemma entering_next (w0 : world) (j : nat) :
  List.length (log w0) = issued ->
  entering backend this path p issued o1 pg w0 (at_page o1 pg (S j)) (S j)
    {| heap := <[p := at_page o1 pg (S j)]> (heap w0);
       log := log w0 ++ fetched_log backend path issued o1 pg (S j) |}.
Proof.
  intros Hlen. repeat split; try done.
  - apply at_page_merged.
  - apply obj_get_insert_eq.
  - by apply obj_get_insert_ne.
Qed.

(** The loop runs up to the first reply that is not a full page. *)
Lemma requestList_loop_from (n j fuel : nat) (rows0 : list json) (w0 w : world)
    (o : gmap string json) :
  entering backend this path p issued o1 pg w0 o j w ->
  (forall i, (j <= i < j + n)%nat ->
     full_page (obj_get o1 "per_page") (page_reply backend path issued o1 pg i) = true) ->
  full_page (obj_get o1 "per_page") (page_reply backend path issued o1 pg (j + n)) = false ->
  (n < fuel)%nat ->
  requestList_loop backend this fuel path p
    (rows0 ++ fetched_rows backend path issued o1 pg j) w
  = fetch_outcome backend path p rows0 w0 o1 pg (j + n).
Proof.
  revert j fuel w o. induction n as [|n IH]; intros j fuel w o Hent Hfull Hlast Hfuel;
    (destruct fuel as [|fuel]; [lia|]);
    rewrite (requestList_loop_at fuel rows0 w0 w o j Hent); cbv zeta.
  - rewrite Nat.add_0_r in Hlast. rewrite Hlast, Nat.add_0_r.
    destruct Hent as (_ & _ & _ & _ & _ & Hlen). unfold fetch_outcome. rewrite Hlen.
    reflexivity.
  - rewrite Hfull by lia.
    replace (j + S n)%nat with (S j + n)%nat by lia.
    apply (IH (S j) fuel _ (at_page o1 pg (S j))).
    + apply entering_next. by destruct Hent as (_ & _ & _ & _ & _ & Hlen).
    + intros i Hi. apply Hfull. lia.
    + by replace (S j + n)%nat with (j + S n)%nat by lia.
    + lia.
Qed.

(** Conversely, a loop that ends within its fuel met such a reply. *)
Lemma requestList_loop_ends (fuel j : nat) (rows0 : list json) (w0 w : world)
    (o : gmap string json) :
  entering backend this path p issued o1 pg w0 o j w ->
  requestList_loop backend this fuel path p
    (rows0 ++ fetched_rows backend path issued o1 pg j) w <> OutOfFuel ->
  exists n, (n < fuel)%nat
    /\ (forall i, (j <= i < j + n)%nat ->
          full_page (obj_get o1 "per_page") (page_reply backend path issued o1 pg i) = true)
    /\ full_page (obj_get o1 "per_page") (page_reply backend path issued o1 pg (j + n)) = false.
Proof.
  revert j w o. induction fuel as [|fuel IH]; intros j w o Hent Hend; [done|].
  rewrite (requestList_loop_at fuel rows0 w0 w o j Hent) in Hend. cbv zeta in Hend.
  destruct (full_page _ (page_reply backend path issued o1 pg j)) eqn:Hj.
  - apply (IH (S j) _ (at_page o1 pg (S j))) in Hend as (n & Hn & Hfull & Hlast).
    + exists (S n). split; [lia|]. split.
      * intros i Hi. destruct (decide (i = j)) as [->|]; [done|]. apply Hfull. lia.
      * by replace (j + S n)%nat with (S j + n)%nat by lia.
    + apply entering_next. by destruct Hent as (_ & _ & _ & _ & _ & Hlen).
  - exists 0%nat. split; [lia|]. split; [intros; lia|]. by rewrite Nat.add_0_r.
Qed.

End LoopRun.

Section Fetched.

Variable backend : transport.
Variable this : Gitee.
Variable path : string.
Variable p : loc.

Lemma entering_start (w : world) (o : gmap string json) (pg : json) :
  heap w !! p = Some o ->
  o !! "page" = Some pg ->
  entering backend this path p (List.length (log w))
    (lodash_defaults o (token_source this)) pg w o 0 w.
Proof.
  intros Hp Hpage. unfold entering, at_page, fetched_log. cbn [seq List.map].
  rewrite app_nil_r. cbn [Nat.iter]. repeat split.
  - by rewrite insert_id.
  - rewrite insert_id; [done|]. rewrite lookup_lodash_defaults, Hpage. reflexivity.
  - unfold obj_get. by rewrite Hpage.
  - by rewrite obj_get_defaults_other.
Qed.

(** A fetch whose first reply that is not a full page is the one of
    iteration [n] ends there, whatever fuel above [n] it is given. *)
Lemma requestList_loop_total (fuel n : nat) (rows : list json) (w : world)
    (o : gmap string json) (pg : json) :
  heap w !! p = Some o ->
  o !! "page" = Some pg ->
  stops_at backend path (List.length (log w)) (lodash_defaults o (token_source this)) pg n ->
  (n < fuel)%nat ->
  requestList_loop backend this fuel path p rows w
  = fetch_outcome backend path p rows w (lodash_defaults o (token_source this)) pg n.
Proof.
  intros Hp Hpage [Hfull Hlast] Hfuel.
  pose proof (requestList_loop_from backend this path p
                (lodash_defaults o (token_source this)) pg (List.length (log w))
                (lodash_defaults_idem _ _) n 0 fuel rows w w o
                (entering_start w o pg Hp Hpage)) as H.
  cbn [fetched_rows seq List.flat_map Nat.add] in H. rewrite app_nil_r in H.
  apply H; [intros i Hi; apply Hfull; lia|done|done].
Qed.

(** A fetch that ends within its fuel ends as [fetch_outcome] says. *)
Lemma requestList_loop_partial (fuel : nat) (rows : list json) (w : world)
    (o : gmap string json) (pg : json) :
  heap w !! p = Some o ->
  o !! "page" = Some pg ->
  requestList_loop backend this fuel path p rows w <> OutOfFuel ->
  exists n, (n < fuel)%nat
    /\ stops_at backend path (List.length (log w)) (lodash_defaults o (token_source this)) pg n
    /\ requestList_loop backend this fuel path p rows w
       = fetch_outcome backend path p rows w (lodash_defaults o (token_source this)) pg n.
Proof.
  intros Hp Hpage Hend.
  pose proof (requestList_loop_ends backend this path p
                (lodash_defaults o (token_source this)) pg (List.length (log w))
                (lodash_defaults_idem _ _) fuel 0 rows w w o
                (entering_start w o pg Hp Hpage)) as H.
  cbn [fetched_rows seq List.flat_map Nat.add] in H. rewrite app_nil_r in H.
  destruct (H Hend) as (n & Hn & Hfull & Hlast).
  assert (Hstop : stops_at backend path (List.length (log w))
                    (lodash_defaults o (token_source this)) pg n).
  { split; [intros i Hi; apply Hfull; lia|done]. }
  exists n. split; [done|]. split; [done|].
  by apply requestList_loop_total.
Qed.

End Fetched.

(** ** Termination of the paginated fetch *)

Lemma all_true_or_first_false (f : nat -> bool) (n : nat) :
  (forall i, (i < n)%nat -> f i = true)
  \/ exists m, (m < n)%nat /\ (forall i, (i < m)%nat -> f i = true) /\ f m = false.
Proof.
  induction n as [|n [Hall|(m & Hm & Hbefore & Hfm)]].
  - left. intros i Hi. lia.
  - destruct (f n) eqn:Hn.
    + left. intros i Hi. destruct (decide (i = n)) as [->|]; [done|]. apply Hall. lia.
    + right. exists n. split; [lia|done].
  - right. exists m. split; [lia|done].
Qed.

Lemma first_false (f : nat -> bool) (n : nat) :
  f n = false ->
  exists m, (m <= n)%nat /\ (forall i, (i < m)%nat -> f i = true) /\ f m = false.
Proof.
  intros Hn. destruct (all_true_or_first_false f n) as [Hall|(m & Hm & Hrest)].
  - exists n. split; [lia|done].
  - exists m. split; [lia|done].
Qed.

Lemma fetch_outcome_not_cut backend path p rows w o pg n :
  fetch_outcome backend path p rows w o pg n <> OutOfFuel.
Proof. unfold fetch_outcome. by destruct (reply_data _). Qed.

Lemma short_not_full (r : reply) (data : json) (per_page : Z) :
  reply_data r = Some data ->
  (Z.of_nat (lodash_size data) < per_page)%Z ->
  full_page (JNum per_page) r = false.
Proof.
  intros Hdata Hlt. unfold full_page. rewrite Hdata. cbn [js_strict_eq_num].
  apply Z.eqb_neq. lia.
Qed.

(** C8. The pagination loop of [requestList] terminates whenever some reply
    of the backend's sequence carries fewer rows than [per_page] (100): there
    is a number of iterations within which the loop ends, with a value or an
    exception, and allowing more iterations does not change how it ends, so
    the outcome is a function of the replies. *)
Theorem requestList_terminates (backend : transport) (this : Gitee) (path : string)
    (p : loc) (w : world) (o : gmap string json) (pg : json) (n : nat) (data : json) :
  heap w !! p = Some o ->
  o !! "per_page" = Some (JNum 100) ->
  o !! "page" = Some pg ->
  reply_data (page_reply backend path (List.length (log w))
                (lodash_defaults o (token_source this)) pg n) = Some data ->
  (lodash_size data < 100)%nat ->
  exists fuel,
    requestList backend this fuel path p w <> OutOfFuel
    /\ forall fuel', (fuel <= fuel')%nat ->
         requestList backend this fuel' path p w = requestList backend this fuel path p w.
Proof.
  intros Hp Hper Hpage Hdata Hshort.
  set (o1 := lodash_defaults o (token_source this)) in *.
  assert (Hper1 : obj_get o1 "per_page" = JNum 100).
  { unfold o1. rewrite obj_get_defaults_other by reflexivity. unfold obj_get. by rewrite Hper. }
  destruct (first_false
              (fun i => full_page (JNum 100) (page_reply backend path (List.length (log w)) o1 pg i))
              n) as (m & Hm & Hbefore & Hlast).
  { eapply short_not_full; [done|lia]. }
  assert (Hstop : stops_at backend path (List.length (log w)) o1 pg m).
  { unfold stops_at. rewrite Hper1. done. }
  exists (S m). unfold requestList. split.
  - rewrite (requestList_loop_total backend this path p (S m) m [] w o pg) by (done || lia).
    apply fetch_outcome_not_cut.
  - intros fuel' Hfuel'.
    rewrite (requestList_loop_total backend this path p fuel' m [] w o pg) by (done || lia).
    by rewrite (requestList_loop_total backend this path p (S m) m [] w o pg) by (done || lia).
Qed.

Lemma requestList_terminates_witness :
  exists fuel,
    requestList (serve_pages (fun i => sample_rows (if (i <? 1)%nat then 100 else 3)))
                sample_client fuel "/user/repos" 1%positive (sample_world PARAMS) <> OutOfFuel
    /\ forall fuel', (fuel <= fuel')%nat ->
         requestList (serve_pages (fun i => sample_rows (if (i <? 1)%nat then 100 else 3)))
                     sample_client fuel' "/user/repos" 1%positive (sample_world PARAMS)
         = requestList (serve_pages (fun i => sample_rows (if (i <? 1)%nat then 100 else 3)))
                       sample_client fuel "/user/repos" 1%positive (sample_world PARAMS).
Proof.
  apply (requestList_terminates _ sample_client "/user/repos" 1%positive
           (sample_world PARAMS) PARAMS (JNum 1) 1 (JArr (sample_rows 3)));
    [reflexivity | reflexivity | reflexivity | reflexivity | vm_compute; lia].
Defined.

(** ** Counting the requests of a fetch over a backend that holds the rows *)

Lemma iter_add_one_num (k : Z) (j : nat) :
  Nat.iter j js_add_one (JNum k) = JNum (k + Z.of_nat j).
Proof.
  induction j as [|j IH].
  - cbn [Nat.iter nat_rect]. f_equal. lia.
  - change (Nat.iter (S j) js_add_one (JNum k))
      with (js_add_one (Nat.iter j js_add_one (JNum k))).
    rewrite IH. cbn [js_add_one]. f_equal. lia.
Qed.

Lemma reply_data_response (data : json) : reply_data (Resolve (response data)) = Some data.
Proof. reflexivity. Qed.

Lemma serve_rows_reply (rows : list json) (path : string) (issued : nat)
    (o : gmap string json) (i : nat) :
  obj_get o "per_page" = JNum 100 ->
  page_reply (serve_rows rows) path issued o (JNum 1) i
  = Resolve (response (JArr (take 100 (drop (100 * i) rows)))).
Proof.
  intros Hper. unfold page_reply, serve_rows, page_request, at_page. cbn [params].
  rewrite obj_get_insert_eq, obj_get_insert_ne, Hper, iter_add_one_num by done.
  do 5 f_equal. lia.
Qed.

Lemma flat_map_pages {A} (size : nat) (l : list A) (m : nat) :
  List.flat_map (fun i => take size (drop (size * i) l)) (seq 0 m) = take (size * m) l.
Proof.
  induction m as [|m IH].
  - by rewrite Nat.mul_0_r.
  - rewrite seq_snoc, flat_map_app, IH. cbn [List.flat_map Nat.add]. rewrite app_nil_r.
    rewrite take_take_drop. f_equal. lia.
Qed.

Lemma serve_rows_stops (rows : list json) (path : string) (issued : nat)
    (o : gmap string json) :
  obj_get o "per_page" = JNum 100 ->
  stops_at (serve_rows rows) path issued o (JNum 1) (List.length rows / 100).
Proof.
  intros Hper. unfold stops_at. rewrite Hper.
  pose proof (Nat.div_mod_eq (List.length rows) 100) as Hdiv.
  pose proof (Nat.mod_upper_bound (List.length rows) 100) as Hmod.
  split; [intros i Hi|]; rewrite serve_rows_reply by done;
    unfold full_page; rewrite reply_data_response;
    cbn [lodash_size js_strict_eq_num]; rewrite length_take, length_drop.
  - apply Z.eqb_eq. lia.
  - apply Z.eqb_neq. lia.
Qed.

Lemma serve_rows_fetched_rows (rows : list json) (path : string) (issued : nat)
    (o : gmap string json) (m : nat) :
  obj_get o "per_page" = JNum 100 ->
  fetched_rows (serve_rows rows) path issued o (JNum 1) m = take (100 * m) rows.
Proof.
  intros Hper. unfold fetched_rows. rewrite <- flat_map_pages.
  apply flat_map_ext. intros i. by rewrite serve_rows_reply.
Qed.

Lemma ceil_div_100 (total : nat) :
  (total mod 100 <> 0 -> (total + 99) / 100 = total / 100 + 1)%nat.
Proof.
  intros Hmod.
  pose proof (Nat.div_mod_eq total 100) as Hdiv.
  pose proof (Nat.mod_upper_bound total 100) as Hlt.
  symmetry. apply (Nat.div_unique _ 100 _ (total mod 100 - 1)); lia.
Qed.

(** C1. A paginated fetch with page size 100, starting at page 1, over a
    backend that holds [total] rows: the fetch returns (all the rows), and the
    number of requests it issues is [ceil (total / 100)] when [total] is not a
    multiple of 100, and [total / 100 + 1] when it is (also for [total = 0]),
    the last reply being an empty page in that case. *)
Theorem requestList_request_count (rows : list json) (this : Gitee) (path : string)
    (p : loc) (w : world) (o : gmap string json) :
  heap w !! p = Some o ->
  o !! "per_page" = Some (JNum 100) ->
  o !! "page" = Some (JNum 1) ->
  let total := List.length rows in
  exists fuel out w' exchanges,
    (forall fuel', (fuel <= fuel')%nat ->
       requestList (serve_rows rows) this fuel' path p w = Ret out w')
    /\ out = rows
    /\ log w' = log w ++ exchanges
    /\ (total mod 100 <> 0 -> List.length exchanges = (total + 99) / 100)%nat
    /\ (total mod 100 = 0 ->
        List.length exchanges = total / 100 + 1
        /\ exists earlier e, exchanges = earlier ++ [e] /\ empty_page e)%nat.
Proof.
  intros Hp Hper Hpage total.
  set (o1 := lodash_defaults o (token_source this)).
  assert (Hper1 : obj_get o1 "per_page" = JNum 100).
  { unfold o1. rewrite obj_get_defaults_other by reflexivity. unfold obj_get. by rewrite Hper. }
  set (n := (total / 100)%nat).
  pose proof (Nat.div_mod_eq total 100) as Hdiv.
  pose proof (Nat.mod_upper_bound total 100) as Hmod.
  exists (S n), rows,
    {| heap := <[p := at_page o1 (JNum 1) (S n)]> (heap w);
       log := log w ++ fetched_log (serve_rows rows) path (List.length (log w)) o1 (JNum 1) (S n) |},
    (fetched_log (serve_rows rows) path (List.length (log w)) o1 (JNum 1) (S n)).
  split; [|split; [done|split; [done|split]]].
  - intros fuel' Hfuel'. unfold requestList.
    rewrite (requestList_loop_total (serve_rows rows) this path p fuel' n [] w o (JNum 1))
      by (done || lia || by apply serve_rows_stops).
    unfold fetch_outcome. fold o1. rewrite serve_rows_reply, reply_data_response by done.
    rewrite serve_rows_fetched_rows by done. cbn [app].
    rewrite take_ge by (fold total; lia). reflexivity.
  - intros Hne. unfold fetched_log. rewrite length_map, length_seq.
    rewrite ceil_div_100 by done. unfold n. lia.
  - intros Hzero. unfold fetched_log. rewrite length_map, length_seq.
    split; [lia|].
    exists (fetched_log (serve_rows rows) path (List.length (log w)) o1 (JNum 1) n),
      (page_exchange (serve_rows rows) path (List.length (log w)) o1 (JNum 1) n).
    rewrite seq_snoc, map_app. split; [done|].
    unfold empty_page, page_exchange. cbn [snd].
    rewrite serve_rows_reply, reply_data_response by done.
    rewrite drop_ge by (fold total; lia). reflexivity.
Qed.

Lemma requestList_request_count_witness :
  let rows := sample_rows 250 in
  let w := sample_world PARAMS in
  exists fuel out w' exchanges,
    (forall fuel', (fuel <= fuel')%nat ->
       requestList (serve_rows rows) sample_client fuel' "/user/repos" 1%positive w = Ret out w')
    /\ out = rows
    /\ log w' = log w ++ exchanges
    /\ (List.length rows mod 100 <> 0 ->
        List.length exchanges = (List.length rows + 99) / 100)%nat
    /\ (List.length rows mod 100 = 0 ->
        List.length exchanges = List.length rows / 100 + 1
        /\ exists earlier e, exchanges = earlier ++ [e] /\ empty_page e)%nat.
Proof.
  intros rows w.
  apply (requestList_request_count rows sample_client "/user/repos" 1%positive w PARAMS);
    reflexivity.
Defined.

(** ** Validation and the steps before a fetch *)

Lemma validate_required_ok (required : list string) (p : loc) (w : world)
    (o : gmap string json) :
  heap w !! p = Some o ->
  Forall (fun k => is_Some (o !! k)) required ->
  validate_required required p w = Ret tt w.
Proof.
  intros Hp Hall. unfold validate_required, bind, load. rewrite Hp.
  induction Hall as [|k ks Hk _ IH]; [reflexivity|].
  cbn [List.find]. by rewrite bool_decide_eq_true_2.
Qed.

Lemma validate_required_missing (required : list string) (p : loc) (w : world)
    (o : gmap string json) (k : string) :
  heap w !! p = Some o ->
  In k required ->
  o !! k = None ->
  exists k', In k' required /\ o !! k' = None
    /\ validate_required required p w = Throw (ValidationError k') w.
Proof.
  intros Hp Hin Hk. unfold validate_required, bind, load. rewrite Hp.
  induction required as [|r rs IH]; [done|].
  cbn [List.find]. destruct (o !! r) as [v|] eqn:Hr.
  - rewrite bool_decide_eq_true_2 by eauto. cbn [negb].
    destruct Hin as [->|Hin]; [congruence|].
    destruct (IH Hin) as (k' & Hk' & Hnone & Hrun). exists k'. split; [by right|done].
  - rewrite bool_decide_eq_false_2 by (intros [? ?]; congruence). cbn [negb].
    exists r. split; [by left|done].
Qed.

(** A validation that returns changed nothing and found every key. *)
Lemma validate_required_ret (required : list string) (p : loc) (w w' : world) (u : unit) :
  validate_required required p w = Ret u w' ->
  w' = w /\ exists o, heap w !! p = Some o /\ Forall (fun k => is_Some (o !! k)) required.
Proof.
  unfold validate_required, bind, load. destruct (heap w !! p) as [o|] eqn:Hp; [|done].
  destruct (List.find _ required) as [k|] eqn:Hfind; [done|].
  unfold ret. intros [= <-]. split; [done|]. exists o. split; [done|].
  apply Forall_forall. intros k Hk%list_elem_of_In.
  pose proof (find_none _ _ Hfind k Hk) as Hnone. cbn beta in Hnone.
  apply negb_false_iff, bool_decide_eq_true in Hnone. done.
Qed.

(** [_.map] with a callback that only reads. *)
Lemma lodash_map_pure {A} (f : json -> M A) (g : json -> A) (rows : list json) (w : world) :
  Forall (fun row => f row w = Ret (g row) w) rows ->
  lodash_map f rows w = Ret (List.map g rows) w.
Proof.
  induction 1 as [|row rows Hrow _ IH]; [reflexivity|].
  cbn [lodash_map List.map]. unfold bind. rewrite Hrow. fold (@lodash_map A).
  by rewrite IH.
Qed.

Lemma lodash_map_ret {A} (f : json -> M A) (g : json -> A) (rows : list json)
    (w w' : world) (out : list A) :
  (forall row w0 x w1, f row w0 = Ret x w1 -> x = g row /\ w1 = w0) ->
  lodash_map f rows w = Ret out w' ->
  out = List.map g rows /\ w' = w.
Proof.
  intros Hf. revert out w'. induction rows as [|row rows IH]; intros out w'.
  - cbn. unfold ret. by intros [= <- <-].
  - cbn [lodash_map List.map]. unfold bind at 1.
    destruct (f row w) as [x w1| |] eqn:Hrow; [|done..].
    destruct (Hf _ _ _ _ Hrow) as [-> ->]. unfold bind.
    destruct (lodash_map f rows w) as [xs w2| |] eqn:Hrest; [|done..].
    destruct (IH xs w2 eq_refl) as [-> ->]. unfold ret. by intros [= <- <-].
Qed.

(** ** The list operations

    [listBranchs] and [listWebhook] have one shape: validate, read [owner]
    and [repo], merge [PARAMS] into the caller's object, fetch, map. *)

Section ListOperation.

Variable backend : transport.
Variable this : Gitee.
Context {A : Type}.
Variable required : list string.
Variable path_of : gmap string json -> string.
Variable f : json -> M A.
Variable g : json -> A.
Variable p : loc.

Local Abbreviation operation fuel :=
  (validate_required required p ;;
   let* o := load p in
   let* q := lodash_defaults_at p PARAMS in
   let* rows := requestList backend this fuel (path_of o) q in
   lodash_map f rows).

(** The world in which the fetch starts. *)
Local Abbreviation merged_world w o :=
  {| heap := <[p := lodash_defaults o PARAMS]> (heap w); log := log w |}.

Lemma list_operation_valid (fuel : nat) (w : world) (o : gmap string json) :
  heap w !! p = Some o ->
  Forall (fun k => is_Some (o !! k)) required ->
  operation fuel w
  = (let* rows := requestList backend this fuel (path_of o) p in lodash_map f rows)
      (merged_world w o).
Proof.
  intros Hp Hall. unfold bind at 1. rewrite (validate_required_ok _ _ _ o) by done.
  unfold bind at 1, load at 1. rewrite Hp.
  unfold bind at 1, lodash_defaults_at, bind, load, store, ret. rewrite Hp.
  reflexivity.
Qed.

Lemma lookup_defaults_PARAMS_page (o : gmap string json) :
  exists pg, lodash_defaults o PARAMS !! "page" = Some pg
    /\ (o !! "page" = None -> pg = JNum 1).
Proof.
  rewrite lookup_lodash_defaults. change (PARAMS !! "page") with (Some (JNum 1)).
  destruct (o !! "page") as [v|]; cbn [defaults_value].
  - destruct (is_undefined v); eexists; (split; [reflexivity|done]).
  - eauto.
Qed.

Hypothesis f_reads :
  forall row w0 x w1, f row w0 = Ret x w1 -> x = g row /\ w1 = w0.

(** An operation that returns has fetched up to the first reply that is
    not a full page and mapped the rows. *)
Lemma list_operation_ret (fuel : nat) (w w' : world) (out : list A) :
  operation fuel w = Ret out w' ->
  exists o pg n,
    heap w !! p = Some o
    /\ Forall (fun k => is_Some (o !! k)) required
    /\ lodash_defaults o PARAMS !! "page" = Some pg
    /\ (n < fuel)%nat
    /\ let o1 := lodash_defaults (lodash_defaults o PARAMS) (token_source this) in
       let issued := List.length (log w) in
       stops_at backend (path_of o) issued o1 pg n
       /\ out = List.map g (fetched_rows backend (path_of o) issued o1 pg (S n))
       /\ w' = {| heap := <[p := at_page o1 pg (S n)]> (heap w);
                  log := log w ++ fetched_log backend (path_of o) issued o1 pg (S n) |}.
Proof.
  intros Hrun.
  assert (exists o, heap w !! p = Some o /\ Forall (fun k => is_Some (o !! k)) required)
    as (o & Hp & Hall).
  { unfold bind at 1 in Hrun.
    destruct (validate_required required p w) as [u w1| |] eqn:Hval; [|done..].
    by destruct (validate_required_ret _ _ _ _ _ Hval) as [_ ?]. }
  rewrite (list_operation_valid fuel w o Hp Hall) in Hrun.
  destruct (lookup_defaults_PARAMS_page o) as (pg & Hpage & _).
  unfold bind in Hrun.
  destruct (requestList backend this fuel (path_of o) p (merged_world w o))
    as [rows w1| |] eqn:Hfetch; [|done..].
  destruct (lodash_map_ret f g rows w1 w' out f_reads Hrun) as [-> ->].
  unfold requestList in Hfetch.
  destruct (requestList_loop_partial backend this (path_of o) p fuel [] (merged_world w o)
              (lodash_defaults o PARAMS) pg) as (n & Hn & Hstop & Hout).
  { cbn [heap]. apply lookup_insert_eq. }
  { done. }
  { by rewrite Hfetch. }
  rewrite Hfetch in Hout. unfold fetch_outcome in Hout. cbn [heap log] in Hout.
  destruct (reply_data _) in Hout; [|done].
  injection Hout as -> ->. rewrite insert_insert_eq.
  exists o, pg, n. do 4 (split; [done|]). cbv zeta. split; [done|]. by split.
Qed.

(** An operation on valid parameters, over a backend whose first reply that
    is not a full page comes at iteration [n] and has a body, returns. *)
Lemma list_operation_total (fuel n : nat) (w : world) (o : gmap string json) (pg : json) :
  heap w !! p = Some o ->
  Forall (fun k => is_Some (o !! k)) required ->
  lodash_defaults o PARAMS !! "page" = Some pg ->
  let o1 := lodash_defaults (lodash_defaults o PARAMS) (token_source this) in
  let issued := List.length (log w) in
  stops_at backend (path_of o) issued o1 pg n ->
  is_Some (reply_data (page_reply backend (path_of o) issued o1 pg n)) ->
  (n < fuel)%nat ->
  let rows := fetched_rows backend (path_of o) issued o1 pg (S n) in
  let w' := {| heap := <[p := at_page o1 pg (S n)]> (heap w);
               log := log w ++ fetched_log backend (path_of o) issued o1 pg (S n) |} in
  Forall (fun row => f row w' = Ret (g row) w') rows ->
  operation fuel w = Ret (List.map g rows) w'.
Proof.
  intros Hp Hall Hpage o1 issued Hstop [data Hdata] Hfuel rows w' Hrows.
  rewrite (list_operation_valid fuel w o Hp Hall). unfold bind, requestList.
  rewrite (requestList_loop_total backend this (path_of o) p fuel n [] _
             (lodash_defaults o PARAMS) pg);
    [|cbn [heap]; apply lookup_insert_eq|done|done|done].
  unfold fetch_outcome. cbn [heap log]. fold o1 issued. rewrite Hdata.
  rewrite insert_insert_eq. cbn [app]. fold rows w'.
  by apply lodash_map_pure.
Qed.

End ListOperation.

(** ** [listBranchs] over a sequence of pages *)

Lemma lookup_defaults_missing (o src : gmap string json) (k : string) :
  o !! k = None -> lodash_defaults o src !! k = src !! k.
Proof. intros Ho. by rewrite lookup_lodash_defaults, Ho. Qed.

Section Served.

Variable backend : transport.
Variable path : string.
Variable issued : nat.
Variable o1 : gmap string json.
Variable pages : nat -> list json.
Variable n : nat.
Hypothesis served : serves backend issued pages n.

Lemma served_reply_data (pg : json) (i : nat) :
  (i <= n)%nat ->
  reply_data (page_reply backend path issued o1 pg i) = Some (JArr (pages i)).
Proof. intros Hi. unfold page_reply. by apply served. Qed.

Lemma served_full_page (pg : json) (i : nat) :
  (i <= n)%nat ->
  full_page (JNum 100) (page_reply backend path issued o1 pg i)
  = Nat.eqb (List.length (pages i)) 100.
Proof.
  intros Hi. unfold full_page. rewrite served_reply_data by done.
  cbn [lodash_size js_strict_eq_num].
  destruct (Nat.eqb_spec (List.length (pages i)) 100) as [->|Hne]; [done|].
  apply Z.eqb_neq. lia.
Qed.

Lemma served_fetched_rows (pg : json) (m : nat) :
  (m <= S n)%nat ->
  fetched_rows backend path issued o1 pg m = concat (List.map pages (seq 0 m)).
Proof.
  intros Hm. unfold fetched_rows. rewrite flat_map_concat_map. f_equal.
  apply map_ext_in. intros i Hi%in_seq. unfold reply_rows.
  by rewrite served_reply_data by lia.
Qed.

Lemma served_fetched_log_rows (pg : json) (m : nat) :
  (m <= S n)%nat ->
  List.map (fun e => reply_rows (snd e)) (fetched_log backend path issued o1 pg m)
  = List.map pages (seq 0 m).
Proof.
  intros Hm. unfold fetched_log. rewrite map_map.
  apply map_ext_in. intros i Hi%in_seq. unfold page_exchange, reply_rows. cbn [snd].
  by rewrite served_reply_data by lia.
Qed.

End Served.

Lemma fetched_log_requested_pages backend path issued o1 (k : Z) (m : nat) :
  List.map requested_page (fetched_log backend path issued o1 (JNum k) m)
  = List.map (fun i => JNum (k + Z.of_nat i)) (seq 0 m).
Proof.
  unfold fetched_log. rewrite map_map. apply map_ext. intros i.
  unfold requested_page, page_exchange, page_request, at_page. cbn [fst params].
  by rewrite obj_get_insert_eq, iter_add_one_num.
Qed.

(** C7. On an object with [owner] and [repo] (and no [page] or [per_page] of
    the caller's), over a backend that returns a sequence of pages of which
    page [n] is the first that does not have 100 rows, [listBranchs] returns
    one output per fetched row: the pages fetched are [pages 0 .. pages n],
    the outputs carry their rows in fetch order, so their number is the sum of
    the page lengths, and the page numbers requested are 1, 2, ..., n + 1. *)
Theorem listBranchs_concatenates_pages (backend : transport) (this : Gitee)
    (fuel n : nat) (p : loc) (w : world) (o : gmap string json)
    (pages : nat -> list json) :
  heap w !! p = Some o ->
  is_Some (o !! "owner") ->
  is_Some (o !! "repo") ->
  o !! "page" = None ->
  o !! "per_page" = None ->
  serves backend (List.length (log w)) pages n ->
  (forall i, (i < n)%nat -> List.length (pages i) = 100%nat) ->
  List.length (pages n) <> 100%nat ->
  (forall i row, (i <= n)%nat -> In row (pages i) -> is_nullish row = false) ->
  (n < fuel)%nat ->
  exists out w' exchanges,
    listBranchs backend this fuel p w = Ret out w'
    /\ log w' = log w ++ exchanges
    /\ List.map (fun e => reply_rows (snd e)) exchanges = List.map pages (seq 0 (S n))
    /\ List.map requested_page exchanges
       = List.map (fun i => JNum (1 + Z.of_nat i)) (seq 0 (S n))
    /\ NoDup (List.map requested_page exchanges)
    /\ List.length out = sum_list (List.map (fun i => List.length (pages i)) (seq 0 (S n)))
    /\ List.map branch_source out = concat (List.map pages (seq 0 (S n))).
Proof.
  intros Hp Howner Hrepo Hpage Hper Hserved Hfull Hshort Hrows Hfuel.
  set (path := "/repos/" +:+ js_ToString (obj_get o "owner") +:+ "/"
               +:+ js_ToString (obj_get o "repo") +:+ "/branches").
  set (o1 := lodash_defaults (lodash_defaults o PARAMS) (token_source this)).
  set (issued := List.length (log w)).
  set (g := fun row => {| branch_name := js_index row "name";
                          branch_commit_sha := lodash_get row "commit.sha";
                          branch_source := row |}).
  assert (Hper1 : obj_get o1 "per_page" = JNum 100).
  { unfold o1. rewrite obj_get_defaults_other by reflexivity.
    unfold obj_get. by rewrite lookup_defaults_missing. }
  assert (Hrun := list_operation_total backend this ["owner"; "repo"]
                    (fun o => "/repos/" +:+ js_ToString (obj_get o "owner") +:+ "/"
                              +:+ js_ToString (obj_get o "repo") +:+ "/branches")
                    (fun row => let* name := js_member row "name" in
                                ret {| branch_name := name;
                                       branch_commit_sha := lodash_get row "commit.sha";
                                       branch_source := row |})
                    g p fuel n w o (JNum 1) Hp).
  cbv zeta in Hrun. fold path o1 issued in Hrun.
  exists (List.map g (fetched_rows backend path issued o1 (JNum 1) (S n))),
    {| heap := <[p := at_page o1 (JNum 1) (S n)]> (heap w);
       log := log w ++ fetched_log backend path issued o1 (JNum 1) (S n) |},
    (fetched_log backend path issued o1 (JNum 1) (S n)).
  rewrite fetched_log_requested_pages.
  split; [|split; [done|split; [by apply (served_fetched_log_rows _ _ _ _ pages n)|split; [done|split; [|split]]]]].
  - apply Hrun.
    + by repeat constructor.
    + by rewrite lookup_defaults_missing.
    + unfold stops_at. rewrite Hper1. split.
      * intros i Hi. rewrite (served_full_page _ _ _ _ pages n) by (done || lia).
        apply Nat.eqb_eq, Hfull, Hi.
      * rewrite (served_full_page _ _ _ _ pages n) by (done || lia).
        by apply Nat.eqb_neq.
    + rewrite (served_reply_data _ _ _ _ pages n) by done. eauto.
    + done.
    + rewrite (served_fetched_rows _ _ _ _ pages n) by done.
      apply Forall_forall. intros row Hrow%list_elem_of_In%in_concat.
      destruct Hrow as (page & Hpage_in & Hrow). apply in_map_iff in Hpage_in.
      destruct Hpage_in as (i & <- & Hi%in_seq).
      unfold bind, js_member. rewrite (Hrows i row) by (done || lia). reflexivity.
  - apply NoDup_fmap_2_strong; [|apply NoDup_seq].
    intros i j _ _ [= Hij]. lia.
  - rewrite length_map, (served_fetched_rows _ _ _ _ pages n) by done.
    rewrite length_concat, map_map. reflexivity.
  - rewrite map_map. cbn [branch_source g]. rewrite map_id.
    by apply (served_fetched_rows _ _ _ _ pages n).
Qed.

Lemma listBranchs_concatenates_pages_witness :
  let backend := serve_pages (fun i => sample_rows (if (i <? 1)%nat then 100 else 3)) in
  let pages := fun i => sample_rows (if (i <? 1)%nat then 100 else 3) in
  let w := sample_world sample_params in
  exists out w' exchanges,
    listBranchs backend sample_client 5 1%positive w = Ret out w'
    /\ log w' = log w ++ exchanges
    /\ List.map (fun e => reply_rows (snd e)) exchanges = List.map pages (seq 0 2)
    /\ List.map requested_page exchanges
       = List.map (fun i => JNum (1 + Z.of_nat i)) (seq 0 2)
    /\ NoDup (List.map requested_page exchanges)
    /\ List.length out = sum_list (List.map (fun i => List.length (pages i)) (seq 0 2))
    /\ List.map branch_source out = concat (List.map pages (seq 0 2)).
Proof.
  intros backend pages w.
  apply (listBranchs_concatenates_pages backend sample_client 5 1 1%positive w
           sample_params pages).
  - reflexivity.
  - exists (JStr "octo"). reflexivity.
  - exists (JStr "demo"). reflexivity.
  - reflexivity.
  - reflexivity.
  - intros i req Hi. reflexivity.
  - intros i Hi. destruct i; [vm_compute; reflexivity|lia].
  - vm_compute. lia.
  - intros i row Hi Hrow. unfold pages, sample_rows in Hrow.
    apply in_map_iff in Hrow as (j & <- & _). reflexivity.
  - lia.
Defined.

(** ** What the list operations leave in the caller's object *)

Lemma defaults_value_None_r (x : option json) : defaults_value x None = x.
Proof. by destruct x. Qed.

Lemma PARAMS_lookup_other (k : string) :
  ~ In k ["per_page"; "page"; "sort"; "access_token"] -> PARAMS !! k = None.
Proof.
  intros Hk. unfold PARAMS.
  rewrite !lookup_insert_ne, lookup_singleton_ne; [done|..];
    intros <-; apply Hk; cbn; tauto.
Qed.

Section LeftBehind.

Variable backend : transport.
Variable this : Gitee.
Variable path : string.
Variable p : loc.

(** The world a fetch ends in: [n + 1] requests were sent, and [page] was
    incremented [m] times, which is [n + 1] when the last request brought a
    body and [n] when it failed. *)
Lemma fetch_leaves_params (w : world) (o : gmap string json) (pg : json) (n m : nat) :
  lodash_defaults o PARAMS !! "page" = Some pg ->
  let o1 := lodash_defaults (lodash_defaults o PARAMS) (token_source this) in
  let last := page_exchange backend path (List.length (log w)) o1 pg n in
  Nat.iter m js_add_one pg = match reply_data (snd last) with
                             | Some _ => js_add_one (requested_page last)
                             | None => requested_page last
                             end ->
  params_left_behind this p o w
    {| heap := <[p := at_page o1 pg m]> (heap w);
       log := log w ++ fetched_log backend path (List.length (log w)) o1 pg (S n) |}.
Proof.
  intros Hpage o1 last Hm.
  exists (at_page o1 pg m),
    (fetched_log backend path (List.length (log w)) o1 pg n), last.
  assert (Hlog : fetched_log backend path (List.length (log w)) o1 pg (S n)
                 = fetched_log backend path (List.length (log w)) o1 pg n ++ [last]).
  { unfold fetched_log. by rewrite seq_snoc, map_app. }
  assert (Hlen : List.length (fetched_log backend path (List.length (log w)) o1 pg (S n))
                 = S n).
  { unfold fetched_log. by rewrite length_map, length_seq. }
  assert (Ho1 : forall k, k <> "access_token" ->
                  o1 !! k = defaults_value (o !! k) (PARAMS !! k)).
  { intros k Hk. unfold o1. rewrite lookup_lodash_defaults. unfold token_source.
    rewrite lookup_singleton_ne by done.
    by rewrite defaults_value_None_r, lookup_lodash_defaults. }
  cbn [heap log]. rewrite lookup_insert_eq, <- Hlog, Hlen.
  split; [done|]. split; [done|].
  split; [|split; [|split; [|split; [|split; [|split]]]]].
  - intros Hnone. unfold at_page. rewrite lookup_insert_ne, Ho1, Hnone by done. reflexivity.
  - intros Hnone. unfold at_page. rewrite lookup_insert_ne, Ho1, Hnone by done. reflexivity.
  - intros Hnone. unfold at_page. rewrite lookup_insert_ne by done.
    unfold o1. rewrite !lookup_lodash_defaults, Hnone. reflexivity.
  - unfold fetched_log. intros e k (i & <- & _)%in_map_iff Hk.
    unfold page_exchange, page_request, at_page. cbn [fst params].
    by rewrite !lookup_insert_ne.
  - intros Hnone.
    assert (pg = JNum 1) as ->.
    { rewrite lookup_defaults_missing in Hpage by done.
      change (PARAMS !! "page") with (Some (JNum 1)) in Hpage. congruence. }
    apply fetched_log_requested_pages.
  - unfold at_page. by rewrite lookup_insert_eq, Hm.
  - intros k Hk. unfold at_page.
    rewrite lookup_insert_ne by (intros <-; apply Hk; cbn; tauto).
    rewrite Ho1 by (intros ->; apply Hk; cbn; tauto).
    by rewrite PARAMS_lookup_other, defaults_value_None_r.
Qed.

End LeftBehind.

Section ListOperationEnds.

Variable backend : transport.
Variable this : Gitee.
Context {A : Type}.
Variable required : list string.
Variable path_of : gmap string json -> string.
Variable f : json -> M A.
Variable p : loc.

Local Abbreviation operation fuel :=
  (validate_required required p ;;
   let* o := load p in
   let* q := lodash_defaults_at p PARAMS in
   let* rows := requestList backend this fuel (path_of o) q in
   lodash_map f rows).

Local Abbreviation merged_world w o :=
  {| heap := <[p := lodash_defaults o PARAMS]> (heap w); log := log w |}.

(** The callback of [_.map] only reads, whether it returns or throws. *)
Hypothesis f_keeps : forall row w0, final_world (f row w0) = Some w0.

Lemma final_world_lodash_map (rows : list json) (w : world) :
  final_world (lodash_map f rows w) = Some w.
Proof.
  induction rows as [|row rows IH]; [reflexivity|].
  cbn [lodash_map]. unfold bind at 1.
  pose proof (f_keeps row w) as Hrow.
  destruct (f row w) as [x w1|e w1|]; cbn [final_world] in Hrow; [|done..].
  injection Hrow as ->. unfold bind.
  destruct (lodash_map f rows w) as [xs w2|e w2|]; cbn [final_world] in IH; done.
Qed.

(** A call on valid parameters ends where its fetch ends. *)
Lemma list_operation_final_world (fuel : nat) (w : world) (o : gmap string json) :
  heap w !! p = Some o ->
  Forall (fun k => is_Some (o !! k)) required ->
  final_world (operation fuel w)
  = final_world (requestList backend this fuel (path_of o) p (merged_world w o)).
Proof.
  intros Hp Hall.
  rewrite (list_operation_valid backend this required path_of f p fuel w o Hp Hall).
  unfold bind.
  destruct (requestList backend this fuel (path_of o) p (merged_world w o))
    as [rows w1|e w1|]; [apply final_world_lodash_map|reflexivity..].
Qed.

(** However a call on valid parameters ends, with a value or with an
    exception, it leaves the caller's object written. *)
Lemma list_operation_leaves (fuel : nat) (w w' : world) (o : gmap string json) :
  heap w !! p = Some o ->
  Forall (fun k => is_Some (o !! k)) required ->
  final_world (operation fuel w) = Some w' ->
  params_left_behind this p o w w'.
Proof.
  intros Hp Hall Hend. rewrite (list_operation_final_world fuel w o Hp Hall) in Hend.
  destruct (lookup_defaults_PARAMS_page o) as (pg & Hpage & _).
  unfold requestList in Hend.
  destruct (requestList_loop_partial backend this (path_of o) p fuel [] (merged_world w o)
              (lodash_defaults o PARAMS) pg) as (n & Hn & Hstop & Hout).
  { cbn [heap]. apply lookup_insert_eq. }
  { done. }
  { intros Hcut. by rewrite Hcut in Hend. }
  rewrite Hout in Hend. unfold fetch_outcome in Hend. cbn [heap log] in Hend.
  rewrite !insert_insert_eq in Hend.
  destruct (reply_data (page_reply backend (path_of o) (List.length (log w))
              (lodash_defaults (lodash_defaults o PARAMS) (token_source this)) pg n))
    as [data|] eqn:Hdata; cbn [final_world] in Hend; injection Hend as <-;
    apply fetch_leaves_params; try done; cbv zeta;
    unfold page_exchange, requested_page, page_request, at_page; cbn [fst snd params];
    rewrite Hdata, obj_get_insert_eq; reflexivity.
Qed.

(** A call on valid parameters ends as soon as a reply is not a full page. *)
Lemma list_operation_ends (fuel n : nat) (w : world) (o : gmap string json) :
  heap w !! p = Some o ->
  Forall (fun k => is_Some (o !! k)) required ->
  (forall req, full_page (obj_get (lodash_defaults o PARAMS) "per_page")
                 (backend (List.length (log w) + n) req) = false) ->
  (n < fuel)%nat ->
  is_Some (final_world (operation fuel w)).
Proof.
  intros Hp Hall Hshort Hfuel. rewrite (list_operation_final_world fuel w o Hp Hall).
  destruct (lookup_defaults_PARAMS_page o) as (pg & Hpage & _).
  set (o1 := lodash_defaults (lodash_defaults o PARAMS) (token_source this)).
  assert (Hper1 : obj_get o1 "per_page" = obj_get (lodash_defaults o PARAMS) "per_page").
  { unfold o1. by rewrite obj_get_defaults_other. }
  destruct (first_false
              (fun i => full_page (obj_get o1 "per_page")
                          (page_reply backend (path_of o) (List.length (log w)) o1 pg i))
              n) as (m & Hm & Hbefore & Hlast).
  { rewrite Hper1. apply Hshort. }
  unfold requestList.
  rewrite (requestList_loop_total backend this (path_of o) p fuel m [] (merged_world w o)
             (lodash_defaults o PARAMS) pg);
    [|cbn [heap]; apply lookup_insert_eq|done|by split|lia].
  unfold fetch_outcome. by destruct (reply_data _).
Qed.

End ListOperationEnds.

Section ListOperationReturns.

Variable backend : transport.
Variable this : Gitee.
Context {A : Type}.
Variable required : list string.
Variable path_of : gmap string json -> string.
Variable f : json -> M A.
Variable g : json -> A.
Variable p : loc.

Local Abbreviation operation fuel :=
  (validate_required required p ;;
   let* o := load p in
   let* q := lodash_defaults_at p PARAMS in
   let* rows := requestList backend this fuel (path_of o) q in
   lodash_map f rows).

(** The rows the callback of [_.map] accepts. *)
Variable accepted : json -> Prop.
Hypothesis f_accepts : forall row w0, accepted row -> f row w0 = Ret (g row) w0.

(** A call on valid parameters returns when the replies up to one that is not
    a full page are arrays of rows the callback accepts. *)
Lemma list_operation_returns (fuel n : nat) (w : world) (o : gmap string json) :
  heap w !! p = Some o ->
  Forall (fun k => is_Some (o !! k)) required ->
  (forall i req, (i <= n)%nat ->
     exists rows, reply_data (backend (List.length (log w) + i) req) = Some (JArr rows)
                  /\ Forall accepted rows) ->
  (forall req, full_page (obj_get (lodash_defaults o PARAMS) "per_page")
                 (backend (List.length (log w) + n) req) = false) ->
  (n < fuel)%nat ->
  is_Some (returned (operation fuel w)).
Proof.
  intros Hp Hall Hbody Hshort Hfuel.
  destruct (lookup_defaults_PARAMS_page o) as (pg & Hpage & _).
  set (o1 := lodash_defaults (lodash_defaults o PARAMS) (token_source this)).
  assert (Hper1 : obj_get o1 "per_page" = obj_get (lodash_defaults o PARAMS) "per_page").
  { unfold o1. by rewrite obj_get_defaults_other. }
  destruct (first_false
              (fun i => full_page (obj_get o1 "per_page")
                          (page_reply backend (path_of o) (List.length (log w)) o1 pg i))
              n) as (m & Hm & Hbefore & Hlast).
  { rewrite Hper1. apply Hshort. }
  rewrite (list_operation_total backend this required path_of f g p fuel m w o pg);
    [by eexists|done|done|done|by split| |lia|].
  - destruct (Hbody m (page_request (path_of o) o1 pg m)) as (rows & Hrows & _); [done|].
    fold o1. unfold page_reply. rewrite Hrows. by eexists.
  - cbv zeta. fold o1. apply Forall_forall. intros row Hrow%list_elem_of_In.
    unfold fetched_rows in Hrow. apply in_flat_map in Hrow as (i & Hi%in_seq & Hrow).
    destruct (Hbody i (page_request (path_of o) o1 pg i)) as (rows & Hrows & Hok); [lia|].
    unfold reply_rows, page_reply in Hrow. rewrite Hrows in Hrow. cbn [spread] in Hrow.
    apply f_accepts. rewrite Forall_forall in Hok. by apply Hok, list_elem_of_In.
Qed.

End ListOperationReturns.

(** C10. [listBranchs] and [listWebhook] write into the object their caller
    passes. However a call on an object with [owner] and [repo] ends, with its
    value or with an exception, the same object holds the defaults it lacked
    ([per_page] 100, [sort] 'updated', [page]) and the access token, all
    written before the first request, which carried them as every later one
    did, and a [page] one more than the last page fetched (and the page of the
    last request when that request failed). A call ends as soon as a reply is
    not a full page, and it returns when the replies up to that one are arrays
    of rows (for [listBranchs], rows other than null). *)
Theorem list_operations_mutate_params (backend : transport) (this : Gitee)
    (p : loc) (w : world) (o : gmap string json) :
  heap w !! p = Some o ->
  is_Some (o !! "owner") ->
  is_Some (o !! "repo") ->
  let per_page := obj_get (lodash_defaults o PARAMS) "per_page" in
  let issued := List.length (log w) in
  (forall fuel w', final_world (listBranchs backend this fuel p w) = Some w' ->
                   params_left_behind this p o w w')
  /\ (forall fuel w', final_world (listWebhook backend this fuel p w) = Some w' ->
                      params_left_behind this p o w w')
  /\ (forall n fuel,
        (forall req, full_page per_page (backend (issued + n) req) = false) ->
        (n < fuel)%nat ->
        is_Some (final_world (listBranchs backend this fuel p w))
        /\ is_Some (final_world (listWebhook backend this fuel p w)))
  /\ (forall n fuel,
        (forall i req, (i <= n)%nat ->
           exists rows, reply_data (backend (issued + i) req) = Some (JArr rows)
                        /\ Forall (fun row => is_nullish row = false) rows) ->
        (forall req, full_page per_page (backend (issued + n) req) = false) ->
        (n < fuel)%nat ->
        is_Some (returned (listBranchs backend this fuel p w))
        /\ is_Some (returned (listWebhook backend this fuel p w))).
Proof.
  intros Hp Howner Hrepo per_page issued.
  assert (Hall : Forall (fun k => is_Some (o !! k)) ["owner"; "repo"])
    by by repeat constructor.
  assert (Hbranch : forall row w0,
            final_world ((let* name := js_member row "name" in
                          ret {| branch_name := name;
                                 branch_commit_sha := lodash_get row "commit.sha";
                                 branch_source := row |}) w0) = Some w0).
  { intros row w0. unfold bind, js_member, throw, ret. by destruct (is_nullish row). }
  split; [|split; [|split]].
  - intros fuel w'.
    by apply (list_operation_leaves backend this ["owner"; "repo"]
                (fun o => "/repos/" +:+ js_ToString (obj_get o "owner") +:+ "/"
                          +:+ js_ToString (obj_get o "repo") +:+ "/branches") _ p Hbranch).
  - intros fuel w'.
    by apply (list_operation_leaves backend this ["owner"; "repo"]
                (fun o => "/repos/" +:+ js_ToString (obj_get o "owner") +:+ "/"
                          +:+ js_ToString (obj_get o "repo") +:+ "/hooks")
                (fun row => ret {| webhook_id := lodash_get row "id";
                                   webhook_url := lodash_get row "url";
                                   webhook_source := row |}) p).
  - intros n fuel Hshort Hfuel. split.
    + by apply (list_operation_ends backend this ["owner"; "repo"]
                  (fun o => "/repos/" +:+ js_ToString (obj_get o "owner") +:+ "/"
                            +:+ js_ToString (obj_get o "repo") +:+ "/branches") _ p Hbranch
                  fuel n w o).
    + by apply (list_operation_ends backend this ["owner"; "repo"]
                  (fun o => "/repos/" +:+ js_ToString (obj_get o "owner") +:+ "/"
                            +:+ js_ToString (obj_get o "repo") +:+ "/hooks")
                  (fun row => ret {| webhook_id := lodash_get row "id";
                                     webhook_url := lodash_get row "url";
                                     webhook_source := row |}) p (fun _ _ => eq_refl)
                  fuel n w o).
  - intros n fuel Hbody Hshort Hfuel. split.
    + apply (list_operation_returns backend this ["owner"; "repo"]
               (fun o => "/repos/" +:+ js_ToString (obj_get o "owner") +:+ "/"
                         +:+ js_ToString (obj_get o "repo") +:+ "/branches")
               (fun row => let* name := js_member row "name" in
                           ret {| branch_name := name;
                                  branch_commit_sha := lodash_get row "commit.sha";
                                  branch_source := row |})
               (fun row => {| branch_name := js_index row "name";
                              branch_commit_sha := lodash_get row "commit.sha";
                              branch_source := row |}) p
               (fun row => is_nullish row = false)) with (n := n) (o := o); try done.
      intros row w0 Hrow. unfold bind, js_member. by rewrite Hrow.
    + apply (list_operation_returns backend this ["owner"; "repo"]
               (fun o => "/repos/" +:+ js_ToString (obj_get o "owner") +:+ "/"
                         +:+ js_ToString (obj_get o "repo") +:+ "/hooks")
               (fun row => ret {| webhook_id := lodash_get row "id";
                                  webhook_url := lodash_get row "url";
                                  webhook_source := row |})
               (fun row => {| webhook_id := lodash_get row "id";
                              webhook_url := lodash_get row "url";
                              webhook_source := row |}) p
               (fun row => is_nullish row = false)) with (n := n) (o := o); try done.
Qed.

Lemma list_operations_mutate_params_witness :
  let backend := serve_pages (fun _ => sample_rows 3) in
  let w := sample_world sample_params in
  exists w' o',
    final_world (listBranchs backend sample_client 2 1%positive w) = Some w'
    /\ params_left_behind sample_client 1%positive sample_params w w'
    /\ heap w' !! 1%positive = Some o'
    /\ o' !! "page" = Some (JNum 2)
    /\ o' !! "per_page" = Some (JNum 100)
    /\ o' !! "sort" = Some (JStr "updated")
    /\ o' !! "access_token" = Some (JStr "t0ken")
    /\ is_Some (returned (listWebhook backend sample_client 2 1%positive w)).
Proof.
  intros backend w.
  destruct (list_operations_mutate_params backend sample_client 1%positive w sample_params)
    as (Hleaves & _ & _ & Hreturns); [reflexivity|by eexists|by eexists|].
  let r := eval vm_compute in (final_world (listBranchs backend sample_client 2 1%positive w)) in
  lazymatch r with
  | Some ?w' =>
      let o := eval vm_compute in (heap w' !! 1%positive) in
      lazymatch o with Some ?o' => exists w', o' end
  end.
  split; [vm_compute; reflexivity|]. split.
  - apply (Hleaves 2%nat). vm_compute. reflexivity.
  - do 5 (split; [vm_compute; reflexivity|]).
    apply (Hreturns 0%nat 2%nat).
    + intros i req Hi. exists (sample_rows 3). split; [reflexivity|].
      unfold sample_rows. apply Forall_forall. intros row Hrow%list_elem_of_In.
      apply in_map_iff in Hrow as (j & <- & _). reflexivity.
    + intros req. reflexivity.
    + lia.
Defined.

(** ** Operations that send one request *)

Section OneRequest.

Variable backend : transport.
Variable this : Gitee.

Lemma requestV5_run (path method : string) (p : loc) (w : world) (o : gmap string json) :
  heap w !! p = Some o ->
  requestV5 backend this path method p w
  = single_request backend (<[p := lodash_defaults o (token_source this)]> (heap w)) w
      {| method := method; url := V5 +:+ path;
         params := lodash_defaults o (token_source this) |}
      (fun result => result).
Proof.
  intros Hp. unfold requestV5, lodash_defaults_at, bind, load, store, ret, axios.
  rewrite Hp. run_store. unfold single_request, token_source.
  by destruct (backend _ _).
Qed.

(** A request whose parameters are the object literal [{}]. *)
Lemma requestV5_literal {A} (path method : string) (k : json -> A) (w : world) :
  (let* literal := alloc ∅ in
   let* result := requestV5 backend this path method literal in
   ret (k result)) w
  = single_request backend
      (<[fresh (dom (heap w)) := token_source this]> (heap w)) w
      {| method := method; url := V5 +:+ path; params := token_source this |} k.
Proof.
  unfold bind at 1, alloc. unfold bind.
  rewrite (requestV5_run _ _ _ _ ∅) by (cbn [heap]; apply lookup_insert_eq).
  cbn [heap log]. rewrite insert_insert_eq.
  assert (lodash_defaults ∅ (token_source this) = token_source this) as ->.
  { apply map_eq. intros k0. rewrite lookup_lodash_defaults, lookup_empty.
    reflexivity. }
  unfold single_request, ret. cbn [log]. by destruct (backend _ _).
Qed.

End OneRequest.

(** ** Prefixes of a ref *)

Lemma substring_all (s : string) : String.substring 0 (String.length s) s = s.
Proof. induction s as [|c s IH]; [done|]. cbn. by rewrite IH. Qed.

Lemma prefix_app (pat rest : string) : String.prefix pat (pat +:+ rest) = true.
Proof.
  induction pat as [|c pat IH]; simpl; [by destruct rest|].
  destruct (ascii_dec c c); [done|congruence].
Qed.

Lemma substring_app (pat rest : string) :
  String.substring (String.length pat)
    (String.length (pat +:+ rest) - String.length pat) (pat +:+ rest) = rest.
Proof.
  induction pat as [|c pat IH]; simpl.
  - rewrite Nat.sub_0_r. apply substring_all.
  - apply IH.
Qed.

Lemma replace_first_matching (pat rep s : string) :
  String.prefix pat s = true ->
  replace_first pat rep s
  = rep +:+ String.substring (String.length pat) (String.length s - String.length pat) s.
Proof. intros Hpre. destruct s; cbn [replace_first]; by rewrite Hpre. Qed.

Lemma replace_first_prefix (pat rest : string) :
  replace_first pat "" (pat +:+ rest) = rest.
Proof.
  rewrite replace_first_matching by apply prefix_app.
  by rewrite substring_app.
Qed.

(** ** [getRefCommit] *)

Lemma obj_get_Some (o : gmap string json) (k : string) (v : json) :
  o !! k = Some v -> obj_get o k = v.
Proof. intros H. unfold obj_get. by rewrite H. Qed.

(** C2. [getRefCommit] on [{owner, repo, ref}] sends exactly one GET request:
    for a ref ["refs/tags/" ++ tag], to the releases/tags endpoint of [tag],
    and it returns the [target_commitish] of the response body as [sha] and
    its [tag_name] as [message]; for a ref ["refs/heads/" ++ branch], to the
    branches endpoint of [branch], and for a ref with neither prefix, to the
    branches endpoint of the ref itself, and it returns [commit.sha] of the
    body as [sha] and [commit.commit.message] as [message]. *)
Theorem getRefCommit_resolves_ref (backend : transport) (this : Gitee) (p : loc)
    (w : world) (o : gmap string json) (owner repo ref : string) :
  heap w !! p = Some o ->
  o !! "owner" = Some (JStr owner) ->
  o !! "repo" = Some (JStr repo) ->
  o !! "ref" = Some (JStr ref) ->
  let h := <[fresh (dom (heap w)) := token_source this]> (heap w) in
  let get := fun endpoint =>
    {| method := "GET";
       url := V5 +:+ "/repos/" +:+ owner +:+ "/" +:+ repo +:+ endpoint;
       params := token_source this |} in
  let of_tag := fun result =>
    let source := lodash_get_or result "data" (JObj ∅) in
    {| commit_sha := lodash_get source "target_commitish";
       commit_message := lodash_get source "tag_name";
       commit_source := source |} in
  let of_branch := fun result =>
    let source := lodash_get_or result "data" (JObj ∅) in
    {| commit_sha := lodash_get source "commit.sha";
       commit_message := lodash_get source "commit.commit.message";
       commit_source := source |} in
  (forall tag, ref = "refs/tags/" +:+ tag ->
     getRefCommit backend this p w
     = single_request backend h w (get ("/releases/tags/" +:+ tag)) of_tag)
  /\ (forall branch, ref = "refs/heads/" +:+ branch ->
        getRefCommit backend this p w
        = single_request backend h w (get ("/branches/" +:+ branch)) of_branch)
  /\ (String.prefix "refs/tags/" ref = false ->
      String.prefix "refs/heads/" ref = false ->
      getRefCommit backend this p w
      = single_request backend h w (get ("/branches/" +:+ ref)) of_branch).
Proof.
  intros Hp Howner Hrepo Href h get of_tag of_branch.
  split; [|split]; [intros tag -> | intros branch -> | intros Htag Hheads];
    unfold getRefCommit; unfold bind at 1, validateGetRefCommitParams;
    rewrite (validate_required_ok _ _ _ o) by (done || (repeat constructor; eauto));
    unfold bind at 1, load at 1; rewrite Hp; cbv beta iota zeta;
    rewrite (obj_get_Some _ _ _ Howner), (obj_get_Some _ _ _ Hrepo), (obj_get_Some _ _ _ Href);
    unfold lodash_startsWith, lodash_replace;
    cbn [lodash_toString is_nullish baseToString js_ToString].
  - rewrite (prefix_app "refs/tags/" tag), (replace_first_prefix "refs/tags/" tag).
    apply (requestV5_literal backend this _ "GET" of_tag).
  - change (String.prefix "refs/tags/" ("refs/heads/" +:+ branch)) with false.
    rewrite (prefix_app "refs/heads/" branch), (replace_first_prefix "refs/heads/" branch).
    cbn [js_ToString].
    apply (requestV5_literal backend this _ "GET" of_branch).
  - rewrite Htag, Hheads. cbn [js_ToString].
    apply (requestV5_literal backend this _ "GET" of_branch).
Qed.

Lemma getRefCommit_resolves_ref_witness :
  exists w',
    getRefCommit (serve_body tag_body) sample_client 1%positive (sample_world tag_params)
    = Ret {| commit_sha := JStr "9fceb02"; commit_message := JStr "v1.0";
             commit_source := tag_body |} w'
    /\ List.map (fun e => url (fst e)) (log w')
       = ["https://gitee.com/api/v5/repos/octo/demo/releases/tags/v1.0"].
Proof.
  destruct (getRefCommit_resolves_ref (serve_body tag_body) sample_client 1%positive
              (sample_world tag_params) tag_params "octo" "demo" "refs/tags/v1.0"
              eq_refl eq_refl eq_refl eq_refl) as [Htag _].
  eexists. rewrite (Htag "v1.0" eq_refl). split; reflexivity.
Defined.

(** ** Response bodies *)

Lemma lodash_get_or_data (result dflt : json) :
  lodash_get_or result "data" dflt
  = if is_undefined (js_index result "data") then dflt else js_index result "data".
Proof.
  unfold lodash_get_or. change (castPath "data" result) with ["data"].
  cbn [baseGet baseGet_from]. by destruct result.
Qed.

Lemma single_request_ret {A} (backend : transport) (h : gmap loc (gmap string json))
    (w w' : world) (req : request) (k : json -> A) (out : A) :
  single_request backend h w req k = Ret out w' ->
  exists result, out = k result /\ log w' = log w ++ [(req, Resolve result)].
Proof.
  unfold single_request. destruct (backend _ _) as [result|reason]; [|done].
  intros [= <- <-]. by exists result.
Qed.

Section SourceKept.

Variable backend : transport.
Variable this : Gitee.
Variable p : loc.

Lemma requestV5_then {A} (path method : string) (k : json -> A) (w : world)
    (o : gmap string json) :
  heap w !! p = Some o ->
  (let* result := requestV5 backend this path method p in ret (k result)) w
  = single_request backend (<[p := lodash_defaults o (token_source this)]> (heap w)) w
      {| method := method; url := V5 +:+ path;
         params := lodash_defaults o (token_source this) |} k.
Proof.
  intros Hp. unfold bind. rewrite (requestV5_run _ _ _ _ _ _ o Hp).
  unfold single_request, ret. by destruct (backend _ _).
Qed.

(** After a validation that passed, the rest of an operation runs in the
    same world on the caller's object. *)
Lemma validated_ret {A} (required : list string) (k : gmap string json -> M A)
    (w w' : world) (out : A) :
  (validate_required required p ;; let* o := load p in k o) w = Ret out w' ->
  exists o, heap w !! p = Some o /\ k o w = Ret out w'.
Proof.
  unfold bind at 1. destruct (validate_required required p w) as [u w1| |] eqn:Hval;
    [|done..].
  destruct (validate_required_ret _ _ _ _ _ Hval) as [-> (o & Hp & _)].
  unfold bind, load. rewrite Hp. eauto.
Qed.

Lemma getRefCommit_source (w w' : world) (out : ICommitOutput) :
  getRefCommit backend this p w = Ret out w' ->
  exists req result,
    log w' = log w ++ [(req, Resolve result)]
    /\ commit_source out = body_or_empty result.
Proof.
  intros (o & Hp & Hrun)%validated_ret. cbv zeta in Hrun.
  destruct (lodash_startsWith (obj_get o "ref") "refs/tags/").
  - rewrite (requestV5_literal backend this _ "GET"
               (fun result =>
                  {| commit_sha := lodash_get (lodash_get_or result "data" (JObj ∅))
                                     "target_commitish";
                     commit_message := lodash_get (lodash_get_or result "data" (JObj ∅))
                                         "tag_name";
                     commit_source := lodash_get_or result "data" (JObj ∅) |})) in Hrun.
    apply single_request_ret in Hrun as (result & -> & Hlog).
    eexists _, result. split; [done|]. apply lodash_get_or_data.
  - rewrite (requestV5_literal backend this _ "GET"
               (fun result =>
                  {| commit_sha := lodash_get (lodash_get_or result "data" (JObj ∅))
                                     "commit.sha";
                     commit_message := lodash_get (lodash_get_or result "data" (JObj ∅))
                                         "commit.commit.message";
                     commit_source := lodash_get_or result "data" (JObj ∅) |})) in Hrun.
    apply single_request_ret in Hrun as (result & -> & Hlog).
    eexists _, result. split; [done|]. apply lodash_get_or_data.
Qed.

Lemma getWebhook_source (w w' : world) (out : IGetWebhookOutput) :
  getWebhook backend this p w = Ret out w' ->
  exists req result,
    log w' = log w ++ [(req, Resolve result)]
    /\ webhook_source out = body_or_empty result.
Proof.
  intros (o & Hp & Hrun)%validated_ret. cbv zeta in Hrun.
  rewrite (requestV5_then _ _
             (fun result => {| webhook_id := lodash_get result "id";
                               webhook_url := lodash_get result "url";
                               webhook_source := lodash_get_or result "data" (JObj ∅) |})
             w o Hp) in Hrun.
  apply single_request_ret in Hrun as (result & -> & Hlog).
  eexists _, result. split; [done|]. apply lodash_get_or_data.
Qed.

Lemma createWebhook_source (w w' : world) (out : ICreateWebhookOutput) :
  createWebhook backend this p w = Ret out w' ->
  exists req result,
    log w' = log w ++ [(req, Resolve result)]
    /\ created_source out = body_or_empty result
    /\ created_id out = lodash_get (body_or_empty result) "id".
Proof.
  intros (o & Hp & Hrun)%validated_ret. cbv zeta in Hrun.
  rewrite (requestV5_then _ _
             (fun result =>
                {| created_id := lodash_get (lodash_get_or result "data" (JObj ∅)) "id";
                   created_source := lodash_get_or result "data" (JObj ∅) |})
             w o Hp) in Hrun.
  apply single_request_ret in Hrun as (result & -> & Hlog).
  eexists _, result. split; [done|]. cbn [created_source created_id].
  by rewrite lodash_get_or_data.
Qed.

End SourceKept.

Lemma fetched_rows_of_log backend path issued o pg (m : nat) :
  fetched_rows backend path issued o pg m
  = List.flat_map (fun e => reply_rows (snd e)) (fetched_log backend path issued o pg m).
Proof.
  unfold fetched_rows, fetched_log. rewrite !flat_map_concat_map, map_map. reflexivity.
Qed.

Section ListSources.

Variable backend : transport.
Variable this : Gitee.

Lemma listRepos_source (fuel : nat) (w w' : world) (out : list IRepoOutput) :
  listRepos backend this fuel w = Ret out w' ->
  exists exchanges,
    log w' = log w ++ exchanges
    /\ List.map repo_source out = List.flat_map (fun e => reply_rows (snd e)) exchanges.
Proof.
  unfold listRepos. unfold bind at 1, alloc. unfold bind at 1, lodash_defaults_at, bind at 1.
  unfold load at 1. cbn [heap log]. rewrite lookup_insert_eq.
  unfold bind at 1, store at 1, bind at 1, ret at 1. cbn [heap log].
  rewrite insert_insert_eq. set (l := fresh (dom (heap w))).
  set (o := lodash_defaults {[ "affiliation" := JStr "owner" ]} PARAMS).
  set (w1 := {| heap := <[l := o]> (heap w); log := log w |}).
  unfold bind. destruct (requestList backend this fuel "/user/repos" l w1)
    as [rows w2| |] eqn:Hfetch; [|done..].
  intros Hmap.
  apply (lodash_map_ret _ (fun row => {| repo_id := js_index row "id";
                                         repo_name := js_index row "name";
                                         repo_url := js_index row "html_url";
                                         repo_source := row |})) in Hmap as [-> ->].
  2:{ intros row w0 x w3. unfold bind, js_member, throw, ret.
      destruct (is_nullish row); [done|]. by intros [= <- <-]. }
  unfold requestList in Hfetch.
  destruct (requestList_loop_partial backend this "/user/repos" l fuel [] w1 o (JNum 1))
    as (n & _ & _ & Hout).
  { apply lookup_insert_eq. }
  { reflexivity. }
  { by rewrite Hfetch. }
  rewrite Hfetch in Hout. unfold fetch_outcome in Hout.
  destruct (reply_data _) in Hout; [|done]. injection Hout as -> ->.
  eexists. split; [reflexivity|]. rewrite map_map, map_id. apply fetched_rows_of_log.
Qed.

Lemma listBranchs_source (fuel : nat) (p : loc) (w w' : world) (out : list IBranchOutput) :
  listBranchs backend this fuel p w = Ret out w' ->
  exists exchanges,
    log w' = log w ++ exchanges
    /\ List.map branch_source out = List.flat_map (fun e => reply_rows (snd e)) exchanges.
Proof.
  intros Hrun.
  eapply (list_operation_ret backend this ["owner"; "repo"] _ _
            (fun row => {| branch_name := js_index row "name";
                           branch_commit_sha := lodash_get row "commit.sha";
                           branch_source := row |})) in Hrun
    as (o & pg & n & _ & _ & _ & _ & _ & -> & ->).
  - eexists. split; [reflexivity|]. rewrite map_map, map_id. apply fetched_rows_of_log.
  - intros row w0 x w1. unfold bind, js_member, throw, ret.
    destruct (is_nullish row); [done|]. by intros [= <- <-].
Qed.

Lemma listWebhook_source (fuel : nat) (p : loc) (w w' : world)
    (out : list IGetWebhookOutput) :
  listWebhook backend this fuel p w = Ret out w' ->
  exists exchanges,
    log w' = log w ++ exchanges
    /\ List.map webhook_source out = List.flat_map (fun e => reply_rows (snd e)) exchanges.
Proof.
  intros Hrun.
  eapply (list_operation_ret backend this ["owner"; "repo"] _ _
            (fun row => {| webhook_id := lodash_get row "id";
                           webhook_url := lodash_get row "url";
                           webhook_source := row |})) in Hrun
    as (o & pg & n & _ & _ & _ & _ & _ & -> & ->).
  - eexists. split; [reflexivity|]. rewrite map_map, map_id. apply fetched_rows_of_log.
  - intros row w0 x w1. unfold ret. by intros [= <- <-].
Qed.

End ListSources.

(** C4. Every output an operation returns keeps what the backend sent under
    [source]: the outputs of [listRepos], [listBranchs] and [listWebhook]
    carry, in order, the rows of the bodies of the replies to the requests of
    the call; the output of [getRefCommit], [getWebhook] and [createWebhook]
    carries the body of the one response (the empty object when the response
    has no body). *)
Theorem outputs_keep_source (backend : transport) (this : Gitee) (fuel : nat) (p : loc)
    (w w' : world) :
  (forall out, listRepos backend this fuel w = Ret out w' ->
     exists exchanges, log w' = log w ++ exchanges
       /\ List.map repo_source out = List.flat_map (fun e => reply_rows (snd e)) exchanges)
  /\ (forall out, listBranchs backend this fuel p w = Ret out w' ->
        exists exchanges, log w' = log w ++ exchanges
          /\ List.map branch_source out
             = List.flat_map (fun e => reply_rows (snd e)) exchanges)
  /\ (forall out, listWebhook backend this fuel p w = Ret out w' ->
        exists exchanges, log w' = log w ++ exchanges
          /\ List.map webhook_source out
             = List.flat_map (fun e => reply_rows (snd e)) exchanges)
  /\ (forall out, getRefCommit backend this p w = Ret out w' ->
        exists req result, log w' = log w ++ [(req, Resolve result)]
          /\ commit_source out = body_or_empty result)
  /\ (forall out, getWebhook backend this p w = Ret out w' ->
        exists req result, log w' = log w ++ [(req, Resolve result)]
          /\ webhook_source out = body_or_empty result)
  /\ (forall out, createWebhook backend this p w = Ret out w' ->
        exists req result, log w' = log w ++ [(req, Resolve result)]
          /\ created_source out = body_or_empty result).
Proof.
  split; [|split; [|split; [|split; [|split]]]]; intros out Hrun.
  - by apply (listRepos_source backend this fuel).
  - by apply (listBranchs_source backend this fuel p).
  - by apply (listWebhook_source backend this fuel p).
  - by apply (getRefCommit_source backend this p).
  - by apply (getWebhook_source backend this p).
  - apply createWebhook_source in Hrun as (req & result & Hlog & Hsource & _). eauto.
Qed.

Lemma outputs_keep_source_witness :
  exists out w',
    getRefCommit (serve_body tag_body) sample_client 1%positive (sample_world tag_params)
    = Ret out w'
    /\ exists req result,
         log w' = log (sample_world tag_params) ++ [(req, Resolve result)]
         /\ commit_source out = body_or_empty result
         /\ body_or_empty result = tag_body.
Proof.
  let r := eval vm_compute in
    (getRefCommit (serve_body tag_body) sample_client 1%positive (sample_world tag_params)) in
  lazymatch r with Ret ?out ?w' => exists out, w' end.
  split; [vm_compute; reflexivity|].
  match goal with
  | |- exists req result, log ?w' = _ /\ commit_source ?out = _ /\ _ =>
      destruct (outputs_keep_source (serve_body tag_body) sample_client 0 1%positive
                  (sample_world tag_params) w') as (_ & _ & _ & H & _);
      destruct (H out eq_refl) as (req & result & Hlog & Hsource)
  end.
  exists req, result. split; [exact Hlog|]. split; [exact Hsource|].
  rewrite <- Hsource. reflexivity.
Defined.

(** ** [getWebhook] *)

(** C3. [getWebhook] reads [id] and [url] off the response object instead of
    its body: for a hook whose body carries an id and a url, the output has
    neither; only [source] carries the body. (The elements [listWebhook]
    returns do carry the [id] and [url] of their rows.) *)
Lemma getWebhook_loses_id_and_url :
  returned (getWebhook (serve_body hook_body) sample_client 1%positive
              (sample_world hook_params))
  = Some {| webhook_id := JUndefined; webhook_url := JUndefined;
            webhook_source := hook_body |}
  /\ lodash_get hook_body "id" = JNum 1202839
  /\ lodash_get hook_body "url" = JStr "https://example.com/hook"
  /\ returned (listWebhook (serve_pages (fun _ => [hook_body])) sample_client 1 1%positive
                 (sample_world hook_params))
     = Some [{| webhook_id := JNum 1202839;
                webhook_url := JStr "https://example.com/hook";
                webhook_source := hook_body |}].
Proof. repeat split; vm_compute; reflexivity. Qed.

(** ** Validation comes first *)

(** The validator throws in the world it was called in. *)
Lemma validate_required_throws (required : list string) (p : loc) (w w' : world)
    (e : error) :
  validate_required required p w = Throw e w' -> w' = w.
Proof.
  unfold validate_required, bind, load.
  destruct (heap w !! p) as [o|]; [|by intros [= _ <-]].
  destruct (List.find _ required); unfold throw, ret; [by intros [= _ <-]|done].
Qed.

Lemma validation_rejects {A} (required : list string) (rest : M A) (p : loc) (w : world)
    (o : gmap string json) :
  heap w !! p = Some o ->
  lacks o required ->
  rejected (async (validate_required required p ;; rest)) w.
Proof.
  intros Hp (k & Hin & Hk).
  destruct (validate_required_missing required p w o k Hp Hin Hk) as (k' & _ & _ & Hrun).
  exists k'. unfold async, bind. by rewrite Hrun.
Qed.

Ltac validated_first op :=
  let p := fresh "p" in
  let w := fresh "w" in
  let e := fresh "e" in
  let w' := fresh "w'" in
  let Hthrow := fresh "Hthrow" in
  intros p w e w' Hthrow;
  assert (w' = w) as -> by (eapply validate_required_throws, Hthrow);
  split; [reflexivity|];
  unfold async, op; unfold bind at 1; by rewrite Hthrow.

(** The call [listBranchs({})] does not throw at its caller: it returns a
    promise, which is rejected with the validation error. *)
Lemma missing_owner_rejects_the_promise :
  let made := async (listBranchs (serve_pages (fun _ => [])) sample_client 3 1%positive)
                (sample_world ∅) in
  lacks ∅ ["owner"; "repo"]
  /\ ~ throws_synchronously made
  /\ made = Promise (Throw (ValidationError "owner") (sample_world ∅)).
Proof.
  intros made. split; [|split].
  - exists "owner". split; [by left|reflexivity].
  - intros (e & w & Hthrew). discriminate Hthrew.
  - reflexivity.
Qed.

(** C5. Each of the seven operations with required parameters is guarded by
    its validator: whatever the validator throws rejects the promise the call
    returns, nothing having been sent or written; and a call on an object
    without one of the required keys is rejected that way with a validation
    error. The methods being [async], no call throws at its caller. *)
Theorem validation_rejects_promise (backend : transport) (this : Gitee) (fuel : nat)
    (p : loc) (w : world) (o : gmap string json) :
  heap w !! p = Some o ->
  (guarded_by validateListBranchsParams (listBranchs backend this fuel)
   /\ (lacks o ["owner"; "repo"] ->
       rejected (async (listBranchs backend this fuel p)) w))
  /\ (guarded_by validateGetRefCommitParams (getRefCommit backend this)
      /\ (lacks o ["owner"; "repo"; "ref"] ->
          rejected (async (getRefCommit backend this p)) w))
  /\ (guarded_by validateListWebhookParams (listWebhook backend this fuel)
      /\ (lacks o ["owner"; "repo"] ->
          rejected (async (listWebhook backend this fuel p)) w))
  /\ (guarded_by validateGetWebhookParams (getWebhook backend this)
      /\ (lacks o ["owner"; "repo"; "hook_id"] ->
          rejected (async (getWebhook backend this p)) w))
  /\ (guarded_by validateCreateWebhookParams (createWebhook backend this)
      /\ (lacks o ["owner"; "repo"] ->
          rejected (async (createWebhook backend this p)) w))
  /\ (guarded_by validateUpdateWebhookParams (updateWebhook backend this)
      /\ (lacks o ["owner"; "repo"; "hook_id"] ->
          rejected (async (updateWebhook backend this p)) w))
  /\ (guarded_by validateDeleteWebhookParams (deleteWebhook backend this)
      /\ (lacks o ["owner"; "repo"; "hook_id"] ->
          rejected (async (deleteWebhook backend this p)) w)).
Proof.
  intros Hp.
  split; [|split; [|split; [|split; [|split; [|split]]]]];
    (split; [|intros Hlacks; by apply (validation_rejects _ _ p w o)]).
  - validated_first (@listBranchs).
  - validated_first (@getRefCommit).
  - validated_first (@listWebhook).
  - validated_first (@getWebhook).
  - validated_first (@createWebhook).
  - validated_first (@updateWebhook).
  - validated_first (@deleteWebhook).
Qed.

Lemma validation_rejects_promise_witness :
  rejected (async (listBranchs (serve_pages (fun _ => [])) sample_client 3 1%positive))
           (sample_world ∅)
  /\ rejected (async (getWebhook (serve_body hook_body) sample_client 1%positive))
              (sample_world sample_params).
Proof.
  split.
  - apply (validation_rejects_promise _ sample_client 3 1%positive (sample_world ∅) ∅
             eq_refl).
    exists "owner". split; [by left|reflexivity].
  - apply (validation_rejects_promise _ sample_client 3 1%positive
             (sample_world sample_params) sample_params eq_refl).
    exists "hook_id". split; [cbn; tauto|reflexivity].
Defined.

(** ** The constructor *)

(** C6. Constructing the client from a configuration without an access
    token, or with an empty one, throws; from a configuration with a non-empty
    access token it succeeds and the client holds that token. *)
Theorem constructor_requires_access_token (cfg : gmap string json) :
  (cfg !! "access_token" = None \/ cfg !! "access_token" = Some (JStr "") ->
   Gitee_constructor (JObj cfg) = Abrupt (Error "Access token is required"))
  /\ (forall token, cfg !! "access_token" = Some (JStr token) -> token <> "" ->
        Gitee_constructor (JObj cfg)
        = Normal {| config := JObj cfg; access_token := JStr token |})
  /\ Gitee_constructor JUndefined = Abrupt (Error "Access token is required").
Proof.
  assert (Hget : lodash_get (JObj cfg) "access_token" = obj_get cfg "access_token").
  { unfold lodash_get, lodash_get_or. change (castPath "access_token" (JObj cfg))
      with ["access_token"]. cbn [is_nullish baseGet baseGet_from js_index].
    by destruct (obj_get cfg "access_token"). }
  unfold Gitee_constructor, Base_constructor. rewrite Hget. unfold obj_get.
  split; [|split].
  - by intros [-> | ->].
  - intros token -> Hne. cbn [default lodash_isEmpty]. by destruct token.
  - reflexivity.
Qed.

Lemma constructor_requires_access_token_witness :
  Gitee_constructor (JObj ∅) = Abrupt (Error "Access token is required")
  /\ Gitee_constructor (JObj {[ "access_token" := JStr "t0ken" ]}) = Normal sample_client.
Proof.
  split.
  - apply (proj1 (constructor_requires_access_token ∅)). left. reflexivity.
  - apply (proj1 (proj2 (constructor_requires_access_token
                           {[ "access_token" := JStr "t0ken" ]})) "t0ken").
    + reflexivity.
    + discriminate.
Defined.

(** ** [initConfig] *)

Lemma lookup_git_init_other (dir r key : string) (d : disk) :
  r <> dir \/ ~ In key (List.map fst git_init_config) ->
  gitconfig (git_init dir d) !! (r, key) = gitconfig d !! (r, key).
Proof.
  intros Hother. unfold git_init. cbn [gitconfig].
  destruct (decide (dir ∈ repositories d)); [done|].
  cbn [foldr git_init_config fst snd].
  rewrite !lookup_insert_ne; [done|..];
    intros [= -> <-]; destruct Hother as [Hr|Hkey]; try done;
    apply Hkey; cbn; tauto.
Qed.

Lemma lookup_git_init_new (dir key value : string) (d : disk) :
  dir ∉ repositories d ->
  In (key, value) git_init_config ->
  gitconfig (git_init dir d) !! (dir, key) = Some value.
Proof.
  intros Hnew Hin. unfold git_init. cbn [gitconfig].
  rewrite decide_False by done. cbn [foldr git_init_config fst snd].
  cbn in Hin. destruct Hin as [[= <- <-]|[[= <- <-]|[[= <- <-]|[[= <- <-]|[]]]]].
  - apply lookup_insert_eq.
  - rewrite lookup_insert_ne by done. apply lookup_insert_eq.
  - rewrite !lookup_insert_ne by done. apply lookup_insert_eq.
  - rewrite !lookup_insert_ne by done. apply lookup_insert_eq.
Qed.

(** C9. [initConfig] works in the system temp directory when no [execDir] is
    given, in [execDir] when that is absolute, and in [execDir] joined to the
    current working directory when it is relative; afterwards that directory
    exists and holds a repository, and [user.name] and [user.email] of that
    repository are the given identity. These two are the only keys
    [initConfig] sets: every other key is as [git init] in that directory
    leaves it, which writes its own keys (section [core]) into a repository it
    creates, and no key of another repository or of another name. *)
Theorem initConfig_effects (os_tmpdir process_cwd : string)
    (path_isAbsolute : string -> bool) (path_join : string -> string -> string)
    (config : IInitConfig) (d : disk) :
  let d' := initConfig os_tmpdir process_cwd path_isAbsolute path_join config d in
  exists dir,
    (execDir config = None -> path_isAbsolute os_tmpdir = true -> dir = os_tmpdir)
    /\ (forall given, execDir config = Some given -> given <> "" ->
          dir = if path_isAbsolute given then given else path_join process_cwd given)
    /\ dir ∈ directories d'
    /\ directories d ⊆ directories d'
    /\ dir ∈ repositories d'
    /\ repositories d ⊆ repositories d'
    /\ gitconfig d' !! (dir, "user.name") = Some (userName config)
    /\ gitconfig d' !! (dir, "user.email") = Some (userEmail config)
    /\ (forall k, k <> (dir, "user.name") -> k <> (dir, "user.email") ->
          gitconfig d' !! k = gitconfig (git_init dir d) !! k)
    /\ (forall r key, (r, key) <> (dir, "user.name") -> (r, key) <> (dir, "user.email") ->
          r <> dir \/ ~ In key (List.map fst git_init_config) ->
          gitconfig d' !! (r, key) = gitconfig d !! (r, key))
    /\ (dir ∉ repositories d ->
        forall key value, In (key, value) git_init_config ->
          gitconfig d' !! (dir, key) = Some value).
Proof.
  intros d'.
  set (chosen := execDir_or_tmpdir os_tmpdir config).
  exists (if path_isAbsolute chosen then chosen else path_join process_cwd chosen).
  subst d'. unfold initConfig. fold chosen.
  set (dir := if path_isAbsolute chosen then chosen else path_join process_cwd chosen).
  assert (Hinit : gitconfig (git_init dir (ensureDirSync dir d)) = gitconfig (git_init dir d))
    by reflexivity.
  unfold git_addConfig. cbn [directories repositories gitconfig]. rewrite Hinit.
  split; [|split; [|split; [|split; [|split; [|split; [|split; [|split; [|split; [|split]]]]]]]]].
  - intros Hnone Habs. unfold dir, chosen, execDir_or_tmpdir. by rewrite Hnone, Habs.
  - intros given Hgiven Hne. unfold dir, chosen, execDir_or_tmpdir. rewrite Hgiven.
    by destruct (String.eqb_spec given "").
  - set_solver.
  - set_solver.
  - set_solver.
  - set_solver.
  - rewrite lookup_insert_ne by done. apply lookup_insert_eq.
  - apply lookup_insert_eq.
  - intros k Hname Hemail. by rewrite !lookup_insert_ne.
  - intros r key Hname Hemail Hother. rewrite !lookup_insert_ne by done.
    by apply lookup_git_init_other.
  - intros Hnew key value Hin.
    assert (Hcore : key <> "user.name" /\ key <> "user.email").
    { cbn in Hin. by destruct Hin as [[= <- <-]|[[= <- <-]|[[= <- <-]|[[= <- <-]|[]]]]]. }
    rewrite !lookup_insert_ne by (intros [= ?]; by destruct Hcore).
    by apply lookup_git_init_new.
Qed.

Lemma initConfig_effects_witness :
  let d' := initConfig "/tmp" "/home/ci" posix_isAbsolute posix_join
              {| userName := "bot"; userEmail := "bot@example.com"; execDir := Some "work" |}
              {| directories := ∅; repositories := ∅; gitconfig := ∅ |} in
  "/home/ci/work" ∈ directories d'
  /\ "/home/ci/work" ∈ repositories d'
  /\ gitconfig d' !! ("/home/ci/work", "user.name") = Some "bot"
  /\ gitconfig d' !! ("/home/ci/work", "user.email") = Some "bot@example.com"
  /\ gitconfig d' !! ("/home/ci/work", "core.bare") = Some "false"
  /\ gitconfig d' !! ("/home/ci/work", "remote.origin.url") = None
  /\ size (gitconfig d') = 6%nat.
Proof.
  intros d'.
  destruct (initConfig_effects "/tmp" "/home/ci" posix_isAbsolute posix_join
              {| userName := "bot"; userEmail := "bot@example.com"; execDir := Some "work" |}
              {| directories := ∅; repositories := ∅; gitconfig := ∅ |})
    as (dir & _ & Hdir & Hexists & _ & Hrepo & _ & Hname & Hemail & _ & Hother & Hcore).
  rewrite (Hdir "work" eq_refl) in Hexists, Hrepo, Hname, Hemail, Hother, Hcore by discriminate.
  do 4 (split; [done|]). split; [|split].
  - apply Hcore; [apply not_elem_of_empty|]. cbn. tauto.
  - rewrite Hother; [reflexivity|done|done|]. right. cbn. intros H.
    repeat destruct H as [H|H]; done.
  - vm_compute. reflexivity.
Defined.

(** ** Whose access token a request carries *)

Lemma lodash_defaults_token_defined (this : Gitee) (o : gmap string json) (token : json) :
  o !! "access_token" = Some token ->
  is_undefined token = false ->
  lodash_defaults o (token_source this) = o.
Proof.
  intros Htoken Hdef. apply map_eq. intros k. rewrite lookup_lodash_defaults.
  unfold token_source. destruct (decide (k = "access_token")) as [->|Hne].
  - rewrite Htoken, lookup_singleton_eq. cbn [defaults_value]. by rewrite Hdef.
  - rewrite lookup_singleton_ne by done. apply defaults_value_None_r.
Qed.

Lemma lodash_defaults_token_missing (this : Gitee) (o : gmap string json) :
  o !! "access_token" = None \/ o !! "access_token" = Some JUndefined ->
  lodash_defaults o (token_source this) = <["access_token" := access_token this]> o.
Proof.
  intros Htoken. apply map_eq. intros k. rewrite lookup_lodash_defaults.
  unfold token_source. destruct (decide (k = "access_token")) as [->|Hne].
  - rewrite lookup_singleton_eq, lookup_insert_eq. by destruct Htoken as [-> | ->].
  - rewrite lookup_singleton_ne, lookup_insert_ne by done. apply defaults_value_None_r.
Qed.

(** X1. [requestV5] sends the caller's own [access_token] when the query
    parameters already have one, and leaves the object as it is; only when
    they have none (or an undefined one) does it write the client's token
    into the object and send that. *)
Theorem requestV5_token_precedence (backend : transport) (this : Gitee)
    (path method : string) (p : loc) (w : world) (o : gmap string json) :
  heap w !! p = Some o ->
  (forall token, o !! "access_token" = Some token -> is_undefined token = false ->
     requestV5 backend this path method p w
     = single_request backend (heap w) w
         {| method := method; url := V5 +:+ path; params := o |} (fun result => result))
  /\ (o !! "access_token" = None \/ o !! "access_token" = Some JUndefined ->
      requestV5 backend this path method p w
      = single_request backend
          (<[p := <["access_token" := access_token this]> o]> (heap w)) w
          {| method := method; url := V5 +:+ path;
             params := <["access_token" := access_token this]> o |}
          (fun result => result)).
Proof.
  intros Hp. split.
  - intros token Htoken Hdef. rewrite (requestV5_run _ _ _ _ _ _ o Hp).
    rewrite (lodash_defaults_token_defined this o token Htoken Hdef).
    by rewrite insert_id.
  - intros Htoken. rewrite (requestV5_run _ _ _ _ _ _ o Hp).
    by rewrite (lodash_defaults_token_missing this o Htoken).
Qed.

Lemma requestV5_token_precedence_witness :
  List.map (fun e => params (fst e) !! "access_token")
    (default [] (log <$> final_world
       (requestV5 (serve_body tag_body) sample_client "/user" "GET" 1%positive
          (sample_world {[ "access_token" := JStr "caller" ]}))))
  = [Some (JStr "caller")].
Proof.
  destruct (requestV5_token_precedence (serve_body tag_body) sample_client "/user" "GET"
              1%positive (sample_world {[ "access_token" := JStr "caller" ]})
              {[ "access_token" := JStr "caller" ]}) as [Hcaller _]; [reflexivity|].
  rewrite (Hcaller (JStr "caller")); reflexivity.
Defined.

(** ** The webhook operations that return nothing *)

Lemma lookup_lodash_omit (o : gmap string json) (keys : list string) (k : string) :
  lodash_omit o keys !! k = if bool_decide (k ∈ keys) then None else o !! k.
Proof.
  unfold lodash_omit. revert o. induction keys as [|key keys IH]; intros o; [done|].
  cbn [List.fold_left]. rewrite IH.
  destruct (decide (key = k)) as [->|Hne].
  - rewrite (bool_decide_eq_true_2 (k ∈ k :: keys)) by apply list_elem_of_here.
    rewrite lookup_delete_eq. by destruct (bool_decide _).
  - rewrite lookup_delete_ne by done.
    destruct (decide (k ∈ keys)) as [Hin|Hin].
    + rewrite !bool_decide_eq_true_2; [done|by apply list_elem_of_further|done].
    + rewrite !bool_decide_eq_false_2; [done| |done].
      intros [?|?]%elem_of_cons; done.
Qed.

Lemma fresh_not_allocated (h : gmap loc (gmap string json)) (p : loc) (o : gmap string json) :
  h !! p = Some o -> fresh (dom h) <> p.
Proof.
  intros Hp Heq. apply (is_fresh (dom h)). rewrite Heq. apply elem_of_dom. eauto.
Qed.

(** X2. [updateWebhook] on valid parameters sends exactly one PATCH request
    to [hooks/<hook_id>]; its query parameters are the caller's without
    [owner], [repo] and [hook_id], with the access token; the caller's object
    is not written to (whether the request succeeds or not), and the response
    is ignored: any response gives [undefined]. *)
Theorem updateWebhook_request (backend : transport) (this : Gitee) (p : loc) (w : world)
    (o : gmap string json) :
  heap w !! p = Some o ->
  is_Some (o !! "owner") -> is_Some (o !! "repo") -> is_Some (o !! "hook_id") ->
  let q := lodash_defaults (lodash_omit o ["owner"; "repo"; "hook_id"]) (token_source this) in
  let h := <[fresh (dom (heap w)) := q]> (heap w) in
  updateWebhook backend this p w
  = single_request backend h w
      {| method := "PATCH";
         url := V5 +:+ "/repos/" +:+ js_ToString (obj_get o "owner") +:+ "/"
                +:+ js_ToString (obj_get o "repo") +:+ "/hooks/"
                +:+ js_ToString (obj_get o "hook_id");
         params := q |}
      (fun _ => tt)
  /\ q !! "owner" = None /\ q !! "repo" = None /\ q !! "hook_id" = None
  /\ (forall k, ~ In k ["owner"; "repo"; "hook_id"; "access_token"] -> q !! k = o !! k)
  /\ h !! p = Some o.
Proof.
  intros Hp Howner Hrepo Hhook q h.
  assert (Hq : forall k, k <> "access_token" ->
                 q !! k = if bool_decide (k ∈ ["owner"; "repo"; "hook_id"])
                          then None else o !! k).
  { intros k Hk. unfold q. rewrite lookup_lodash_defaults. unfold token_source.
    rewrite lookup_singleton_ne by done. rewrite defaults_value_None_r.
    apply lookup_lodash_omit. }
  split; [|split; [|split; [|split; [|split]]]].
  - unfold updateWebhook, validateUpdateWebhookParams. unfold bind at 1.
    rewrite (validate_required_ok _ _ _ o) by (done || by repeat constructor).
    unfold bind at 1, load at 1. rewrite Hp. cbv beta iota zeta.
    unfold bind at 1, alloc.
    rewrite (requestV5_then backend this (fresh (dom (heap w))) _ "PATCH" (fun _ => tt) _
               (lodash_omit o ["owner"; "repo"; "hook_id"]))
      by (cbn [heap]; apply lookup_insert_eq).
    cbn [heap]. rewrite insert_insert_eq. reflexivity.
  - by rewrite Hq.
  - by rewrite Hq.
  - by rewrite Hq.
  - intros k Hk. rewrite Hq by (intros ->; apply Hk; cbn; tauto).
    rewrite bool_decide_eq_false_2; [done|].
    intros Hin%list_elem_of_In. apply Hk. cbn in *. tauto.
  - unfold h. rewrite lookup_insert_ne by (by eapply fresh_not_allocated). done.
Qed.

Lemma updateWebhook_request_witness :
  let w := sample_world (<["url" := JStr "https://example.com/new"]> hook_params) in
  let outcome := updateWebhook (serve_body hook_body) sample_client 1%positive w in
  returned outcome = Some tt
  /\ List.map (fun e => (method (fst e), url (fst e), map_to_list (params (fst e))))
       (default [] (log <$> final_world outcome))
     = [("PATCH", "https://gitee.com/api/v5/repos/octo/demo/hooks/1202839",
         map_to_list ({[ "url" := JStr "https://example.com/new";
                         "access_token" := JStr "t0ken" ]} : gmap string json))]
  /\ (final_world outcome ≫= fun w' => heap w' !! 1%positive)
     = Some (<["url" := JStr "https://example.com/new"]> hook_params).
Proof.
  intros w outcome.
  destruct (updateWebhook_request (serve_body hook_body) sample_client 1%positive w
              (<["url" := JStr "https://example.com/new"]> hook_params))
    as (Hrun & _); [reflexivity|by eexists..|].
  subst outcome. rewrite Hrun. repeat split; vm_compute; reflexivity.
Defined.

(** X3. [deleteWebhook] on valid parameters sends exactly one DELETE request
    to [hooks/<hook_id>] with the access token as its only query parameter;
    the caller's object is not written to, and the response is ignored. *)
Theorem deleteWebhook_request (backend : transport) (this : Gitee) (p : loc) (w : world)
    (o : gmap string json) :
  heap w !! p = Some o ->
  is_Some (o !! "owner") -> is_Some (o !! "repo") -> is_Some (o !! "hook_id") ->
  let h := <[fresh (dom (heap w)) := token_source this]> (heap w) in
  deleteWebhook backend this p w
  = single_request backend h w
      {| method := "DELETE";
         url := V5 +:+ "/repos/" +:+ js_ToString (obj_get o "owner") +:+ "/"
                +:+ js_ToString (obj_get o "repo") +:+ "/hooks/"
                +:+ js_ToString (obj_get o "hook_id");
         params := {[ "access_token" := access_token this ]} |}
      (fun _ => tt)
  /\ h !! p = Some o.
Proof.
  intros Hp Howner Hrepo Hhook h. split.
  - unfold deleteWebhook, validateDeleteWebhookParams. unfold bind at 1.
    rewrite (validate_required_ok _ _ _ o) by (done || by repeat constructor).
    unfold bind at 1, load at 1. rewrite Hp. cbv beta iota zeta.
    apply (requestV5_literal backend this _ "DELETE" (fun _ => tt)).
  - unfold h. rewrite lookup_insert_ne by (by eapply fresh_not_allocated). done.
Qed.

Lemma deleteWebhook_request_witness :
  let outcome := deleteWebhook (serve_body JUndefined) sample_client 1%positive
                   (sample_world hook_params) in
  returned outcome = Some tt
  /\ List.map (fun e => (method (fst e), url (fst e), map_to_list (params (fst e))))
       (default [] (log <$> final_world outcome))
     = [("DELETE", "https://gitee.com/api/v5/repos/octo/demo/hooks/1202839",
         [("access_token", JStr "t0ken")])]
  /\ (final_world outcome ≫= fun w' => heap w' !! 1%positive) = Some hook_params.
Proof.
  intros outcome.
  destruct (deleteWebhook_request (serve_body JUndefined) sample_client 1%positive
              (sample_world hook_params) hook_params)
    as (Hrun & _); [reflexivity|by eexists..|].
  subst outcome. rewrite Hrun. repeat split; vm_compute; reflexivity.
Defined.

(** ** The webhook operations that send the caller's object *)

Lemma lodash_get_plain (m : gmap string json) (key : string) :
  has_dot key = false -> lodash_get (JObj m) key = obj_get m key.
Proof.
  intros Hkey. unfold lodash_get, lodash_get_or, castPath. rewrite Hkey.
  cbn [is_nullish baseGet baseGet_from js_index]. by destruct (obj_get m key).
Qed.

Lemma lookup_defaults_token_other (this : Gitee) (o : gmap string json) (k : string) :
  k <> "access_token" -> lodash_defaults o (token_source this) !! k = o !! k.
Proof.
  intros Hk. rewrite lookup_lodash_defaults. unfold token_source.
  rewrite lookup_singleton_ne by done. apply defaults_value_None_r.
Qed.

(** X4. [createWebhook] on valid parameters sends exactly one POST request to
    the [hooks] endpoint of the repository; the query parameters are the
    caller's object itself, [owner] and [repo] included, into which the access
    token has been written when it had none; the output carries the [id] of
    the response body and the body as [source]. *)
Theorem createWebhook_request (backend : transport) (this : Gitee) (p : loc) (w : world)
    (o : gmap string json) :
  heap w !! p = Some o ->
  is_Some (o !! "owner") -> is_Some (o !! "repo") ->
  let q := lodash_defaults o (token_source this) in
  let of_response := fun result =>
    {| created_id := lodash_get (body_or_empty result) "id";
       created_source := body_or_empty result |} in
  createWebhook backend this p w
  = single_request backend (<[p := q]> (heap w)) w
      {| method := "POST";
         url := V5 +:+ "/repos/" +:+ js_ToString (obj_get o "owner") +:+ "/"
                +:+ js_ToString (obj_get o "repo") +:+ "/hooks";
         params := q |}
      of_response
  /\ (forall k, k <> "access_token" -> q !! k = o !! k)
  /\ (o !! "access_token" = None -> q = <["access_token" := access_token this]> o)
  /\ (forall response hook,
        response !! "data" = Some (JObj hook) ->
        of_response (JObj response)
        = {| created_id := obj_get hook "id"; created_source := JObj hook |}).
Proof.
  intros Hp Howner Hrepo q of_response. split; [|split; [|split]].
  - unfold createWebhook, validateCreateWebhookParams. unfold bind at 1.
    rewrite (validate_required_ok _ _ _ o) by (done || by repeat constructor).
    unfold bind at 1, load at 1. rewrite Hp. cbv beta iota zeta.
    rewrite (requestV5_then backend this p _ "POST"
               (fun result =>
                  {| created_id := lodash_get (lodash_get_or result "data" (JObj ∅)) "id";
                     created_source := lodash_get_or result "data" (JObj ∅) |}) w o Hp).
    unfold single_request, of_response, body_or_empty. destruct (backend _ _); [|done].
    by rewrite lodash_get_or_data.
  - intros k Hk. by apply lookup_defaults_token_other.
  - intros Hnone. apply lodash_defaults_token_missing. by left.
  - intros response hook Hdata. unfold of_response, body_or_empty. cbn [js_index].
    rewrite (obj_get_Some _ _ _ Hdata). cbn [is_undefined].
    by rewrite lodash_get_plain.
Qed.

Lemma createWebhook_request_witness :
  let o := <["url" := JStr "https://example.com/hook"]> sample_params in
  let outcome := createWebhook (serve_body hook_body) sample_client 1%positive
                   (sample_world o) in
  returned outcome = Some {| created_id := JNum 1202839; created_source := hook_body |}
  /\ List.map (fun e => (method (fst e), url (fst e))) (default [] (log <$> final_world outcome))
     = [("POST", "https://gitee.com/api/v5/repos/octo/demo/hooks")]
  /\ (final_world outcome ≫= fun w' => heap w' !! 1%positive)
     = Some (<["access_token" := JStr "t0ken"]> o).
Proof.
  intros o outcome.
  destruct (createWebhook_request (serve_body hook_body) sample_client 1%positive
              (sample_world o) o) as (Hrun & _); [reflexivity|by eexists..|].
  subst outcome. rewrite Hrun. repeat split; vm_compute; reflexivity.
Defined.

(** X5. [getWebhook] on valid parameters sends exactly one GET request to
    [hooks/<hook_id>] with the caller's object (access token written into
    it) as query parameters; the output takes [id] and [url] from the
    response object itself, so for every response object without such
    properties of its own they are undefined, whatever its body holds. *)
Theorem getWebhook_request (backend : transport) (this : Gitee) (p : loc) (w : world)
    (o : gmap string json) :
  heap w !! p = Some o ->
  is_Some (o !! "owner") -> is_Some (o !! "repo") -> is_Some (o !! "hook_id") ->
  let q := lodash_defaults o (token_source this) in
  let of_response := fun result =>
    {| webhook_id := lodash_get result "id";
       webhook_url := lodash_get result "url";
       webhook_source := body_or_empty result |} in
  getWebhook backend this p w
  = single_request backend (<[p := q]> (heap w)) w
      {| method := "GET";
         url := V5 +:+ "/repos/" +:+ js_ToString (obj_get o "owner") +:+ "/"
                +:+ js_ToString (obj_get o "repo") +:+ "/hooks/"
                +:+ js_ToString (obj_get o "hook_id");
         params := q |}
      of_response
  /\ (forall response body,
        response !! "id" = None -> response !! "url" = None ->
        response !! "data" = Some body -> is_undefined body = false ->
        of_response (JObj response)
        = {| webhook_id := JUndefined; webhook_url := JUndefined; webhook_source := body |}).
Proof.
  intros Hp Howner Hrepo Hhook q of_response. split.
  - unfold getWebhook, validateGetWebhookParams. unfold bind at 1.
    rewrite (validate_required_ok _ _ _ o) by (done || by repeat constructor).
    unfold bind at 1, load at 1. rewrite Hp. cbv beta iota zeta.
    rewrite (requestV5_then backend this p _ "GET"
               (fun result =>
                  {| webhook_id := lodash_get result "id";
                     webhook_url := lodash_get result "url";
                     webhook_source := lodash_get_or result "data" (JObj ∅) |}) w o Hp).
    unfold single_request, of_response, body_or_empty. destruct (backend _ _); [|done].
    by rewrite lodash_get_or_data.
  - intros response body Hid Hurl Hdata Hbody. unfold of_response.
    rewrite !lodash_get_plain by reflexivity. unfold body_or_empty, obj_get.
    cbn [js_index]. unfold obj_get. rewrite Hid, Hurl, Hdata. cbn [default id].
    by rewrite Hbody.
Qed.

Lemma getWebhook_request_witness :
  let outcome := getWebhook (serve_body hook_body) sample_client 1%positive
                   (sample_world hook_params) in
  List.map (fun e => (method (fst e), url (fst e))) (default [] (log <$> final_world outcome))
  = [("GET", "https://gitee.com/api/v5/repos/octo/demo/hooks/1202839")]
  /\ (final_world outcome ≫= fun w' => heap w' !! 1%positive)
     = Some (<["access_token" := JStr "t0ken"]> hook_params).
Proof.
  intros outcome.
  destruct (getWebhook_request (serve_body hook_body) sample_client 1%positive
              (sample_world hook_params) hook_params) as (Hrun & _);
    [reflexivity|by eexists..|].
  subst outcome. rewrite Hrun. repeat split; vm_compute; reflexivity.
Defined.

(** ** A list fetch whose request fails *)

Lemma full_page_array (r : reply) (rows : list json) :
  reply_data r = Some (JArr rows) ->
  full_page (JNum 100) r = Nat.eqb (List.length rows) 100.
Proof.
  intros Hdata. unfold full_page. rewrite Hdata. cbn [lodash_size js_strict_eq_num].
  destruct (Nat.eqb_spec (List.length rows) 100) as [->|Hne]; [done|].
  apply Z.eqb_neq. lia.
Qed.

Lemma obj_get_merged_per_page (this : Gitee) (o : gmap string json) :
  o !! "per_page" = None ->
  obj_get (lodash_defaults (lodash_defaults o PARAMS) (token_source this)) "per_page"
  = JNum 100.
Proof.
  intros Hper. rewrite obj_get_defaults_other by reflexivity.
  unfold obj_get. by rewrite lookup_defaults_missing.
Qed.

Section ListOperationThrows.

Variable backend : transport.
Variable this : Gitee.
Context {A : Type}.
Variable required : list string.
Variable path_of : gmap string json -> string.
Variable f : json -> M A.
Variable p : loc.

Local Abbreviation operation fuel :=
  (validate_required required p ;;
   let* o := load p in
   let* q := lodash_defaults_at p PARAMS in
   let* rows := requestList backend this fuel (path_of o) q in
   lodash_map f rows).

(** An operation whose fetch ends with a reply that has no body throws, in
    the world the fetch ended in. *)
Lemma list_operation_throws (fuel n : nat) (w : world) (o : gmap string json) (pg : json) :
  heap w !! p = Some o ->
  Forall (fun k => is_Some (o !! k)) required ->
  lodash_defaults o PARAMS !! "page" = Some pg ->
  let o1 := lodash_defaults (lodash_defaults o PARAMS) (token_source this) in
  let issued := List.length (log w) in
  let r := page_reply backend (path_of o) issued o1 pg n in
  (forall i, (i < n)%nat ->
     full_page (obj_get o1 "per_page") (page_reply backend (path_of o) issued o1 pg i) = true) ->
  reply_data r = None ->
  (n < fuel)%nat ->
  operation fuel w
  = Throw match r with Reject reason => AxiosError reason | Resolve _ => TypeError end
      {| heap := <[p := at_page o1 pg n]> (heap w);
         log := log w ++ fetched_log backend (path_of o) issued o1 pg (S n) |}.
Proof.
  intros Hp Hall Hpage o1 issued r Hfull Hnone Hfuel.
  rewrite (list_operation_valid backend this required path_of f p fuel w o Hp Hall).
  unfold bind, requestList.
  rewrite (requestList_loop_total backend this (path_of o) p fuel n [] _
             (lodash_defaults o PARAMS) pg);
    [|cbn [heap]; apply lookup_insert_eq|done| |done].
  - unfold fetch_outcome. cbn [heap log]. fold o1 issued r. rewrite Hnone.
    by rewrite insert_insert_eq.
  - cbn [log]. fold o1 issued. split; [done|]. fold r. unfold full_page. by rewrite Hnone.
Qed.

End ListOperationThrows.

Section Aborted.

Variable backend : transport.
Variable this : Gitee.
Variable p : loc.
Variable w : world.
Variable o : gmap string json.
Variable pages : nat -> list json.
Variable reason : json.
Variable n : nat.

Hypothesis params_at_p : heap w !! p = Some o.
Hypothesis has_owner : is_Some (o !! "owner").
Hypothesis has_repo : is_Some (o !! "repo").
Hypothesis no_page : o !! "page" = None.
Hypothesis no_per_page : o !! "per_page" = None.
Hypothesis full_pages_before :
  forall i req, (i < n)%nat ->
    reply_data (backend (List.length (log w) + i) req) = Some (JArr (pages i))
    /\ List.length (pages i) = 100%nat.
Hypothesis rejected_then : forall req, backend (List.length (log w) + n) req = Reject reason.

Lemma list_operation_aborted {A} (path_of : gmap string json -> string) (f : json -> M A)
    (fuel : nat) :
  (n < fuel)%nat ->
  aborted_at
    ((validate_required ["owner"; "repo"] p ;;
      let* o := load p in
      let* q := lodash_defaults_at p PARAMS in
      let* rows := requestList backend this fuel (path_of o) q in
      lodash_map f rows) w)
    w p reason n.
Proof.
  intros Hfuel.
  pose proof (list_operation_throws backend this ["owner"; "repo"] path_of f p fuel n w o
                (JNum 1) params_at_p) as Hrun.
  cbv zeta in Hrun.
  assert (Hrejected : page_reply backend (path_of o) (List.length (log w))
                        (lodash_defaults (lodash_defaults o PARAMS) (token_source this))
                        (JNum 1) n = Reject reason) by apply rejected_then.
  rewrite Hrejected in Hrun.
  set (o1 := lodash_defaults (lodash_defaults o PARAMS) (token_source this)) in *.
  exists {| heap := <[p := at_page o1 (JNum 1) n]> (heap w);
            log := log w ++ fetched_log backend (path_of o) (List.length (log w)) o1
                              (JNum 1) (S n) |},
    (fetched_log backend (path_of o) (List.length (log w)) o1 (JNum 1) (S n)),
    (at_page o1 (JNum 1) n).
  split; [|split; [reflexivity|split; [|split]]].
  - apply Hrun; [by repeat constructor|by rewrite lookup_defaults_missing| |done|done].
    intros i Hi. unfold o1. rewrite obj_get_merged_per_page by done. unfold page_reply.
    destruct (full_pages_before i (page_request (path_of o)
                (lodash_defaults (lodash_defaults o PARAMS) (token_source this)) (JNum 1) i) Hi)
      as [Hdata Hlen].
    rewrite (full_page_array _ _ Hdata). by apply Nat.eqb_eq.
  - unfold fetched_log. by rewrite length_map, length_seq.
  - cbn [heap]. apply lookup_insert_eq.
  - unfold at_page. rewrite lookup_insert_eq, iter_add_one_num. do 2 f_equal. lia.
Qed.

End Aborted.

(** X6. When the request for a page is rejected after [n] full pages,
    [listBranchs] and [listWebhook] throw the rejection as it is: the rows of
    the pages already fetched are not returned, no further request is made,
    and the caller's object is left with [page] at the page that failed. *)
Theorem list_fetch_aborts_on_rejection (backend : transport) (this : Gitee)
    (fuel n : nat) (p : loc) (w : world) (o : gmap string json)
    (pages : nat -> list json) (reason : json) :
  heap w !! p = Some o ->
  is_Some (o !! "owner") ->
  is_Some (o !! "repo") ->
  o !! "page" = None ->
  o !! "per_page" = None ->
  (forall i req, (i < n)%nat ->
     reply_data (backend (List.length (log w) + i) req) = Some (JArr (pages i))
     /\ List.length (pages i) = 100%nat) ->
  (forall req, backend (List.length (log w) + n) req = Reject reason) ->
  (n < fuel)%nat ->
  aborted_at (listBranchs backend this fuel p w) w p reason n
  /\ aborted_at (listWebhook backend this fuel p w) w p reason n.
Proof.
  intros Hp Howner Hrepo Hpage Hper Hfull Hreject Hfuel. split.
  - by apply (list_operation_aborted backend this p w o pages reason n Hp Howner Hrepo Hpage
                Hper Hfull Hreject
                (fun o => "/repos/" +:+ js_ToString (obj_get o "owner") +:+ "/"
                          +:+ js_ToString (obj_get o "repo") +:+ "/branches")).
  - by apply (list_operation_aborted backend this p w o pages reason n Hp Howner Hrepo Hpage
                Hper Hfull Hreject
                (fun o => "/repos/" +:+ js_ToString (obj_get o "owner") +:+ "/"
                          +:+ js_ToString (obj_get o "repo") +:+ "/hooks")).
Qed.

Lemma list_fetch_aborts_on_rejection_witness :
  let backend := failing_after 1 (fun _ => sample_rows 100) (JStr "ECONNRESET") in
  aborted_at (listBranchs backend sample_client 5 1%positive (sample_world sample_params))
    (sample_world sample_params) 1%positive (JStr "ECONNRESET") 1
  /\ aborted_at (listWebhook backend sample_client 5 1%positive (sample_world sample_params))
       (sample_world sample_params) 1%positive (JStr "ECONNRESET") 1.
Proof.
  intros backend.
  apply (list_fetch_aborts_on_rejection backend sample_client 5 1 1%positive
           (sample_world sample_params) sample_params (fun _ => sample_rows 100)
           (JStr "ECONNRESET")).
  - reflexivity.
  - by eexists.
  - by eexists.
  - reflexivity.
  - reflexivity.
  - intros i req Hi. destruct i; [|lia]. split; vm_compute; reflexivity.
  - intros req. reflexivity.
  - lia.
Defined.

(** ** List operations over a backend that holds the rows *)

Lemma stops_at_ext (backend backend' : transport) (path : string) (issued : nat)
    (o : gmap string json) (pg pg' : json) (n : nat) :
  (forall i, page_reply backend path issued o pg i = page_reply backend' path issued o pg' i) ->
  stops_at backend' path issued o pg' n -> stops_at backend path issued o pg n.
Proof.
  intros Hext [Hfull Hlast]. split.
  - intros i Hi. rewrite Hext. by apply Hfull.
  - by rewrite Hext.
Qed.

Lemma fetched_rows_ext (backend backend' : transport) (path : string) (issued : nat)
    (o : gmap string json) (pg pg' : json) (m : nat) :
  (forall i, page_reply backend path issued o pg i = page_reply backend' path issued o pg' i) ->
  fetched_rows backend path issued o pg m = fetched_rows backend' path issued o pg' m.
Proof.
  intros Hext. unfold fetched_rows. apply flat_map_ext. intros i. by rewrite Hext.
Qed.

Lemma serve_rows_reply_from (rows : list json) (path : string) (issued : nat)
    (o : gmap string json) (skipped i : nat) :
  obj_get o "per_page" = JNum 100 ->
  page_reply (serve_rows rows) path issued o (JNum (Z.of_nat skipped + 1)) i
  = page_reply (serve_rows (drop (100 * skipped) rows)) path issued o (JNum 1) i.
Proof.
  intros Hper. rewrite (serve_rows_reply (drop (100 * skipped) rows)) by done.
  unfold page_reply, serve_rows, page_request, at_page. cbn [params].
  rewrite obj_get_insert_eq, obj_get_insert_ne, Hper, iter_add_one_num by done.
  rewrite drop_drop. do 5 f_equal. lia.
Qed.

Section OverRows.

Variable rows : list json.
Variable this : Gitee.
Context {A : Type}.
Variable required : list string.
Variable path_of : gmap string json -> string.
Variable f : json -> M A.
Variable g : json -> A.
Variable p : loc.

Local Abbreviation operation fuel :=
  (validate_required required p ;;
   let* o := load p in
   let* q := lodash_defaults_at p PARAMS in
   let* rows := requestList (serve_rows rows) this fuel (path_of o) q in
   lodash_map f rows).

(** Starting at page [skipped + 1], the operation returns the rows from
    [100 * skipped] on. *)
Lemma list_operation_over_rows (fuel skipped : nat) (w : world) (o : gmap string json) :
  heap w !! p = Some o ->
  Forall (fun k => is_Some (o !! k)) required ->
  lodash_defaults o PARAMS !! "page" = Some (JNum (Z.of_nat skipped + 1)) ->
  obj_get (lodash_defaults o PARAMS) "per_page" = JNum 100 ->
  let rest := drop (100 * skipped) rows in
  let n := (List.length rest / 100)%nat in
  (n < fuel)%nat ->
  let o1 := lodash_defaults (lodash_defaults o PARAMS) (token_source this) in
  let w' := {| heap := <[p := at_page o1 (JNum (Z.of_nat skipped + 1)) (S n)]> (heap w);
               log := log w ++ fetched_log (serve_rows rows) (path_of o) (List.length (log w))
                                 o1 (JNum (Z.of_nat skipped + 1)) (S n) |} in
  Forall (fun row => f row w' = Ret (g row) w') rest ->
  operation fuel w = Ret (List.map g rest) w'.
Proof.
  intros Hp Hall Hpage Hper rest n Hfuel o1 w' Hrows.
  assert (Hper1 : obj_get o1 "per_page" = JNum 100).
  { unfold o1. by rewrite obj_get_defaults_other. }
  assert (Hext : forall i,
            page_reply (serve_rows rows) (path_of o) (List.length (log w)) o1
              (JNum (Z.of_nat skipped + 1)) i
            = page_reply (serve_rows rest) (path_of o) (List.length (log w)) o1 (JNum 1) i).
  { intros i. by apply serve_rows_reply_from. }
  assert (Hfetched : fetched_rows (serve_rows rows) (path_of o) (List.length (log w)) o1
                       (JNum (Z.of_nat skipped + 1)) (S n) = rest).
  { rewrite (fetched_rows_ext _ (serve_rows rest) _ _ _ _ (JNum 1)) by done.
    rewrite serve_rows_fetched_rows by done. apply take_ge. unfold n.
    pose proof (Nat.div_mod_eq (List.length rest) 100).
    pose proof (Nat.mod_upper_bound (List.length rest) 100). lia. }
  pose proof (list_operation_total (serve_rows rows) this required path_of f g p fuel n w o
                (JNum (Z.of_nat skipped + 1)) Hp Hall Hpage) as Hrun.
  cbv zeta in Hrun. fold o1 in Hrun. rewrite Hfetched in Hrun. apply Hrun; [| |done|done].
  - apply (stops_at_ext _ (serve_rows rest) _ _ _ _ (JNum 1)); [done|].
    by apply serve_rows_stops.
  - rewrite Hext, serve_rows_reply by done. by eexists.
Qed.

End OverRows.

Lemma branch_rows_read (rows : list json) (w : world) :
  Forall (fun row => is_nullish row = false) rows ->
  Forall (fun row =>
            (let* name := js_member row "name" in
             ret {| branch_name := name;
                    branch_commit_sha := lodash_get row "commit.sha";
                    branch_source := row |}) w
            = Ret {| branch_name := js_index row "name";
                     branch_commit_sha := lodash_get row "commit.sha";
                     branch_source := row |} w) rows.
Proof.
  intros Hrows. eapply Forall_impl; [exact Hrows|].
  intros row Hrow. unfold bind, js_member. by rewrite Hrow.
Qed.

Lemma lookup_defaults_defined (o src : gmap string json) (k : string) (v : json) :
  o !! k = Some v -> is_undefined v = false -> lodash_defaults o src !! k = Some v.
Proof.
  intros Hk Hv. rewrite lookup_lodash_defaults, Hk. destruct (src !! k); [|done].
  cbn [defaults_value]. by rewrite Hv.
Qed.

(** X7. [listBranchs] on an object that carries a [page] of the caller's
    starts there: over a backend holding [rows] it requests the pages
    [page], [page + 1], ... and returns the rows from [100 * (page - 1)] on;
    the rows before are neither requested nor returned. *)
Theorem listBranchs_from_page (rows : list json) (this : Gitee) (fuel skipped : nat)
    (p : loc) (w : world) (o : gmap string json) :
  heap w !! p = Some o ->
  is_Some (o !! "owner") ->
  is_Some (o !! "repo") ->
  o !! "page" = Some (JNum (Z.of_nat skipped + 1)) ->
  o !! "per_page" = None ->
  Forall (fun row => is_nullish row = false) rows ->
  let rest := drop (100 * skipped) rows in
  (List.length rest / 100 < fuel)%nat ->
  exists out w' exchanges,
    listBranchs (serve_rows rows) this fuel p w = Ret out w'
    /\ List.map branch_source out = rest
    /\ log w' = log w ++ exchanges
    /\ List.map requested_page exchanges
       = List.map (fun i => JNum (Z.of_nat skipped + 1 + Z.of_nat i))
           (seq 0 (S (List.length rest / 100))).
Proof.
  intros Hp Howner Hrepo Hpage Hper Hrows rest Hfuel.
  assert (Hrun := list_operation_over_rows rows this ["owner"; "repo"]
             (fun o => "/repos/" +:+ js_ToString (obj_get o "owner") +:+ "/"
                       +:+ js_ToString (obj_get o "repo") +:+ "/branches")
             (fun row => let* name := js_member row "name" in
                         ret {| branch_name := name;
                                branch_commit_sha := lodash_get row "commit.sha";
                                branch_source := row |})
             (fun row => {| branch_name := js_index row "name";
                            branch_commit_sha := lodash_get row "commit.sha";
                            branch_source := row |})
             p fuel skipped w o Hp).
  cbv zeta in Hrun. fold rest in Hrun.
  lazymatch type of Hrun with
  | _ -> _ -> _ -> _ -> _ -> _ = Ret ?out ?w' => exists out, w'
  end.
  eexists. split; [|split; [|split; [reflexivity|]]].
  - apply Hrun.
    + by repeat constructor.
    + by apply lookup_defaults_defined.
    + unfold obj_get. by rewrite lookup_defaults_missing.
    + done.
    + apply branch_rows_read. by apply Forall_drop.
  - rewrite map_map. apply map_id.
  - apply fetched_log_requested_pages.
Qed.

Lemma listBranchs_from_page_witness :
  let o := <["page" := JNum 3]> sample_params in
  exists out w' exchanges,
    listBranchs (serve_rows (sample_rows 205)) sample_client 2 1%positive (sample_world o)
    = Ret out w'
    /\ List.map branch_source out = drop 200 (sample_rows 205)
    /\ log w' = log (sample_world o) ++ exchanges
    /\ List.map requested_page exchanges = [JNum 3].
Proof.
  intros o.
  destruct (listBranchs_from_page (sample_rows 205) sample_client 2 2 1%positive
              (sample_world o) o) as (out & w' & exchanges & Hrun & Hout & Hlog & Hpages).
  - reflexivity.
  - by eexists.
  - by eexists.
  - reflexivity.
  - reflexivity.
  - apply Forall_forall. intros row (i & <- & _)%list_elem_of_In%in_map_iff. reflexivity.
  - vm_compute. lia.
  - exists out, w', exchanges. split; [exact Hrun|]. split; [exact Hout|].
    split; [exact Hlog|]. rewrite Hpages. vm_compute. reflexivity.
Defined.

Lemma lookup_merged_other (this : Gitee) (o : gmap string json) (k : string) :
  ~ In k ["per_page"; "page"; "sort"; "access_token"] ->
  lodash_defaults (lodash_defaults o PARAMS) (token_source this) !! k = o !! k.
Proof.
  intros Hk. rewrite lookup_defaults_token_other by (intros ->; apply Hk; cbn; tauto).
  by rewrite lookup_lodash_defaults, PARAMS_lookup_other, defaults_value_None_r.
Qed.

(** X8. Calling [listBranchs] a second time with the object of a first call
    returns nothing: the first call has left [page] one past its last page in
    the object, so over a backend holding the same rows the second call asks
    for that page only, gets an empty page and returns no branch. *)
Theorem listBranchs_twice_same_params (rows : list json) (this : Gitee)
    (fuel fuel' : nat) (p : loc) (w : world) (o : gmap string json) :
  heap w !! p = Some o ->
  is_Some (o !! "owner") ->
  is_Some (o !! "repo") ->
  o !! "page" = None ->
  o !! "per_page" = None ->
  Forall (fun row => is_nullish row = false) rows ->
  (List.length rows / 100 < fuel)%nat ->
  (0 < fuel')%nat ->
  exists out w1 w2 exchange,
    listBranchs (serve_rows rows) this fuel p w = Ret out w1
    /\ List.map branch_source out = rows
    /\ listBranchs (serve_rows rows) this fuel' p w1 = Ret [] w2
    /\ log w2 = log w1 ++ [exchange]
    /\ requested_page exchange = JNum (Z.of_nat (List.length rows / 100) + 2).
Proof.
  intros Hp Howner Hrepo Hpage Hper Hrows Hfuel Hfuel'.
  set (path_of := fun o : gmap string json =>
         "/repos/" +:+ js_ToString (obj_get o "owner") +:+ "/"
         +:+ js_ToString (obj_get o "repo") +:+ "/branches").
  set (f := fun row => let* name := js_member row "name" in
                       ret {| branch_name := name;
                              branch_commit_sha := lodash_get row "commit.sha";
                              branch_source := row |}).
  set (g := fun row => {| branch_name := js_index row "name";
                          branch_commit_sha := lodash_get row "commit.sha";
                          branch_source := row |}).
  set (n := (List.length rows / 100)%nat) in *.
  set (o1 := lodash_defaults (lodash_defaults o PARAMS) (token_source this)).
  set (o2 := at_page o1 (JNum (Z.of_nat 0 + 1)) (S n)).
  pose proof (Nat.div_mod_eq (List.length rows) 100) as Hdiv.
  pose proof (Nat.mod_upper_bound (List.length rows) 100) as Hmod.
  assert (Hfirst := list_operation_over_rows rows this ["owner"; "repo"] path_of f g
                      p fuel 0 w o Hp).
  cbv zeta in Hfirst. rewrite Nat.mul_0_r, drop_0 in Hfirst. fold n o1 o2 in Hfirst.
  set (w1 := {| heap := <[p := o2]> (heap w);
                log := log w ++ fetched_log (serve_rows rows) (path_of o)
                                  (List.length (log w)) o1 (JNum (Z.of_nat 0 + 1)) (S n) |})
    in *.
  assert (Ho2 : forall k, k <> "page" -> o2 !! k = o1 !! k).
  { intros k Hk. unfold o2, at_page. by rewrite lookup_insert_ne. }
  assert (Ho2page : o2 !! "page" = Some (JNum (Z.of_nat (S n) + 1))).
  { unfold o2, at_page. rewrite lookup_insert_eq, iter_add_one_num. do 2 f_equal. lia. }
  assert (Hsecond := list_operation_over_rows rows this ["owner"; "repo"] path_of f g
                       p fuel' (S n) w1 o2).
  cbv zeta in Hsecond.
  assert (Hrest : drop (100 * S n) rows = []) by (apply drop_ge; unfold n; lia).
  rewrite Hrest in Hsecond. change (List.length (@nil json) / 100)%nat with 0%nat in Hsecond.
  lazymatch type of Hsecond with
  | _ -> _ -> _ -> _ -> _ -> _ -> _ = Ret _ ?w2 => exists (List.map g rows), w1, w2
  end.
  eexists. split; [|split; [|split; [|split]]].
  - apply Hfirst.
    + by repeat constructor.
    + by rewrite lookup_defaults_missing.
    + unfold obj_get. by rewrite lookup_defaults_missing.
    + done.
    + by apply branch_rows_read.
  - rewrite map_map. apply map_id.
  - apply Hsecond.
    + cbn [heap]. apply lookup_insert_eq.
    + repeat constructor.
      * rewrite Ho2 by done. unfold o1. rewrite lookup_merged_other; [done|].
        cbn. intros [?|[?|[?|[?|[]]]]]; done.
      * rewrite Ho2 by done. unfold o1. rewrite lookup_merged_other; [done|].
        cbn. intros [?|[?|[?|[?|[]]]]]; done.
    + by apply lookup_defaults_defined.
    + unfold obj_get. rewrite lookup_lodash_defaults, Ho2 by done.
      unfold o1. rewrite lookup_defaults_token_other by done.
      by rewrite lookup_defaults_missing.
    + done.
    + constructor.
  - cbn [log fetched_log seq List.map]. reflexivity.
  - unfold requested_page, page_exchange, page_request, at_page. cbn [fst params].
    rewrite obj_get_insert_eq. cbn [Nat.iter nat_rect]. f_equal. lia.
Qed.

Lemma listBranchs_twice_same_params_witness :
  exists out w1 w2 exchange,
    listBranchs (serve_rows (sample_rows 5)) sample_client 1 1%positive
      (sample_world sample_params) = Ret out w1
    /\ List.map branch_source out = sample_rows 5
    /\ listBranchs (serve_rows (sample_rows 5)) sample_client 1 1%positive w1 = Ret [] w2
    /\ log w2 = log w1 ++ [exchange]
    /\ requested_page exchange = JNum 2.
Proof.
  apply (listBranchs_twice_same_params (sample_rows 5) sample_client 1 1 1%positive
           (sample_world sample_params) sample_params).
  - reflexivity.
  - by eexists.
  - by eexists.
  - reflexivity.
  - reflexivity.
  - apply Forall_forall. intros row (i & <- & _)%list_elem_of_In%in_map_iff. reflexivity.
  - vm_compute. lia.
  - lia.
Defined.

(** ** A page size that is not a number *)

Section OnePage.

Variable backend : transport.
Variable this : Gitee.
Variable p : loc.
Variable w : world.
Variable o : gmap string json.
Variable size : json.
Variable data : json.

Hypothesis params_at_p : heap w !! p = Some o.
Hypothesis has_owner : is_Some (o !! "owner").
Hypothesis has_repo : is_Some (o !! "repo").
Hypothesis caller_size : o !! "per_page" = Some size.
Hypothesis size_defined : is_undefined size = false.
Hypothesis size_not_number : forall n, size <> JNum n.
Hypothesis first_reply : forall req, reply_data (backend (List.length (log w)) req) = Some data.

Lemma list_operation_one_page {A} (path_of : gmap string json -> string) (f : json -> M A)
    (g : json -> A) (fuel : nat) :
  (0 < fuel)%nat ->
  (forall w', Forall (fun row => f row w' = Ret (g row) w') (spread data)) ->
  exists w' exchange,
    (validate_required ["owner"; "repo"] p ;;
     let* o := load p in
     let* q := lodash_defaults_at p PARAMS in
     let* rows := requestList backend this fuel (path_of o) q in
     lodash_map f rows) w
    = Ret (List.map g (spread data)) w'
    /\ log w' = log w ++ [exchange].
Proof.
  intros Hfuel Hrows.
  destruct (lookup_defaults_PARAMS_page o) as (pg & Hpage & _).
  pose proof (list_operation_total backend this ["owner"; "repo"] path_of f g p fuel 0 w o
                pg params_at_p) as Hrun.
  cbv zeta in Hrun.
  set (o1 := lodash_defaults (lodash_defaults o PARAMS) (token_source this)) in *.
  assert (Hdata : reply_data (page_reply backend (path_of o) (List.length (log w)) o1 pg 0)
                  = Some data).
  { unfold page_reply. rewrite Nat.add_0_r. apply first_reply. }
  assert (Hfetched : fetched_rows backend (path_of o) (List.length (log w)) o1 pg 1
                     = spread data).
  { unfold fetched_rows. cbn [seq List.flat_map]. unfold reply_rows. rewrite Hdata.
    apply app_nil_r. }
  rewrite Hfetched in Hrun. eexists _, _. split.
  - apply Hrun; [by repeat constructor|done| |by rewrite Hdata|done|apply Hrows].
    split; [intros i Hi; lia|]. unfold full_page. rewrite Hdata.
    unfold o1. rewrite obj_get_defaults_other by reflexivity.
    unfold obj_get. rewrite (lookup_defaults_defined _ _ _ size) by done. cbn [default].
    destruct size; try done. by destruct (size_not_number n).
  - cbn [log fetched_log seq List.map]. reflexivity.
Qed.

End OnePage.

(** X9. With a [per_page] of the caller's that is not a number (the string
    ["100"], say), [listWebhook] and [listBranchs] send one request and return
    the rows of its reply, however many they are: the size of a page is never
    strictly equal to such a [per_page]. *)
Theorem non_numeric_per_page_fetches_one_page (backend : transport) (this : Gitee)
    (fuel : nat) (p : loc) (w : world) (o : gmap string json) (size data : json) :
  heap w !! p = Some o ->
  is_Some (o !! "owner") ->
  is_Some (o !! "repo") ->
  o !! "per_page" = Some size ->
  is_undefined size = false ->
  (forall n, size <> JNum n) ->
  (forall req, reply_data (backend (List.length (log w)) req) = Some data) ->
  (0 < fuel)%nat ->
  (exists out w' exchange,
     listWebhook backend this fuel p w = Ret out w'
     /\ List.map webhook_source out = spread data
     /\ log w' = log w ++ [exchange])
  /\ (Forall (fun row => is_nullish row = false) (spread data) ->
      exists out w' exchange,
        listBranchs backend this fuel p w = Ret out w'
        /\ List.map branch_source out = spread data
        /\ log w' = log w ++ [exchange]).
Proof.
  intros Hp Howner Hrepo Hsize Hdefined Hnot Hreply Hfuel. split.
  - destruct (list_operation_one_page backend this p w o size data Hp Howner Hrepo Hsize
                Hdefined Hnot Hreply
                (fun o => "/repos/" +:+ js_ToString (obj_get o "owner") +:+ "/"
                          +:+ js_ToString (obj_get o "repo") +:+ "/hooks")
                (fun row => ret {| webhook_id := lodash_get row "id";
                                   webhook_url := lodash_get row "url";
                                   webhook_source := row |})
                (fun row => {| webhook_id := lodash_get row "id";
                               webhook_url := lodash_get row "url";
                               webhook_source := row |}) fuel Hfuel)
      as (w' & exchange & Hrun & Hlog).
    { intros w'. by apply Forall_forall. }
    eexists _, w', exchange. split; [exact Hrun|]. split; [|done].
    rewrite map_map. apply map_id.
  - intros Hrows.
    destruct (list_operation_one_page backend this p w o size data Hp Howner Hrepo Hsize
                Hdefined Hnot Hreply
                (fun o => "/repos/" +:+ js_ToString (obj_get o "owner") +:+ "/"
                          +:+ js_ToString (obj_get o "repo") +:+ "/branches")
                (fun row => let* name := js_member row "name" in
                            ret {| branch_name := name;
                                   branch_commit_sha := lodash_get row "commit.sha";
                                   branch_source := row |})
                (fun row => {| branch_name := js_index row "name";
                               branch_commit_sha := lodash_get row "commit.sha";
                               branch_source := row |}) fuel Hfuel)
      as (w' & exchange & Hrun & Hlog).
    { intros w'. by apply branch_rows_read. }
    eexists _, w', exchange. split; [exact Hrun|]. split; [|done].
    rewrite map_map. apply map_id.
Qed.

Lemma non_numeric_per_page_fetches_one_page_witness :
  let o := <["per_page" := JStr "100"]> sample_params in
  let backend := serve_body (JArr (sample_rows 100)) in
  exists out w' exchange,
    listWebhook backend sample_client 1 1%positive (sample_world o) = Ret out w'
    /\ List.map webhook_source out = sample_rows 100
    /\ log w' = log (sample_world o) ++ [exchange].
Proof.
  intros o backend.
  destruct (non_numeric_per_page_fetches_one_page backend sample_client 1 1%positive
              (sample_world o) o (JStr "100") (JArr (sample_rows 100))) as [Hhooks _].
  - reflexivity.
  - by eexists.
  - by eexists.
  - reflexivity.
  - reflexivity.
  - discriminate.
  - intros req. reflexivity.
  - lia.
  - exact Hhooks.
Defined.

(** ** [listRepos] over a backend that holds the rows *)

Section Repos.

Variable backend : transport.
Variable this : Gitee.

Lemma listRepos_start (fuel : nat) (w : world) :
  listRepos backend this fuel w
  = (let* rows := requestList backend this fuel "/user/repos" (fresh (dom (heap w))) in
     lodash_map (fun row =>
       let* id := js_member row "id" in
       let* name := js_member row "name" in
       let* html_url := js_member row "html_url" in
       ret {| repo_id := id; repo_name := name; repo_url := html_url; repo_source := row |})
       rows)
      {| heap := <[fresh (dom (heap w))
                   := lodash_defaults {[ "affiliation" := JStr "owner" ]} PARAMS]> (heap w);
         log := log w |}.
Proof.
  unfold listRepos. unfold bind at 1, alloc. unfold bind at 1, lodash_defaults_at, bind at 1.
  unfold load at 1. cbn [heap log]. rewrite lookup_insert_eq.
  unfold bind at 1, store at 1, bind at 1, ret at 1. cbn [heap log].
  by rewrite insert_insert_eq.
Qed.

Lemma repo_rows_read (rows : list json) (w : world) :
  Forall (fun row => is_nullish row = false) rows ->
  Forall (fun row =>
            (let* id := js_member row "id" in
             let* name := js_member row "name" in
             let* html_url := js_member row "html_url" in
             ret {| repo_id := id; repo_name := name; repo_url := html_url;
                    repo_source := row |}) w
            = Ret {| repo_id := js_index row "id"; repo_name := js_index row "name";
                     repo_url := js_index row "html_url"; repo_source := row |} w) rows.
Proof.
  intros Hrows. eapply Forall_impl; [exact Hrows|].
  intros row Hrow. unfold bind, js_member. by rewrite Hrow.
Qed.

End Repos.

(** X10. [listRepos] returns every row a backend holds, once and in order:
    each call builds its own query parameters ([affiliation] 'owner', the
    defaults, the access token), so it starts at page 1 whatever was called
    before, asks for the pages 1, 2, ... of [/user/repos], and writes to no
    object that existed before the call. *)
Theorem listRepos_returns_all_rows (rows : list json) (this : Gitee) (fuel : nat)
    (w : world) :
  Forall (fun row => is_nullish row = false) rows ->
  (List.length rows / 100 < fuel)%nat ->
  exists out w' exchanges,
    listRepos (serve_rows rows) this fuel w = Ret out w'
    /\ List.map repo_source out = rows
    /\ List.map repo_id out = List.map (fun row => js_index row "id") rows
    /\ log w' = log w ++ exchanges
    /\ List.map requested_page exchanges
       = List.map (fun i => JNum (1 + Z.of_nat i)) (seq 0 (S (List.length rows / 100)))
    /\ (forall e, In e exchanges ->
          method (fst e) = "GET"
          /\ url (fst e) = V5 +:+ "/user/repos"
          /\ params (fst e) !! "affiliation" = Some (JStr "owner")
          /\ params (fst e) !! "access_token" = Some (access_token this))
    /\ (forall l o, heap w !! l = Some o -> heap w' !! l = Some o).
Proof.
  intros Hrows Hfuel.
  set (n := (List.length rows / 100)%nat) in *.
  set (l := fresh (dom (heap w))).
  set (o := lodash_defaults {[ "affiliation" := JStr "owner" ]} PARAMS).
  set (o1 := lodash_defaults o (token_source this)).
  set (w1 := {| heap := <[l := o]> (heap w); log := log w |}).
  set (g := fun row => {| repo_id := js_index row "id"; repo_name := js_index row "name";
                          repo_url := js_index row "html_url"; repo_source := row |}).
  assert (Hper1 : obj_get o1 "per_page" = JNum 100).
  { unfold o1. by rewrite obj_get_defaults_other. }
  pose proof (Nat.div_mod_eq (List.length rows) 100) as Hdiv.
  pose proof (Nat.mod_upper_bound (List.length rows) 100) as Hmod.
  exists (List.map g rows),
    {| heap := <[l := at_page o1 (JNum 1) (S n)]> (heap w);
       log := log w ++ fetched_log (serve_rows rows) "/user/repos" (List.length (log w))
                         o1 (JNum 1) (S n) |},
    (fetched_log (serve_rows rows) "/user/repos" (List.length (log w)) o1 (JNum 1) (S n)).
  split; [|split; [|split; [|split; [|split; [|split]]]]].
  - rewrite listRepos_start. fold l o w1. unfold bind, requestList.
    rewrite (requestList_loop_total (serve_rows rows) this "/user/repos" l fuel n [] w1 o
               (JNum 1));
      [|apply lookup_insert_eq|reflexivity|by apply serve_rows_stops|done].
    unfold fetch_outcome. fold o1. cbn [heap log w1].
    rewrite serve_rows_reply, reply_data_response by done.
    rewrite serve_rows_fetched_rows, insert_insert_eq by done. cbn [app].
    rewrite take_ge by (unfold n; lia).
    apply lodash_map_pure. by apply repo_rows_read.
  - rewrite map_map. apply map_id.
  - by rewrite map_map.
  - reflexivity.
  - apply fetched_log_requested_pages.
  - unfold fetched_log. intros e (i & <- & _)%in_map_iff.
    unfold page_exchange, page_request, at_page. cbn [fst method url params].
    split; [done|]. split; [done|]. rewrite !lookup_insert_ne by done.
    unfold o1. rewrite !lookup_lodash_defaults. split; reflexivity.
  - intros l0 o0 Hl0. cbn [heap]. rewrite lookup_insert_ne; [done|].
    by eapply fresh_not_allocated.
Qed.

Lemma listRepos_returns_all_rows_witness :
  exists out w' exchanges,
    listRepos (serve_rows (sample_rows 3)) sample_client 1 (sample_world sample_params)
    = Ret out w'
    /\ List.map repo_source out = sample_rows 3
    /\ log w' = exchanges
    /\ List.map requested_page exchanges = [JNum 1]
    /\ heap w' !! 1%positive = Some sample_params.
Proof.
  destruct (listRepos_returns_all_rows (sample_rows 3) sample_client 1
              (sample_world sample_params))
    as (out & w' & exchanges & Hrun & Hsource & _ & Hlog & Hpages & _ & Hframe).
  - apply Forall_forall. intros row (i & <- & _)%list_elem_of_In%in_map_iff. reflexivity.
  - vm_compute. lia.
  - exists out, w', exchanges. split; [exact Hrun|]. split; [exact Hsource|].
    split; [exact Hlog|]. split; [exact Hpages|]. by apply Hframe.
Defined.

(** ** Rows that are null *)

Lemma lodash_map_throws {A} (f : json -> M A) (rows : list json) (w : world) :
  (forall row, is_nullish row = true -> f row w = Throw TypeError w) ->
  (forall row, is_nullish row = false -> exists x, f row w = Ret x w) ->
  Exists (fun row => is_nullish row = true) rows ->
  lodash_map f rows w = Throw TypeError w.
Proof.
  intros Hnull Hother. induction 1 as [row rows Hrow|row rows _ IH]; cbn [lodash_map].
  - unfold bind. by rewrite Hnull.
  - unfold bind. destruct (is_nullish row) eqn:Hrow.
    + by rewrite Hnull.
    + destruct (Hother row Hrow) as [x ->]. by rewrite IH.
Qed.

Section Mapped.

Variable backend : transport.
Variable this : Gitee.
Context {A : Type}.
Variable required : list string.
Variable path_of : gmap string json -> string.
Variable f : json -> M A.
Variable p : loc.

(** An operation whose fetch returns goes on to map the fetched rows. *)
Lemma list_operation_maps (fuel n : nat) (w : world) (o : gmap string json) (pg : json) :
  heap w !! p = Some o ->
  Forall (fun k => is_Some (o !! k)) required ->
  lodash_defaults o PARAMS !! "page" = Some pg ->
  let o1 := lodash_defaults (lodash_defaults o PARAMS) (token_source this) in
  let issued := List.length (log w) in
  stops_at backend (path_of o) issued o1 pg n ->
  is_Some (reply_data (page_reply backend (path_of o) issued o1 pg n)) ->
  (n < fuel)%nat ->
  (validate_required required p ;;
   let* o := load p in
   let* q := lodash_defaults_at p PARAMS in
   let* rows := requestList backend this fuel (path_of o) q in
   lodash_map f rows) w
  = lodash_map f (fetched_rows backend (path_of o) issued o1 pg (S n))
      {| heap := <[p := at_page o1 pg (S n)]> (heap w);
         log := log w ++ fetched_log backend (path_of o) issued o1 pg (S n) |}.
Proof.
  intros Hp Hall Hpage o1 issued Hstop [data Hdata] Hfuel.
  rewrite (list_operation_valid backend this required path_of f p fuel w o Hp Hall).
  unfold bind, requestList.
  rewrite (requestList_loop_total backend this (path_of o) p fuel n [] _
             (lodash_defaults o PARAMS) pg);
    [|cbn [heap]; apply lookup_insert_eq|done|done|done].
  unfold fetch_outcome. cbn [heap log]. fold o1 issued. rewrite Hdata.
  by rewrite insert_insert_eq.
Qed.

End Mapped.

(** X11. A null (or undefined) row in a fetched page makes [listBranchs]
    throw a [TypeError] once all pages have been fetched, and no branch is
    returned; [listWebhook], which reads its rows with [_.get], returns one
    output per row all the same, the null row as a [source] without [id] and
    [url]. *)
Theorem null_row_breaks_listBranchs (backend : transport) (this : Gitee)
    (fuel n : nat) (p : loc) (w : world) (o : gmap string json)
    (pages : nat -> list json) :
  heap w !! p = Some o ->
  is_Some (o !! "owner") ->
  is_Some (o !! "repo") ->
  o !! "page" = None ->
  o !! "per_page" = None ->
  serves backend (List.length (log w)) pages n ->
  (forall i, (i < n)%nat -> List.length (pages i) = 100%nat) ->
  List.length (pages n) <> 100%nat ->
  (exists i row, (i <= n)%nat /\ In row (pages i) /\ is_nullish row = true) ->
  (n < fuel)%nat ->
  (exists w' exchanges,
     listBranchs backend this fuel p w = Throw TypeError w'
     /\ log w' = log w ++ exchanges
     /\ List.length exchanges = S n)
  /\ (exists out w',
        listWebhook backend this fuel p w = Ret out w'
        /\ List.map webhook_source out = concat (List.map pages (seq 0 (S n)))
        /\ (forall hook, In hook out -> is_nullish (webhook_source hook) = true ->
              webhook_id hook = JUndefined /\ webhook_url hook = JUndefined)).
Proof.
  intros Hp Howner Hrepo Hpage Hper Hserved Hfull Hshort (i & row & Hi & Hrow & Hnull) Hfuel.
  set (o1 := lodash_defaults (lodash_defaults o PARAMS) (token_source this)).
  assert (Hper1 : obj_get o1 "per_page" = JNum 100) by by apply obj_get_merged_per_page.
  assert (Hstop : forall path,
            stops_at backend path (List.length (log w)) o1 (JNum 1) n).
  { intros path. unfold stops_at. rewrite Hper1. split.
    - intros j Hj. rewrite (served_full_page _ _ _ _ pages n) by (done || lia).
      apply Nat.eqb_eq, Hfull, Hj.
    - rewrite (served_full_page _ _ _ _ pages n) by (done || lia). by apply Nat.eqb_neq. }
  assert (Hrows : forall path,
            fetched_rows backend path (List.length (log w)) o1 (JNum 1) (S n)
            = concat (List.map pages (seq 0 (S n)))).
  { intros path. by apply (served_fetched_rows _ _ _ _ pages n). }
  set (ended := fun path =>
         {| heap := <[p := at_page o1 (JNum 1) (S n)]> (heap w);
            log := log w ++ fetched_log backend path (List.length (log w)) o1 (JNum 1)
                              (S n) |}).
  split.
  - exists (ended ("/repos/" +:+ js_ToString (obj_get o "owner") +:+ "/"
                   +:+ js_ToString (obj_get o "repo") +:+ "/branches")).
    eexists. split; [|split; [reflexivity|]].
    + unfold listBranchs, validateListBranchsParams.
      rewrite (list_operation_maps backend this ["owner"; "repo"]
                 (fun o => "/repos/" +:+ js_ToString (obj_get o "owner") +:+ "/"
                           +:+ js_ToString (obj_get o "repo") +:+ "/branches")
                 _ p fuel n w o (JNum 1) Hp);
        [|by repeat constructor|by rewrite lookup_defaults_missing|apply Hstop
         |rewrite (served_reply_data _ _ _ _ pages n) by done; eauto|done].
      fold o1. rewrite Hrows.
      apply lodash_map_throws.
      * intros row0 Hrow0. unfold bind, js_member. by rewrite Hrow0.
      * intros row0 Hrow0. unfold bind, js_member. rewrite Hrow0. by eexists.
      * apply Exists_exists. exists row. split; [|done].
        apply list_elem_of_In, in_concat. exists (pages i). split; [|done].
        apply in_map, in_seq. lia.
    + unfold fetched_log. by rewrite length_map, length_seq.
  - eexists _, (ended ("/repos/" +:+ js_ToString (obj_get o "owner") +:+ "/"
                       +:+ js_ToString (obj_get o "repo") +:+ "/hooks")).
    split; [|split].
    + unfold listWebhook, validateListWebhookParams.
      rewrite (list_operation_maps backend this ["owner"; "repo"]
                 (fun o => "/repos/" +:+ js_ToString (obj_get o "owner") +:+ "/"
                           +:+ js_ToString (obj_get o "repo") +:+ "/hooks")
                 _ p fuel n w o (JNum 1) Hp);
        [|by repeat constructor|by rewrite lookup_defaults_missing|apply Hstop
         |rewrite (served_reply_data _ _ _ _ pages n) by done; eauto|done].
      fold o1. rewrite Hrows.
      apply (lodash_map_pure _ (fun row => {| webhook_id := lodash_get row "id";
                                              webhook_url := lodash_get row "url";
                                              webhook_source := row |})).
      by apply Forall_forall.
    + rewrite map_map. apply map_id.
    + intros hook (row0 & <- & _)%in_map_iff. cbn [webhook_source webhook_id webhook_url].
      intros Hnull0. unfold lodash_get, lodash_get_or. by rewrite Hnull0.
Qed.

Lemma null_row_breaks_listBranchs_witness :
  let backend := serve_pages (fun _ => [sample_row 0; JNull]) in
  thrown (listBranchs backend sample_client 1 1%positive (sample_world sample_params))
  = Some TypeError
  /\ returned (listWebhook backend sample_client 1 1%positive (sample_world sample_params))
     = Some [{| webhook_id := JUndefined; webhook_url := JUndefined;
                webhook_source := sample_row 0 |};
             {| webhook_id := JUndefined; webhook_url := JUndefined;
                webhook_source := JNull |}].
Proof.
  intros backend.
  destruct (null_row_breaks_listBranchs backend sample_client 1 0 1%positive
              (sample_world sample_params) sample_params (fun _ => [sample_row 0; JNull]))
    as [(w1 & exchanges & Hbranches & _) (out & w2 & Hhooks & Hsources & _)].
  - reflexivity.
  - by eexists.
  - by eexists.
  - reflexivity.
  - reflexivity.
  - intros i req Hi. reflexivity.
  - intros i Hi. lia.
  - vm_compute. lia.
  - exists 0%nat, JNull. split; [lia|]. split; [right; by left|reflexivity].
  - lia.
  - rewrite Hbranches. split; [reflexivity|]. vm_compute. reflexivity.
Defined.

(** ** Access tokens that are not strings *)

(** X12. The constructor takes a token for missing whenever [_.isEmpty] says
    so: a number, a boolean or null as [access_token] is rejected with the
    error of a missing token, whatever its value, and so are an empty array
    and an empty object. *)
Theorem constructor_rejects_non_string_tokens (cfg : gmap string json) (token : json) :
  cfg !! "access_token" = Some token ->
  match token with
  | JNum _ | JBool _ | JNull | JNaN => True
  | JArr xs => xs = []
  | JObj kvs => kvs = ∅
  | _ => False
  end ->
  Gitee_constructor (JObj cfg) = Abrupt (Error "Access token is required").
Proof.
  intros Htoken Hkind.
  unfold Gitee_constructor, Base_constructor. rewrite lodash_get_plain by reflexivity.
  rewrite (obj_get_Some _ _ _ Htoken).
  destruct token; try done; cbn [lodash_isEmpty]; subst; try done.
Qed.

Lemma constructor_rejects_non_string_tokens_witness :
  Gitee_constructor (JObj {[ "access_token" := JNum 12345 ]})
  = Abrupt (Error "Access token is required").
Proof.
  apply (constructor_rejects_non_string_tokens {[ "access_token" := JNum 12345 ]}
           (JNum 12345)); [reflexivity|exact I].
Defined.

(** ** [initConfig], again *)

(** X13. Running [initConfig] again for the same directory replaces the
    identity and changes nothing else: the result is the one of the second
    run alone. In particular [initConfig] is idempotent. *)
Theorem initConfig_again (os_tmpdir process_cwd : string)
    (path_isAbsolute : string -> bool) (path_join : string -> string -> string)
    (first second : IInitConfig) (d : disk) :
  execDir second = execDir first ->
  initConfig os_tmpdir process_cwd path_isAbsolute path_join second
    (initConfig os_tmpdir process_cwd path_isAbsolute path_join first d)
  = initConfig os_tmpdir process_cwd path_isAbsolute path_join second d.
Proof.
  intros Hdir. unfold initConfig, execDir_or_tmpdir. rewrite Hdir.
  set (chosen := match execDir first with
                 | Some dir => if String.eqb dir "" then os_tmpdir else dir
                 | None => os_tmpdir
                 end).
  set (dir := if path_isAbsolute chosen then chosen else path_join process_cwd chosen).
  unfold git_addConfig, git_init, ensureDirSync.
  cbn [directories repositories gitconfig].
  rewrite (decide_True (P := dir ∈ {[dir]} ∪ repositories d)) by set_solver.
  f_equal.
  - by rewrite (assoc_L (∪)), (idemp_L (∪)).
  - by rewrite (assoc_L (∪)), (idemp_L (∪)).
  - apply map_eq. intros k.
    destruct (decide (k = (dir, "user.email"))) as [->|Hemail].
    { by rewrite !lookup_insert_eq. }
    rewrite (lookup_insert_ne _ (dir, "user.email") k) by done.
    rewrite (lookup_insert_ne _ (dir, "user.email") k) by done.
    destruct (decide (k = (dir, "user.name"))) as [->|Hname].
    { by rewrite !lookup_insert_eq. }
    by rewrite !lookup_insert_ne.
Qed.

Lemma initConfig_again_witness :
  let first := {| userName := "bot"; userEmail := "bot@example.com"; execDir := Some "work" |} in
  let second := {| userName := "ci"; userEmail := "ci@example.com"; execDir := Some "work" |} in
  let d := {| directories := ∅; repositories := ∅; gitconfig := ∅ |} in
  initConfig "/tmp" "/home/ci" posix_isAbsolute posix_join second
    (initConfig "/tmp" "/home/ci" posix_isAbsolute posix_join first d)
  = initConfig "/tmp" "/home/ci" posix_isAbsolute posix_join second d.
Proof.
  intros first second d.
  apply (initConfig_again "/tmp" "/home/ci" posix_isAbsolute posix_join first second d).
  reflexivity.
Defined.

(** ** A backend whose pages are always full *)

Lemma requestList_never_returns (backend : transport) (this : Gitee) (path : string)
    (p : loc) (fuel : nat) (w : world) (o : gmap string json) (pg : json) :
  heap w !! p = Some o ->
  o !! "page" = Some pg ->
  (forall i,
     full_page (obj_get (lodash_defaults o (token_source this)) "per_page")
       (page_reply backend path (List.length (log w))
          (lodash_defaults o (token_source this)) pg i) = true) ->
  requestList backend this fuel path p w = OutOfFuel.
Proof.
  intros Hp Hpage Hfull. unfold requestList.
  destruct (requestList_loop backend this fuel path p [] w) as [rows w'|e w'|] eqn:Hrun;
    [| |done].
  - destruct (requestList_loop_partial backend this path p fuel [] w o pg Hp Hpage)
      as (n & _ & [_ Hlast] & _); [by rewrite Hrun|]. by rewrite Hfull in Hlast.
  - destruct (requestList_loop_partial backend this path p fuel [] w o pg Hp Hpage)
      as (n & _ & [_ Hlast] & _); [by rewrite Hrun|]. by rewrite Hfull in Hlast.
Qed.

Section AlwaysFull.

Variable backend : transport.
Variable this : Gitee.
Variable p : loc.
Variable w : world.
Variable o : gmap string json.
Variable pages : nat -> list json.

Hypothesis params_at_p : heap w !! p = Some o.
Hypothesis has_owner : is_Some (o !! "owner").
Hypothesis has_repo : is_Some (o !! "repo").
Hypothesis no_per_page : o !! "per_page" = None.
Hypothesis always_full :
  forall i req,
    reply_data (backend (List.length (log w) + i) req) = Some (JArr (pages i))
    /\ List.length (pages i) = 100%nat.

Lemma list_operation_never_returns {A} (path_of : gmap string json -> string)
    (f : json -> M A) (fuel : nat) :
  (validate_required ["owner"; "repo"] p ;;
   let* o := load p in
   let* q := lodash_defaults_at p PARAMS in
   let* rows := requestList backend this fuel (path_of o) q in
   lodash_map f rows) w
  = OutOfFuel.
Proof.
  rewrite (list_operation_valid backend this ["owner"; "repo"] path_of f p fuel w o
             params_at_p) by (by repeat constructor).
  destruct (lookup_defaults_PARAMS_page o) as (pg & Hpage & _).
  unfold bind.
  rewrite (requestList_never_returns backend this (path_of o) p fuel _
             (lodash_defaults o PARAMS) pg); [done|apply lookup_insert_eq|done|].
  intros i. cbn [log]. rewrite obj_get_merged_per_page by done. unfold page_reply.
  destruct (always_full i (page_request (path_of o)
              (lodash_defaults (lodash_defaults o PARAMS) (token_source this)) pg i))
    as [Hdata Hlen].
  rewrite (full_page_array _ _ Hdata). by apply Nat.eqb_eq.
Qed.

End AlwaysFull.

(** X14. The fetch has no bound of its own on the number of pages: against a
    backend whose every page has 100 rows (one that ignores [page], say),
    [listBranchs] and [listWebhook] never return, however many iterations
    they are allowed. *)
Theorem list_fetch_unbounded (backend : transport) (this : Gitee) (p : loc) (w : world)
    (o : gmap string json) (pages : nat -> list json) :
  heap w !! p = Some o ->
  is_Some (o !! "owner") ->
  is_Some (o !! "repo") ->
  o !! "per_page" = None ->
  (forall i req,
     reply_data (backend (List.length (log w) + i) req) = Some (JArr (pages i))
     /\ List.length (pages i) = 100%nat) ->
  forall fuel,
    listBranchs backend this fuel p w = OutOfFuel
    /\ listWebhook backend this fuel p w = OutOfFuel.
Proof.
  intros Hp Howner Hrepo Hper Hfull fuel. split.
  - apply (list_operation_never_returns backend this p w o pages Hp Howner Hrepo Hper Hfull
             (fun o => "/repos/" +:+ js_ToString (obj_get o "owner") +:+ "/"
                       +:+ js_ToString (obj_get o "repo") +:+ "/branches")).
  - apply (list_operation_never_returns backend this p w o pages Hp Howner Hrepo Hper Hfull
             (fun o => "/repos/" +:+ js_ToString (obj_get o "owner") +:+ "/"
                       +:+ js_ToString (obj_get o "repo") +:+ "/hooks")).
Qed.

Lemma list_fetch_unbounded_witness :
  listBranchs (serve_body (JArr (sample_rows 100))) sample_client 50 1%positive
    (sample_world sample_params) = OutOfFuel
  /\ listWebhook (serve_body (JArr (sample_rows 100))) sample_client 50 1%positive
       (sample_world sample_params) = OutOfFuel.
Proof.
  apply (list_fetch_unbounded (serve_body (JArr (sample_rows 100))) sample_client 1%positive
           (sample_world sample_params) sample_params (fun _ => sample_rows 100)).
  - reflexivity.
  - by eexists.
  - by eexists.
  - reflexivity.
  - intros i req. split; vm_compute; reflexivity.
Defined.

(** ** What [getRefCommit] reads in the body *)

Section RefCommit.

Variable backend : transport.
Variable this : Gitee.
Variable p : loc.

Lemma getRefCommit_run (w : world) (o : gmap string json) :
  heap w !! p = Some o ->
  Forall (fun k => is_Some (o !! k)) ["owner"; "repo"; "ref"] ->
  let repository :=
    "/repos/" +:+ js_ToString (obj_get o "owner") +:+ "/" +:+ js_ToString (obj_get o "repo") in
  let ref := obj_get o "ref" in
  let branch :=
    if lodash_startsWith ref "refs/heads/"
    then JStr (lodash_replace ref "refs/heads/" "") else ref in
  let h := <[fresh (dom (heap w)) := token_source this]> (heap w) in
  getRefCommit backend this p w
  = if lodash_startsWith ref "refs/tags/"
    then single_request backend h w
           {| method := "GET";
              url := V5 +:+ "/repos/" +:+ js_ToString (obj_get o "owner") +:+ "/"
                     +:+ js_ToString (obj_get o "repo") +:+ "/releases/tags/"
                     +:+ lodash_replace ref "refs/tags/" "";
              params := token_source this |}
           (fun result =>
              {| commit_sha := lodash_get (body_or_empty result) "target_commitish";
                 commit_message := lodash_get (body_or_empty result) "tag_name";
                 commit_source := body_or_empty result |})
    else single_request backend h w
           {| method := "GET";
              url := V5 +:+ "/repos/" +:+ js_ToString (obj_get o "owner") +:+ "/"
                     +:+ js_ToString (obj_get o "repo") +:+ "/branches/"
                     +:+ js_ToString branch;
              params := token_source this |}
           (fun result =>
              {| commit_sha := lodash_get (body_or_empty result) "commit.sha";
                 commit_message := lodash_get (body_or_empty result) "commit.commit.message";
                 commit_source := body_or_empty result |}).
Proof.
  intros Hp Hall repository ref branch h.
  unfold getRefCommit, validateGetRefCommitParams. unfold bind at 1.
  rewrite (validate_required_ok _ _ _ o) by done.
  unfold bind at 1, load at 1. rewrite Hp. cbv beta iota zeta. fold ref.
  destruct (lodash_startsWith ref "refs/tags/").
  - rewrite (requestV5_literal backend this _ "GET"
               (fun result =>
                  {| commit_sha := lodash_get (lodash_get_or result "data" (JObj ∅))
                                     "target_commitish";
                     commit_message := lodash_get (lodash_get_or result "data" (JObj ∅))
                                         "tag_name";
                     commit_source := lodash_get_or result "data" (JObj ∅) |})).
    unfold single_request, body_or_empty. destruct (backend _ _); [|done].
    by rewrite lodash_get_or_data.
  - rewrite (requestV5_literal backend this _ "GET"
               (fun result =>
                  {| commit_sha := lodash_get (lodash_get_or result "data" (JObj ∅))
                                     "commit.sha";
                     commit_message := lodash_get (lodash_get_or result "data" (JObj ∅))
                                         "commit.commit.message";
                     commit_source := lodash_get_or result "data" (JObj ∅) |})).
    unfold single_request, body_or_empty. destruct (backend _ _); [|done].
    by rewrite lodash_get_or_data.
Qed.

End RefCommit.

Lemma returned_single_request {A} (backend : transport) (h : gmap loc (gmap string json))
    (w : world) (req : request) (k : json -> A) (result : json) :
  backend (List.length (log w)) req = Resolve result ->
  returned (single_request backend h w req k) = Some (k result).
Proof. intros Hreply. unfold single_request. by rewrite Hreply. Qed.

(** X15. What [getRefCommit] returns for the bodies the two endpoints send:
    for a tag, [sha] is the [target_commitish] of the body and [message] its
    [tag_name]; for a branch, [sha] is the [sha] of the object under [commit]
    and [message] the [message] of the object under [commit] of that one;
    [source] is the body. *)
Theorem getRefCommit_reads_body (backend : transport) (this : Gitee) (p : loc) (w : world)
    (o : gmap string json) (ref : string) (response body : gmap string json)
    (sha message : json) :
  heap w !! p = Some o ->
  is_Some (o !! "owner") ->
  is_Some (o !! "repo") ->
  o !! "ref" = Some (JStr ref) ->
  (forall req, backend (List.length (log w)) req = Resolve (JObj response)) ->
  response !! "data" = Some (JObj body) ->
  (String.prefix "refs/tags/" ref = true ->
   body !! "target_commitish" = Some sha ->
   body !! "tag_name" = Some message ->
   returned (getRefCommit backend this p w)
   = Some {| commit_sha := sha; commit_message := message; commit_source := JObj body |})
  /\ (String.prefix "refs/tags/" ref = false ->
      forall head inner : gmap string json,
        body !! "commit" = Some (JObj head) ->
        head !! "sha" = Some sha ->
        head !! "commit" = Some (JObj inner) ->
        inner !! "message" = Some message ->
        body !! "commit.sha" = None ->
        body !! "commit.commit.message" = None ->
        returned (getRefCommit backend this p w)
        = Some {| commit_sha := sha; commit_message := message;
                  commit_source := JObj body |}).
Proof.
  intros Hp Howner Hrepo Href Hreply Hdata.
  assert (Hrun := getRefCommit_run backend this p w o Hp).
  cbv zeta in Hrun. rewrite Hrun by (repeat constructor; eauto). clear Hrun.
  rewrite (obj_get_Some _ _ _ Href). unfold lodash_startsWith.
  cbn [lodash_toString is_nullish baseToString].
  assert (Hbody : body_or_empty (JObj response) = JObj body).
  { unfold body_or_empty. cbn [js_index]. by rewrite (obj_get_Some _ _ _ Hdata). }
  split.
  - intros Htag Hsha Hmessage. rewrite Htag.
    rewrite (returned_single_request _ _ _ _ _ (JObj response)) by apply Hreply.
    rewrite Hbody, !lodash_get_plain by reflexivity.
    by rewrite (obj_get_Some _ _ _ Hsha), (obj_get_Some _ _ _ Hmessage).
  - intros Htag head inner Hhead Hsha Hinner Hmessage Hno_sha Hno_message.
    rewrite Htag.
    rewrite (returned_single_request _ _ _ _ _ (JObj response)) by apply Hreply.
    rewrite Hbody. f_equal. f_equal.
    + unfold lodash_get, lodash_get_or, castPath.
      change (has_dot "commit.sha") with true. cbv iota.
      rewrite bool_decide_eq_false_2 by (rewrite Hno_sha; by intros [? ?]).
      change (split_dots "" "commit.sha") with ["commit"; "sha"].
      cbn [is_nullish baseGet baseGet_from js_index].
      rewrite (obj_get_Some _ _ _ Hhead). cbn [is_nullish js_index].
      rewrite (obj_get_Some _ _ _ Hsha). by destruct sha.
    + unfold lodash_get, lodash_get_or, castPath.
      change (has_dot "commit.commit.message") with true. cbv iota.
      rewrite bool_decide_eq_false_2 by (rewrite Hno_message; by intros [? ?]).
      change (split_dots "" "commit.commit.message") with ["commit"; "commit"; "message"].
      cbn [is_nullish baseGet baseGet_from js_index].
      rewrite (obj_get_Some _ _ _ Hhead). cbn [is_nullish js_index].
      rewrite (obj_get_Some _ _ _ Hinner). cbn [is_nullish js_index].
      rewrite (obj_get_Some _ _ _ Hmessage). by destruct message.
Qed.

Lemma getRefCommit_reads_body_witness :
  returned (getRefCommit (serve_body (JObj (branch_body (JStr "9fceb02") (JStr "fix: typo"))))
              sample_client 1%positive
              (sample_world (<["ref" := JStr "refs/heads/main"]> sample_params)))
  = Some {| commit_sha := JStr "9fceb02"; commit_message := JStr "fix: typo";
            commit_source := JObj (branch_body (JStr "9fceb02") (JStr "fix: typo")) |}.
Proof.
  destruct (getRefCommit_reads_body
              (serve_body (JObj (branch_body (JStr "9fceb02") (JStr "fix: typo"))))
              sample_client 1%positive
              (sample_world (<["ref" := JStr "refs/heads/main"]> sample_params))
              (<["ref" := JStr "refs/heads/main"]> sample_params) "refs/heads/main"
              {[ "status" := JNum 200;
                 "data" := JObj (branch_body (JStr "9fceb02") (JStr "fix: typo")) ]}
              (branch_body (JStr "9fceb02") (JStr "fix: typo"))
              (JStr "9fceb02") (JStr "fix: typo")) as [_ Hbranch].
  - reflexivity.
  - by eexists.
  - by eexists.
  - reflexivity.
  - intros req. reflexivity.
  - reflexivity.
  - apply (Hbranch eq_refl
             {[ "sha" := JStr "9fceb02"; "commit" := JObj {[ "message" := JStr "fix: typo" ]} ]}
             {[ "message" := JStr "fix: typo" ]}); reflexivity.
Defined.

(** ** A page size of the caller's *)

Lemma serve_rows_reply_sized (rows : list json) (path : string) (issued : nat)
    (o : gmap string json) (size i : nat) :
  obj_get o "per_page" = JNum (Z.of_nat size) ->
  page_reply (serve_rows rows) path issued o (JNum 1) i
  = Resolve (response (JArr (take size (drop (size * i) rows)))).
Proof.
  intros Hper. unfold page_reply, serve_rows, page_request, at_page. cbn [params].
  rewrite obj_get_insert_eq, obj_get_insert_ne, Hper, iter_add_one_num by done.
  rewrite Nat2Z.id. do 5 f_equal. lia.
Qed.

Lemma serve_rows_stops_sized (rows : list json) (path : string) (issued : nat)
    (o : gmap string json) (size : nat) :
  (0 < size)%nat ->
  obj_get o "per_page" = JNum (Z.of_nat size) ->
  stops_at (serve_rows rows) path issued o (JNum 1) (List.length rows / size).
Proof.
  intros Hsize Hper. unfold stops_at. rewrite Hper.
  pose proof (Nat.div_mod_eq (List.length rows) size) as Hdiv.
  pose proof (Nat.mod_upper_bound (List.length rows) size) as Hmod.
  split; [intros i Hi|]; rewrite (serve_rows_reply_sized _ _ _ _ size) by done;
    unfold full_page; rewrite reply_data_response;
    cbn [lodash_size js_strict_eq_num]; rewrite length_take, length_drop.
  - apply Z.eqb_eq.
    assert (size * (i + 1) <= size * (List.length rows / size))%nat
      by (apply Nat.mul_le_mono_l; lia).
    lia.
  - apply Z.eqb_neq. lia.
Qed.

Lemma serve_rows_fetched_rows_sized (rows : list json) (path : string) (issued : nat)
    (o : gmap string json) (size m : nat) :
  obj_get o "per_page" = JNum (Z.of_nat size) ->
  fetched_rows (serve_rows rows) path issued o (JNum 1) m = take (size * m) rows.
Proof.
  intros Hper. unfold fetched_rows. rewrite <- flat_map_pages.
  apply flat_map_ext. intros i. by rewrite (serve_rows_reply_sized _ _ _ _ size).
Qed.

Section Sized.

Variable rows : list json.
Variable this : Gitee.
Variable p : loc.
Variable w : world.
Variable o : gmap string json.
Variable size : nat.

Hypothesis params_at_p : heap w !! p = Some o.
Hypothesis has_owner : is_Some (o !! "owner").
Hypothesis has_repo : is_Some (o !! "repo").
Hypothesis no_page : o !! "page" = None.
Hypothesis caller_size : o !! "per_page" = Some (JNum (Z.of_nat size)).
Hypothesis size_positive : (0 < size)%nat.

Lemma list_operation_sized {A} (path_of : gmap string json -> string) (f : json -> M A)
    (g : json -> A) (fuel : nat) :
  (List.length rows / size < fuel)%nat ->
  (forall w', Forall (fun row => f row w' = Ret (g row) w') rows) ->
  exists w' exchanges,
    (validate_required ["owner"; "repo"] p ;;
     let* o := load p in
     let* q := lodash_defaults_at p PARAMS in
     let* rows := requestList (serve_rows rows) this fuel (path_of o) q in
     lodash_map f rows) w
    = Ret (List.map g rows) w'
    /\ log w' = log w ++ exchanges
    /\ List.length exchanges = (List.length rows / size + 1)%nat
    /\ (forall e, In e exchanges ->
          params (fst e) !! "per_page" = Some (JNum (Z.of_nat size))).
Proof.
  intros Hfuel Hrows.
  set (n := (List.length rows / size)%nat) in *.
  set (o1 := lodash_defaults (lodash_defaults o PARAMS) (token_source this)).
  assert (Hsize1 : o1 !! "per_page" = Some (JNum (Z.of_nat size))).
  { unfold o1. rewrite lookup_defaults_token_other by done.
    by apply lookup_defaults_defined. }
  assert (Hper1 : obj_get o1 "per_page" = JNum (Z.of_nat size)) by by apply obj_get_Some.
  pose proof (Nat.div_mod_eq (List.length rows) size) as Hdiv.
  pose proof (Nat.mod_upper_bound (List.length rows) size) as Hmod.
  pose proof (list_operation_total (serve_rows rows) this ["owner"; "repo"] path_of f g p
                fuel n w o (JNum 1) params_at_p) as Hrun.
  cbv zeta in Hrun. fold o1 in Hrun.
  rewrite (serve_rows_fetched_rows_sized _ _ _ _ size) in Hrun by done.
  rewrite take_ge in Hrun by (unfold n; lia).
  lazymatch type of Hrun with
  | _ -> _ -> _ -> _ -> _ -> _ -> _ = Ret _ ?w' => exists w'
  end.
  eexists. split; [|split; [reflexivity|split]].
  - apply Hrun.
    + by repeat constructor.
    + by rewrite lookup_defaults_missing.
    + by apply serve_rows_stops_sized.
    + rewrite (serve_rows_reply_sized _ _ _ _ size), reply_data_response by done. by eexists.
    + done.
    + apply Hrows.
  - unfold fetched_log. rewrite length_map, length_seq. lia.
  - unfold fetched_log. intros e (i & <- & _)%in_map_iff.
    unfold page_exchange, page_request, at_page. cbn [fst params].
    by rewrite lookup_insert_ne.
Qed.

End Sized.

(** X16. A numeric [per_page] of the caller's is the page size of the fetch:
    over a backend holding [rows], [listWebhook] and [listBranchs] ask for
    pages of that size, return every row, and send
    [length rows / per_page + 1] requests. *)
Theorem caller_per_page_is_page_size (rows : list json) (this : Gitee) (fuel size : nat)
    (p : loc) (w : world) (o : gmap string json) :
  heap w !! p = Some o ->
  is_Some (o !! "owner") ->
  is_Some (o !! "repo") ->
  o !! "page" = None ->
  o !! "per_page" = Some (JNum (Z.of_nat size)) ->
  (0 < size)%nat ->
  (List.length rows / size < fuel)%nat ->
  (exists out w' exchanges,
     listWebhook (serve_rows rows) this fuel p w = Ret out w'
     /\ List.map webhook_source out = rows
     /\ log w' = log w ++ exchanges
     /\ List.length exchanges = (List.length rows / size + 1)%nat
     /\ (forall e, In e exchanges ->
           params (fst e) !! "per_page" = Some (JNum (Z.of_nat size))))
  /\ (Forall (fun row => is_nullish row = false) rows ->
      exists out w' exchanges,
        listBranchs (serve_rows rows) this fuel p w = Ret out w'
        /\ List.map branch_source out = rows
        /\ log w' = log w ++ exchanges
        /\ List.length exchanges = (List.length rows / size + 1)%nat
        /\ (forall e, In e exchanges ->
              params (fst e) !! "per_page" = Some (JNum (Z.of_nat size)))).
Proof.
  intros Hp Howner Hrepo Hpage Hsize Hpositive Hfuel. split.
  - destruct (list_operation_sized rows this p w o size Hp Howner Hrepo Hpage Hsize Hpositive
                (fun o => "/repos/" +:+ js_ToString (obj_get o "owner") +:+ "/"
                          +:+ js_ToString (obj_get o "repo") +:+ "/hooks")
                (fun row => ret {| webhook_id := lodash_get row "id";
                                   webhook_url := lodash_get row "url";
                                   webhook_source := row |})
                (fun row => {| webhook_id := lodash_get row "id";
                               webhook_url := lodash_get row "url";
                               webhook_source := row |}) fuel Hfuel)
      as (w' & exchanges & Hrun & Hrest).
    { intros w'. by apply Forall_forall. }
    eexists _, w', exchanges. split; [exact Hrun|]. split; [|exact Hrest].
    rewrite map_map. apply map_id.
  - intros Hrows.
    destruct (list_operation_sized rows this p w o size Hp Howner Hrepo Hpage Hsize Hpositive
                (fun o => "/repos/" +:+ js_ToString (obj_get o "owner") +:+ "/"
                          +:+ js_ToString (obj_get o "repo") +:+ "/branches")
                (fun row => let* name := js_member row "name" in
                            ret {| branch_name := name;
                                   branch_commit_sha := lodash_get row "commit.sha";
                                   branch_source := row |})
                (fun row => {| branch_name := js_index row "name";
                               branch_commit_sha := lodash_get row "commit.sha";
                               branch_source := row |}) fuel Hfuel)
      as (w' & exchanges & Hrun & Hrest).
    { intros w'. by apply branch_rows_read. }
    eexists _, w', exchanges. split; [exact Hrun|]. split; [|exact Hrest].
    rewrite map_map. apply map_id.
Qed.

Lemma caller_per_page_is_page_size_witness :
  let o := <["per_page" := JNum 2]> sample_params in
  exists out w' exchanges,
    listWebhook (serve_rows (sample_rows 5)) sample_client 3 1%positive (sample_world o)
    = Ret out w'
    /\ List.map webhook_source out = sample_rows 5
    /\ log w' = log (sample_world o) ++ exchanges
    /\ List.length exchanges = 3%nat.
Proof.
  intros o.
  destruct (caller_per_page_is_page_size (sample_rows 5) sample_client 3 2 1%positive
              (sample_world o) o) as [(out & w' & exchanges & Hrun & Hout & Hlog & Hlen & _) _].
  - reflexivity.
  - by eexists.
  - by eexists.
  - reflexivity.
  - reflexivity.
  - lia.
  - vm_compute. lia.
  - exists out, w', exchanges. split; [exact Hrun|]. split; [exact Hout|].
    split; [exact Hlog|]. rewrite Hlen. reflexivity.
Defined.
